(** * Credential resolution of the [exp build] commands

    A shallow embedding of the three builders of the repository:

    - [IOS]     the batch iOS builder  (src/commands/build/IOSBuilder.js, first version);
    - [Legacy]  the per-field iOS builder (same file, second version);
    - [Android] the Android builder.

    JavaScript values are a small inductive type, objects are association
    lists in insertion order, and every effect of the code (service calls,
    prompts, file reads, log lines) is an event appended to a trace.  The
    replies of the collaborators come from a [World] whose answers may depend
    on everything that happened before. *)

From Stdlib Require Import String Ascii List ZArith NArith Bool Lia DecimalString.
Import ListNotations.
Open Scope string_scope.

(** ** JavaScript values *)

#[local] Set Warnings "-register-all".

Inductive jsval : Type :=
| JUndefined
| JNull
| JBool (b : bool)
| JNum (z : Z)                       (* integral numbers that print in plain decimal *)
| JStr (s : string)
| JArr (l : list jsval)
| JObj (l : list (string * jsval)).  (* own enumerable properties, in insertion order *)

Definition obj : Type := list (string * jsval).

(** [!!v] *)
Definition truthy (v : jsval) : bool :=
  match v with
  | JUndefined | JNull => false
  | JBool b => b
  | JNum z => negb (Z.eqb z 0)
  | JStr s => negb (String.eqb s "")
  | JArr _ | JObj _ => true
  end.

(** [typeof v === 'string'] *)
Definition isString (v : jsval) : bool :=
  match v with JStr _ => true | _ => false end.

(** [v === 'lit'] *)
Definition is_str (v : jsval) (lit : string) : bool :=
  match v with JStr s => String.eqb s lit | _ => false end.

(** [v !== undefined] *)
Definition defined (v : jsval) : bool :=
  match v with JUndefined => false | _ => true end.

(** *** Objects: property read, write, delete *)

Fixpoint get (o : obj) (k : string) : jsval :=
  match o with
  | [] => JUndefined
  | (k', v) :: o' => if String.eqb k k' then v else get o' k
  end.

Fixpoint has (o : obj) (k : string) : bool :=
  match o with
  | [] => false
  | (k', _) :: o' => if String.eqb k k' then true else has o' k
  end.

(** [o[k] = v]: an existing key keeps its place, a new key goes last.  This
    is the order of JavaScript for keys that are no array indices, as the
    keys of the builders are. *)
Fixpoint set (k : string) (v : jsval) (o : obj) : obj :=
  match o with
  | [] => [(k, v)]
  | (k', v') :: o' => if String.eqb k k' then (k, v) :: o' else (k', v') :: set k v o'
  end.

(** [delete o[k]] *)
Fixpoint delete (k : string) (o : obj) : obj :=
  match o with
  | [] => []
  | (k', v') :: o' => if String.eqb k k' then delete k o' else (k', v') :: delete k o'
  end.

(** [Object.keys(o)] *)
Definition keys (o : obj) : list string := map fst o.

(** [Object.assign(target, source)] *)
Definition assign (target source : obj) : obj :=
  fold_left (fun t kv => set (fst kv) (snd kv) t) source target.

(** [{ k1: v1, ... }]: an object literal, later duplicates overriding in place. *)
Definition literal (l : list (string * jsval)) : obj := assign [] l.

(** *** Strings *)

Fixpoint join (sep : string) (l : list string) : string :=
  match l with
  | [] => ""
  | [s] => s
  | s :: l' => s ++ sep ++ join sep l'
  end.

Definition string_of_Z (z : Z) : string := NilZero.string_of_int (Z.to_int z).

(** [s.startsWith(p)] *)
Definition startsWith (s p : string) : bool := String.prefix p s.

Definition hex_digit (n : N) : ascii :=
  match String.get (N.to_nat n) "0123456789abcdef" with
  | Some c => c
  | None => "0"%char
  end.

Definition dquote : string := String (ascii_of_N 34) "".

(** The escape JSON.stringify writes for one character. *)
Definition json_escape (c : ascii) : string :=
  let n := N_of_ascii c in
  if N.eqb n 34 then "\" ++ dquote
  else if N.eqb n 92 then "\\"
  else if N.eqb n 8 then "\b"
  else if N.eqb n 9 then "\t"
  else if N.eqb n 10 then "\n"
  else if N.eqb n 12 then "\f"
  else if N.eqb n 13 then "\r"
  else if N.ltb n 32 then
    "\u00" ++ String (hex_digit (N.div n 16)) (String (hex_digit (N.modulo n 16)) "")
  else String c "".

Fixpoint json_escape_all (s : string) : string :=
  match s with
  | EmptyString => ""
  | String c s' => json_escape c ++ json_escape_all s'
  end.

Definition json_quote (s : string) : string := dquote ++ json_escape_all s ++ dquote.

(** [JSON.stringify(v)] as a string, [None] where JavaScript yields
    [undefined].  Inside an array [undefined] prints as [null]; inside an
    object a property holding [undefined] is left out. *)
Fixpoint json_text (v : jsval) : option string :=
  match v with
  | JUndefined => None
  | JNull => Some "null"
  | JBool true => Some "true"
  | JBool false => Some "false"
  | JNum z => Some (string_of_Z z)
  | JStr s => Some (json_quote s)
  | JArr l =>
      Some ("[" ++ join "," (map (fun x => match json_text x with
                                           | Some s => s
                                           | None => "null"
                                           end) l) ++ "]")
  | JObj l =>
      Some ("{" ++ join "," (flat_map (fun kv => match json_text (snd kv) with
                                                 | Some s => [json_quote (fst kv) ++ ":" ++ s]
                                                 | None => []
                                                 end) l) ++ "}")
  end.

(** [JSON.stringify(v)]: a string, or [undefined]. *)
Definition JSON_stringify (v : jsval) : jsval :=
  match json_text v with
  | Some s => JStr s
  | None => JUndefined
  end.

(** String conversion of a template literal, [`${v}`]. *)
Fixpoint ToString (v : jsval) : string :=
  match v with
  | JUndefined => "undefined"
  | JNull => "null"
  | JBool true => "true"
  | JBool false => "false"
  | JNum z => string_of_Z z
  | JStr s => s
  | JArr l => join "," (map (fun x => match x with
                                      | JUndefined | JNull => ""
                                      | _ => ToString x
                                      end) l)
  | JObj _ => "[object Object]"
  end.

(** *** [Buffer.toString('base64')] *)

Definition b64_char (n : N) : ascii :=
  match String.get (N.to_nat n)
          "ABCDEFGHIJKLMNOPQRSTUVWXYZabcdefghijklmnopqrstuvwxyz0123456789+/" with
  | Some c => c
  | None => "="%char
  end.

Fixpoint base64_bytes (l : list N) : string :=
  match l with
  | [] => ""
  | [a] =>
      String (b64_char (N.div a 4))
        (String (b64_char (N.modulo (a * 16) 64)) "==")
  | [a; b] =>
      String (b64_char (N.div a 4))
        (String (b64_char (N.modulo (a * 16 + N.div b 16) 64))
           (String (b64_char (N.modulo (b * 4) 64)) "="))
  | a :: b :: c :: rest =>
      String (b64_char (N.div a 4))
        (String (b64_char (N.modulo (a * 16 + N.div b 16) 64))
           (String (b64_char (N.modulo (b * 4 + N.div c 64) 64))
              (String (b64_char (N.modulo c 64)) (base64_bytes rest))))
  end.

Definition base64 (bytes : string) : string :=
  base64_bytes (map N_of_ascii (list_ascii_of_string bytes)).

(** ** Effects: exceptions, events and the trace monad *)

Inductive ErrorCode : Type := INVALID_OPTIONS | CREDENTIAL_ERROR.

(** What the code can throw, or a collaborator reject with. *)
Inductive Exn : Type :=
| XDLError (code : ErrorCode) (message : string)   (* new XDLError(code, message) *)
| Error (message : string)                         (* new Error(message) *)
| TypeError (message : string)                     (* raised by the runtime *)
| Rejection (reason : jsval).                      (* raised by a collaborator *)

(** Every function of a collaborator the builders call, with its arguments. *)
Inductive Call : Type :=
| Exp_getPublishInfoAsync (projectDir : string)
| Credentials_credentialsExistForPlatformAsync (metadata : obj)
| Credentials_removeCredentialsForPlatform (platform : string) (metadata : obj)
| Credentials_updateCredentialsForPlatform (platform : string) (credentials metadata : obj)
| Credentials_validateCredentialsForPlatform
    (platform kind : string) (credentials : option obj) (metadata : obj)
| Credentials_ensureAppId (metadata : obj)
| Credentials_fetchAppleCertificates (metadata : obj)
| Credentials_fetchPushCertificates (metadata : obj)
| this_checkStatus
| this_ensureReleaseExists (platform : string)
| this_publish
| this_build (publishedExpIds : jsval) (platform : string)
| authFuncs_doFastlaneActionsExist
| authFuncs_prepareLocalAuth
| authFuncs_validateCredentialsProduceTeamId (appleCreds : obj)
| authFuncs_ensureAppIdLocally (appleCreds metadata : obj) (teamId : jsval)
| authFuncs_createAppOnPortal (appleCreds metadata : obj) (teamId : jsval)
| authFuncs_produceProvisionProfile (appleCreds metadata : obj) (teamId : jsval)
| authFuncs_produceCerts (appleCreds : obj) (teamId : jsval)
| authFuncs_producePushCerts (appleCreds metadata : obj) (teamId : jsval)
| fs_readFile (path : jsval)
| fs_stat (path : jsval)
| fs_existsSync (path : string).

Inductive Level : Type :=
| LLog        (* log(...) *)
| LWarn       (* log.warn(...) *)
| LError      (* log.error(...) *)
| LConsole.   (* console.log(...) *)

Inductive Payload : Type :=
| Text (s : string)
| Value (v : jsval)       (* a value handed to the logger as it is *)
| JsonOf (e : Exn).       (* JSON.stringify of a caught exception *)

Inductive SpinnerOp : Type :=
| SpinnerStart
| SpinnerStop
| SpinnerText (s : string).

Inductive Event : Type :=
| EvCall (c : Call)
| EvAsk (name : string) (answer : jsval)   (* a question shown and its stored answer *)
| EvLog (lvl : Level) (p : Payload)
| EvSpinner (op : SpinnerOp).

Definition Hist : Type := list Event.

(** A computation reads the events so far and yields a result, or an
    exception, and the events it adds. *)
Definition M (A : Type) : Type := Hist -> (Exn + A) * list Event.

Definition ret {A} (a : A) : M A := fun _ => (inr a, []).

Definition throw {A} (e : Exn) : M A := fun _ => (inl e, []).

Definition bind {A B} (m : M A) (f : A -> M B) : M B :=
  fun h =>
    match m h with
    | (inl e, es) => (inl e, es)
    | (inr a, es) => let (r, es') := f a (h ++ es)%list in (r, (es ++ es')%list)
    end.

Notation "x <- m ;; k" := (bind m (fun x => k))
  (at level 61, m at next level, right associativity).
Notation "' p <- m ;; k" := (bind m (fun x => match x with p => k end))
  (at level 61, p pattern, m at next level, right associativity).
Notation "m ;; k" := (bind m (fun _ => k))
  (at level 61, right associativity).

Definition emit (e : Event) : M unit := fun _ => (inr tt, [e]).

(** A call to a collaborator: the event, and the reply the world gives at
    this point of the history. *)
Definition call {A} (c : Call) (reply : Hist -> Exn + A) : M A :=
  fun h => (reply h, [EvCall c]).

(** [try { m } catch (e) { handler e }] *)
Definition try_catch {A} (m : M A) (handler : Exn -> M A) : M A :=
  fun h =>
    match m h with
    | (inl e, es) => let (r, es') := handler e (h ++ es)%list in (r, (es ++ es')%list)
    | (inr a, es) => (inr a, es)
    end.

(** [try { m } finally { fin }] *)
Definition finally {A} (m : M A) (fin : M unit) : M A :=
  fun h =>
    let (r, es) := m h in
    match fin (h ++ es)%list with
    | (inl e, es') => (inl e, (es ++ es')%list)
    | (inr _, es') => (r, (es ++ es')%list)
    end.

(** [for (const x of l) { s = body s x }] *)
Fixpoint for_of {S X} (l : list X) (body : S -> X -> M S) (s : S) : M S :=
  match l with
  | [] => ret s
  | x :: l' => s' <- body s x ;; for_of l' body s'
  end.

Definition log (s : string) : M unit := emit (EvLog LLog (Text s)).
Definition log_warn (s : string) : M unit := emit (EvLog LWarn (Text s)).
Definition log_error (s : string) : M unit := emit (EvLog LError (Text s)).
Definition console_log (s : string) : M unit := emit (EvLog LConsole (Text s)).
Definition console_log_value (v : jsval) : M unit := emit (EvLog LConsole (Value v)).

Definition when_ (b : bool) (m : M unit) : M unit := if b then m else ret tt.

(** [v.startsWith(p)]: a TypeError unless [v] is a string. *)
Definition startsWith_of (v : jsval) (p : string) : M bool :=
  match v with
  | JStr s => ret (startsWith s p)
  | JUndefined | JNull => throw (TypeError "Cannot read property 'startsWith' of undefined")
  | _ => throw (TypeError "startsWith is not a function")
  end.

(** ** The world outside the builders *)

Record World : Type := {
  (* process.env *)
  process_env : string -> option string;
  (* xdl *)
  reply_getPublishInfoAsync : Hist -> string -> Exn + obj;   (* the [args] of the reply *)
  reply_credentialsExistForPlatformAsync : Hist -> obj -> Exn + option obj;
  reply_removeCredentialsForPlatform : Hist -> string -> obj -> Exn + unit;
  reply_updateCredentialsForPlatform : Hist -> string -> obj -> obj -> Exn + unit;
  reply_validateCredentialsForPlatform :
    Hist -> string -> string -> option obj -> obj -> Exn + unit;
  reply_ensureAppId : Hist -> obj -> Exn + unit;
  reply_fetchAppleCertificates : Hist -> obj -> Exn + unit;
  reply_fetchPushCertificates : Hist -> obj -> Exn + unit;
  (* BaseBuilder *)
  reply_checkStatus : Hist -> Exn + unit;
  reply_ensureReleaseExists : Hist -> string -> Exn + jsval;
  reply_publish : Hist -> Exn + jsval;
  reply_build : Hist -> jsval -> string -> Exn + unit;
  (* ./auth *)
  DEBUG : bool;
  NO_BUNDLE_ID : string;
  MULTIPLE_PROFILES : string;
  reply_doFastlaneActionsExist : Hist -> Exn + jsval;
  reply_prepareLocalAuth : Hist -> Exn + unit;
  reply_validateCredentialsProduceTeamId : Hist -> obj -> Exn + obj;
  reply_ensureAppIdLocally : Hist -> obj -> obj -> jsval -> Exn + obj;
  reply_createAppOnPortal : Hist -> obj -> obj -> jsval -> Exn + obj;
  reply_produceProvisionProfile : Hist -> obj -> obj -> jsval -> Exn + obj;
  reply_produceCerts : Hist -> obj -> jsval -> Exn + obj;
  reply_producePushCerts : Hist -> obj -> obj -> jsval -> Exn + obj;
  (* fs and path *)
  reply_readFile : Hist -> string -> Exn + string;
  reply_stat_isFile : Hist -> string -> Exn + bool;
  reply_existsSync : Hist -> string -> bool;
  path_resolve : string -> string;
  (* the operator, through inquirer: what is stored for a question once its
     [filter] and [validate] have accepted the input *)
  answer_input : Hist -> string -> string;
  answer_choice : Hist -> string -> nat;
  answer_confirm : Hist -> string -> bool
}.

(** [this.options] *)
Record Options : Type := {
  clearCredentials : bool;
  useCi : bool;
  type : option string
}.

(** [this.options.type !== 'simulator'] *)
Definition not_simulator (o : Options) : bool :=
  match type o with
  | Some t => negb (String.eqb t "simulator")
  | None => true
  end.

(** *** inquirer *)

Inductive QType : Type :=
| QInput
| QPassword
| QList (choices : list (string * jsval))
| QRawList (choices : list (string * jsval))
| QConfirm.

(** A question.  [q_when] may read the answers so far and read and change
    the state [S] its closure captures.  The [validate] and [filter] of a
    question belong to the exchange with the operator: the answer of the
    model is the value inquirer stores once both have accepted the input.
    What a [validate] does while the operator types is therefore no part of
    a trace: for the path questions of the per-field iOS builder and of the
    Android builder that is one [fs.stat] of every path typed, and the
    console line "File does not exist." for a path that names nothing. *)
Record Question (S : Type) : Type := {
  q_type : QType;
  q_name : string;
  q_message : string;
  q_when : option (obj -> S -> M (bool * S))
}.

Arguments q_type {S} _.
Arguments q_name {S} _.
Arguments q_message {S} _.
Arguments q_when {S} _.

Definition question (t : QType) (name message : string) : Question unit :=
  {| q_type := t; q_name := name; q_message := message; q_when := None |}.

Section Collaborators.
Variable W : World.

(** [process.env.NAME] *)
Definition env (name : string) : jsval :=
  match process_env W name with
  | Some s => JStr s
  | None => JUndefined
  end.

(** [fs.readFile(path)]: a path that is no string is refused before any
    file is touched. *)
Definition readFile (path : jsval) : M string :=
  call (fs_readFile path)
    (fun h => match path with
              | JStr p => reply_readFile W h p
              | _ => inl (TypeError "path must be a string or Buffer")
              end).

Definition selected (choices : list (string * jsval)) (i : nat) : jsval :=
  nth i (map snd choices) (hd JUndefined (map snd choices)).

(** One question put to the operator. *)
Definition ask {S} (q : Question S) : M jsval :=
  fun h =>
    let v := match q_type q with
             | QInput | QPassword => JStr (answer_input W h (q_name q))
             | QList cs | QRawList cs => selected cs (answer_choice W h (q_name q))
             | QConfirm => JBool (answer_confirm W h (q_name q))
             end in
    (inr v, [EvAsk (q_name q) v]).

(** [inquirer.prompt(questions)], the answers object being filled in the
    order of the questions. *)
Fixpoint prompt_from {S} (qs : list (Question S)) (answers : obj) (s : S) : M (obj * S) :=
  match qs with
  | [] => ret (answers, s)
  | q :: qs' =>
      '(shown, s') <- match q_when q with
                      | None => ret (true, s)
                      | Some w => w answers s
                      end ;;
      if (shown : bool) then
        v <- ask q ;;
        prompt_from qs' (set (q_name q) v answers) s'
      else prompt_from qs' answers s'
  end.

Definition prompt_with {S} (qs : list (Question S)) (s : S) : M (obj * S) :=
  prompt_from qs [] s.

Definition prompt (qs : list (Question unit)) : M obj :=
  '(answers, _) <- prompt_with qs tt ;; ret answers.
End Collaborators.

(** ** The batch iOS builder (IOSBuilder.js, first version) *)

Module IOS.

Definition expertPrompt : string := "
WARNING! In this mode, we won't be able to make sure your certificates,
or provisioning profile are valid. Please double check that you're
uploading valid files for your app otherwise you may encounter strange errors!

Make sure you've created your app ID on the developer portal, that your app ID
is in app.json as `bundleIdentifier`, and that the provisioning profile you
upload matches that team ID and app ID.
".

Definition runAsExpertQuestion : Question unit :=
  question
    (QList [("Expo handles all credentials, you can still provide overrides", JBool true);
            ("I will provide all the credentials and files needed, Expo does limited validation",
             JBool false)])
    "isExpoManaged"
    "How would you like to upload your credentials?
".

Definition OBLIGATORY_CREDS_KEYS : list string :=
  ["certP12"; "certPassword"; "pushP12"; "pushPassword"; "provisioningProfile"; "teamId"].

Definition LET_EXPO_HANDLE : string := "Let Expo handle the process".

Definition I_PROVIDE_FILE : string := "I want to upload my own file".

Definition OVERRIDE_CHOICES : list (string * jsval) :=
  [(LET_EXPO_HANDLE, JBool true); (I_PROVIDE_FILE, JBool false)].

Definition whatToOverride : list (Question unit) :=
  [question (QList OVERRIDE_CHOICES) "distCert"
     "Will you provide your own Distribution Certificate?";
   question (QList OVERRIDE_CHOICES) "pushCert"
     "Will you provide your own Push Certificate?"].

Definition provisionProfilePath : Question unit :=
  question QInput "pathToProvisioningProfile" "Path to your .mobile provisioning Profile".

Definition sharedQuestions : list (Question unit) :=
  [question QInput "pathToP12" "Path to P12 file:";
   question QPassword "p12Password" "P12 password:"].

Definition appleCredsQuestions : list (Question unit) :=
  [question QInput "appleId" "What's your Apple ID?";
   question QPassword "password" "Password?"].

(** [_copyOverAsString]; the changed [credsStarter] is returned. *)
Definition _copyOverAsString (credsStarter authActionAttempt : obj) : obj :=
  fold_left
    (fun credsStarter k =>
       let isString := isString (get authActionAttempt k) in
       if isString then set k (get authActionAttempt k) credsStarter
       else set k (JSON_stringify (get authActionAttempt k)) credsStarter)
    (keys authActionAttempt) credsStarter.

(** The keys [_areCredsMissing] collects in [credsMissing]. *)
Definition credsMissing (creds : obj) : list string :=
  filter (fun k => Bool.eqb (has creds k) false) OBLIGATORY_CREDS_KEYS.

(** [_areCredsMissing(creds, action)]; [action], when given, changes the
    caller's variable [s] once for every missing key. *)
Definition _areCredsMissing {S} (creds : obj) (action : option (S -> S)) (s : S) : M S :=
  let s' := fold_left (fun s _ => match action with
                                  | Some act => act s
                                  | None => s
                                  end) (credsMissing creds) s in
  when_ (negb (Nat.eqb (length (credsMissing creds)) 0))
    (log_warn ("We do not have some credentials for you, " ++ join "," (credsMissing creds))) ;;
  ret s'.

Definition encrypted_message : string :=
  "Encrypted " ++ join "," OBLIGATORY_CREDS_KEYS ++ " and saved to expo servers".

(** [e.stdout] of a caught exception. *)
Definition stdout_of (e : Exn) : M jsval :=
  match e with
  | Rejection (JObj o) => ret (get o "stdout")
  | Rejection JUndefined | Rejection JNull =>
      throw (TypeError "Cannot read property 'stdout' of undefined")
  | _ => ret JUndefined
  end.

(** [s.replace(/\0/g, '')] *)
Fixpoint remove_nul (s : string) : string :=
  match s with
  | EmptyString => EmptyString
  | String c s' => if N.eqb (N_of_ascii c) 0 then remove_nul s' else String c (remove_nul s')
  end.

(** [`Reason:${reason}, raw:${JSON.stringify(rawDump)}`] *)
Definition failure_message (replyAttempt : obj) : string :=
  let reason := get replyAttempt "reason" in
  let rawDump := get replyAttempt "rawDump" in
  "Reason:" ++ ToString reason ++ ", raw:" ++ ToString (JSON_stringify rawDump).

Section Builder.
Variable W : World.
Variable projectDir : string.
Variable options : Options.

Definition _throwIfFailureWithReasonDump (replyAttempt : obj) : M unit :=
  when_ (DEBUG W) (console_log_value (JObj replyAttempt)) ;;
  if is_str (get replyAttempt "result") "failure" then
    throw (Error (failure_message replyAttempt))
  else ret tt.

Definition askForAppleCreds (justTeamId : bool) : M obj :=
  (if Bool.eqb justTeamId false then
     console_log "
We need your Apple ID/password to manage certificates and
provisioning profiles from your Apple Developer account.

Note: Expo does not keep your Apple ID or your Apple password.
"
   else
     console_log "
We need your Apple ID/password to ensure the correct teamID and appID

Note: Expo does not keep your Apple ID or your Apple password.
") ;;
  prompt W appleCredsQuestions.

Definition runningAsCI (credsStarter credsMetadata : obj) : M obj :=
  let creds :=
    [("teamId", env W "EXP_APPLE_TEAM_ID");
     ("certP12", env W "EXP_DIST_CERTIFICATE_PATH");
     ("certPassword", env W "EXP_DIST_CERTIFICATE_PASSWORD");
     ("pushP12", env W "EXP_PUSH_CERTIFICATE_PATH");
     ("pushPassword", env W "EXP_PUSH_CERTIFICATE_PASSWORD");
     ("provisioningProfile", env W "EXP_PROVIONING_PROFILE_PATH")] in
  provisioningProfile <- readFile W (get creds "provisioningProfile") ;;
  certP12 <- readFile W (get creds "certP12") ;;
  pushP12 <- readFile W (get creds "pushP12") ;;
  ret (_copyOverAsString credsStarter
         (literal (creds ++ [("provisioningProfile", JStr (base64 provisioningProfile));
                             ("certP12", JStr (base64 certP12));
                             ("pushP12", JStr (base64 pushP12))])%list)).

(** The operator supplies the credential of [choice]. *)
Definition userProvidedOverride (credsStarter : obj) (choice : string) : M obj :=
  if String.eqb choice "distCert" then
    log "Please provide your distribution certificate P12:" ;;
    distCertValues <- prompt W sharedQuestions ;;
    p12 <- readFile W (get distCertValues "pathToP12") ;;
    ret (_copyOverAsString credsStarter
           (literal [("certP12", JStr (base64 p12));
                     ("certPassword", get distCertValues "p12Password")]))
  else if String.eqb choice "pushCert" then
    log "Please provide the path to your push notification cert P12" ;;
    pushCertValues <- prompt W sharedQuestions ;;
    p12 <- readFile W (get pushCertValues "pathToP12") ;;
    ret (_copyOverAsString credsStarter
           (literal [("pushP12", JStr (base64 p12));
                     ("pushPassword", get pushCertValues "p12Password")]))
  else if String.eqb choice "provisioningProfile" then
    log "Please provide the path to your .mobile provisioning profile" ;;
    answers <- prompt W [provisionProfilePath] ;;
    profile <- readFile W (get answers "pathToProvisioningProfile") ;;
    ret (_copyOverAsString credsStarter
           (literal [("provisioningProfile", JStr (base64 profile))]))
  else throw (Error ("Unknown choice to override: " ++ choice)).

Definition runningAsExpert (credsStarter : obj) : M obj :=
  log expertPrompt ;;
  for_of ["distCert"; "pushCert"; "provisioningProfile"] userProvidedOverride credsStarter.

Definition _ensureAppExists (appleCreds credsMetadata : obj) (teamId : jsval)
           (credsStarter : obj) : M obj :=
  checkAppExistenceAttempt <-
    call (authFuncs_ensureAppIdLocally appleCreds credsMetadata teamId)
         (fun h => reply_ensureAppIdLocally W h appleCreds credsMetadata teamId) ;;
  noBundleId <-
    (if is_str (get checkAppExistenceAttempt "result") "failure"
     then startsWith_of (get checkAppExistenceAttempt "reason") (NO_BUNDLE_ID W)
     else ret false) ;;
  checkAppExistenceAttempt <-
    (if (noBundleId : bool) then
       call (authFuncs_createAppOnPortal appleCreds credsMetadata teamId)
            (fun h => reply_createAppOnPortal W h appleCreds credsMetadata teamId)
     else ret checkAppExistenceAttempt) ;;
  _throwIfFailureWithReasonDump checkAppExistenceAttempt ;;
  ret (_copyOverAsString credsStarter checkAppExistenceAttempt).

Definition produceProvisionProfile (appleCreds credsMetadata : obj) (teamId : jsval)
           (credsStarter : obj) : M obj :=
  produceProvisionProfileAttempt <-
    call (authFuncs_produceProvisionProfile appleCreds credsMetadata teamId)
         (fun h => reply_produceProvisionProfile W h appleCreds credsMetadata teamId) ;;
  multiple <-
    (if is_str (get produceProvisionProfileAttempt "result") "failure"
     then startsWith_of (get produceProvisionProfileAttempt "reason") (MULTIPLE_PROFILES W)
     else ret false) ;;
  when_ multiple
    (log_warn "Consider logging into https://developer.apple.com and removing the existing provisioning profile") ;;
  _throwIfFailureWithReasonDump produceProvisionProfileAttempt ;;
  ret (_copyOverAsString credsStarter produceProvisionProfileAttempt).

(** The service produces the credential of [choice]. *)
Definition expoManagedResource (credsStarter : obj) (choice : string)
           (appleCreds : obj) (teamId : jsval) (credsMetadata : obj) : M obj :=
  if String.eqb choice "distCert" then
    produceCertAttempt <-
      call (authFuncs_produceCerts appleCreds teamId)
           (fun h => reply_produceCerts W h appleCreds teamId) ;;
    _throwIfFailureWithReasonDump produceCertAttempt ;;
    ret (_copyOverAsString credsStarter produceCertAttempt)
  else if String.eqb choice "pushCert" then
    producePushCertsAttempt <-
      call (authFuncs_producePushCerts appleCreds credsMetadata teamId)
           (fun h => reply_producePushCerts W h appleCreds credsMetadata teamId) ;;
    _throwIfFailureWithReasonDump producePushCertsAttempt ;;
    ret (_copyOverAsString credsStarter producePushCertsAttempt)
  else if String.eqb choice "provisioningProfile" then
    produceProvisionProfile appleCreds credsMetadata teamId credsStarter
  else throw (Error ("Unknown manage resource choice requested: " ++ choice)).

(** Returns the Apple credentials and the changed [credsStarter]. *)
Definition _validateCredsEnsureAppExists (credsStarter credsMetadata : obj)
           (justTeamId : bool) : M (obj * obj) :=
  appleCredentials <- askForAppleCreds justTeamId ;;
  log "Validating Credentials..." ;;
  checkCredsAttempt <-
    call (authFuncs_validateCredentialsProduceTeamId appleCredentials)
         (fun h => reply_validateCredentialsProduceTeamId W h appleCredentials) ;;
  _throwIfFailureWithReasonDump checkCredsAttempt ;;
  let credsStarter := set "teamId" (get checkCredsAttempt "teamId") credsStarter in
  credsStarter <-
    _ensureAppExists appleCredentials credsMetadata (get checkCredsAttempt "teamId")
                     credsStarter ;;
  ret (appleCredentials, credsStarter).

Definition runningAsExpoManaged (appleCredentials credsStarter credsMetadata : obj)
  : M obj :=
  answers <- prompt W whatToOverride ;;
  let expoManages := literal (answers ++ [("provisioningProfile", JBool true)])%list in
  emit (EvSpinner (SpinnerText
                     "Running local authentication and producing required credentials")) ;;
  emit (EvSpinner SpinnerStart) ;;
  finally
    (try_catch
       (for_of (keys expoManages)
          (fun credsStarter choice =>
             emit (EvSpinner (SpinnerText ("Now producing files for " ++ choice))) ;;
             if truthy (get expoManages choice) then
               emit (EvSpinner SpinnerStart) ;;
               expoManagedResource credsStarter choice appleCredentials
                                   (get credsStarter "teamId") credsMetadata
             else
               emit (EvSpinner SpinnerStop) ;;
               userProvidedOverride credsStarter choice)
          credsStarter)
       (fun e => throw e))
    (emit (EvSpinner SpinnerStop)).

Definition runLocalAuth (credsMetadata : obj) : M unit :=
  fetched <-
    call (Credentials_credentialsExistForPlatformAsync credsMetadata)
         (fun h => reply_credentialsExistForPlatformAsync W h credsMetadata) ;;
  '(credsStarter, clientHasAllNeededCreds) <-
    match fetched with
    | Some credsStarter =>
        clientHasAllNeededCreds <-
          _areCredsMissing credsStarter (Some (fun _ : bool => false)) true ;;
        ret (credsStarter, clientHasAllNeededCreds)
    | None => ret ([], false)
    end ;;
  if useCi options then
    credsStarter <- runningAsCI credsStarter credsMetadata ;;
    _areCredsMissing credsStarter None tt ;;
    call (Credentials_updateCredentialsForPlatform "ios" credsStarter credsMetadata)
         (fun h => reply_updateCredentialsForPlatform W h "ios" credsStarter credsMetadata) ;;
    log_warn encrypted_message
  else if Bool.eqb clientHasAllNeededCreds false then
    strategy <- prompt W [runAsExpertQuestion] ;;
    '(appleCredentials, credsStarter) <-
      _validateCredsEnsureAppExists credsStarter credsMetadata
        (negb (truthy (get strategy "isExpoManaged"))) ;;
    credsStarter <-
      (if truthy (get strategy "isExpoManaged")
       then runningAsExpoManaged appleCredentials credsStarter credsMetadata
       else runningAsExpert credsStarter) ;;
    let creds := delete "result" credsStarter in
    when_ (DEBUG W) (console_log_value (JObj credsStarter)) ;;
    _areCredsMissing creds None tt ;;
    call (Credentials_updateCredentialsForPlatform "ios" creds credsMetadata)
         (fun h => reply_updateCredentialsForPlatform W h "ios" creds credsMetadata) ;;
    log_warn encrypted_message
  else log "Using existing credentials for this build".

Definition bundleIdentifier_message : string :=
  "Your project must have a bundleIdentifier set in app.json.
See https://docs.expo.io/versions/latest/guides/building-standalone-apps.html".

Definition run : M unit :=
  args <- call (Exp_getPublishInfoAsync projectDir)
               (fun h => reply_getPublishInfoAsync W h projectDir) ;;
  let username := get args "username" in
  let experienceName := get args "remoteFullPackageName" in
  let bundleIdentifier := get args "bundleIdentifierIOS" in
  if negb (truthy bundleIdentifier) then
    throw (XDLError INVALID_OPTIONS bundleIdentifier_message)
  else
    call this_checkStatus (reply_checkStatus W) ;;
    let credentialMetadata :=
      literal [("username", username); ("experienceName", experienceName);
               ("bundleIdentifier", bundleIdentifier); ("platform", JStr "ios")] in
    when_ (clearCredentials options)
      (call (Credentials_removeCredentialsForPlatform "ios" credentialMetadata)
            (fun h => reply_removeCredentialsForPlatform W h "ios" credentialMetadata) ;;
       log_warn "Removed existing credentials") ;;
    when_ (not_simulator options)
      (try_catch
         (when_ (DEBUG W)
            (exist <- call authFuncs_doFastlaneActionsExist
                           (reply_doFastlaneActionsExist W) ;;
             console_log_value exist) ;;
          call authFuncs_prepareLocalAuth (reply_prepareLocalAuth W) ;;
          runLocalAuth credentialMetadata)
         (fun e =>
            log_error "Error while gathering & validating credentials" ;;
            when_ (DEBUG W)
              (stdout <- stdout_of e ;;
               if defined stdout then
                 match stdout with
                 | JStr s => log_error (remove_nul s)
                 | _ => throw (TypeError "e.stdout.replace is not a function")
                 end
               else emit (EvLog LError (JsonOf e))) ;;
            throw e)) ;;
    publishedExpIds <- call (this_ensureReleaseExists "ios")
                            (fun h => reply_ensureReleaseExists W h "ios") ;;
    call (this_build publishedExpIds "ios")
         (fun h => reply_build W h publishedExpIds "ios").
End Builder.
End IOS.

(** ** The per-field iOS builder (IOSBuilder.js, second version) *)

Module Legacy.

(** The [when] of a question whose value an environment variable may
    supply: shown unless [environmentAnswers] holds a value for [key],
    whose entry is deleted when the question is shown. *)
Definition when_not_in_environment (key message : string)
  : obj -> obj -> M (bool * obj) :=
  fun _ environmentAnswers =>
    if truthy (get environmentAnswers key) then
      log message ;;
      ret (false, environmentAnswers)
    else ret (true, delete key environmentAnswers).

Definition manage_choices : list (string * jsval) :=
  [("Let Expo handle the process!", JBool true);
   ("I want to upload my own certificate!", JBool false)].

Section Builder.
Variable W : World.
Variable projectDir : string.
Variable options : Options.

Definition validateCertificatePath (p12Path : jsval) : M bool :=
  try_catch
    (call (fs_stat p12Path)
          (fun h => match p12Path with
                    | JStr p => reply_stat_isFile W h p
                    | _ => inl (TypeError "path must be a string or Buffer")
                    end))
    (fun _ =>
       console_log "
File does not exist." ;;
       ret false).

Definition askForAppleId (credentialMetadata : obj) : M unit :=
  let environmentAnswers :=
    [("appleId", env W "EXP_APPLE_ID");
     ("password", env W "EXP_APPLE_PASSWORD");
     ("teamId", env W "EXP_APPLE_TEAM_ID")] in
  console_log "" ;;
  console_log "We need your Apple ID/password to manage certificates and provisioning profiles from your Apple Developer account." ;;
  let questions :=
    [{| q_type := QInput; q_name := "appleId";
        q_message := "What's your Apple ID?";
        q_when := Some (when_not_in_environment "appleId"
          "EXP_APPLE_ID is set in the environment, not going to ask for value.") |};
     {| q_type := QPassword; q_name := "password";
        q_message := "Password?";
        q_when := Some (when_not_in_environment "password"
          "EXP_APPLE_PASSWORD is set in the environment, not going to ask for value.") |};
     {| q_type := QInput; q_name := "teamId";
        q_message := "What is your Apple Team ID (you can find that on this page: https://developer.apple.com/account/#/membership)?";
        q_when := Some (when_not_in_environment "teamId"
          "EXP_APPLE_TEAM_ID is set in the environment, not going to ask for value.") |}] in
  '(answers, environmentAnswers) <- prompt_with W questions environmentAnswers ;;
  let answers := assign answers environmentAnswers in
  let credentials :=
    literal [("appleId", get answers "appleId");
             ("password", get answers "password");
             ("teamId", get answers "teamId")] in
  log "Validating Apple credentials..." ;;
  call (Credentials_validateCredentialsForPlatform "ios" "appleId" (Some credentials)
                                                   credentialMetadata)
       (fun h => reply_validateCredentialsForPlatform W h "ios" "appleId"
                   (Some credentials) credentialMetadata) ;;
  call (Credentials_updateCredentialsForPlatform "ios" credentials credentialMetadata)
       (fun h => reply_updateCredentialsForPlatform W h "ios" credentials
                   credentialMetadata).

(** The [when] of the path question of both certificate prompts. *)
Definition when_path (invalid_message set_message : string)
  : obj -> obj -> M (bool * obj) :=
  fun answers environmentAnswers =>
    if truthy (get answers "manageCertificates")
       || truthy (get environmentAnswers "manageCertificates") then
      ret (false, delete "pathToP12" environmentAnswers)
    else if truthy (get environmentAnswers "pathToP12") then
      valid <- validateCertificatePath (get environmentAnswers "pathToP12") ;;
      if negb valid then
        log invalid_message ;;
        ret (true, delete "pathToP12" environmentAnswers)
      else
        log set_message ;;
        ret (false, environmentAnswers)
    else ret (true, delete "pathToP12" environmentAnswers).

(** The [when] of the password question of both certificate prompts. *)
Definition when_password (set_message : string) : obj -> obj -> M (bool * obj) :=
  fun answers environmentAnswers =>
    if truthy (get answers "manageCertificates")
       || truthy (get environmentAnswers "manageCertificates") then
      ret (false, delete "certPassword" environmentAnswers)
    else if truthy (get environmentAnswers "certPassword") then
      log set_message ;;
      ret (false, environmentAnswers)
    else ret (true, delete "certPassword" environmentAnswers).

(** The [when] of the strategy question of both certificate prompts: both
    read and delete the key [manageCertificates]. *)
Definition when_manage (set_message : string) : obj -> obj -> M (bool * obj) :=
  fun _ environmentAnswers =>
    if negb (truthy (get environmentAnswers "manageCertificates")) then
      log set_message ;;
      ret (false, environmentAnswers)
    else ret (true, delete "manageCertificates" environmentAnswers).

Definition askForCerts (credentialMetadata : obj) : M unit :=
  let environmentAnswers :=
    [("pathToP12", env W "EXP_DIST_CERTIFICATE_PATH");
     ("certPassword", env W "EXP_DIST_CERTIFICATE_PASSWORD");
     ("manageCertificates", JBool true)] in
  let environmentAnswers :=
    if truthy (get environmentAnswers "pathToP12")
       || truthy (get environmentAnswers "certPassword")
    then set "manageCertificates" (JBool false) environmentAnswers
    else environmentAnswers in
  console_log "" ;;
  let questions :=
    [{| q_type := QRawList manage_choices; q_name := "manageCertificates";
        q_message := "Do you already have a distribution certificate you'd like us to use,
or do you want us to manage your certificates for you?";
        q_when := Some (when_manage
          "EXP_DIST_CERTIFICATE_PATH and/or EXP_DIST_CERTIFICATE_PASSWORD is set in the environment, not going to ask if you want us to manage your certificates.") |};
     {| q_type := QInput; q_name := "pathToP12";
        q_message := "Path to P12 file:";
        q_when := Some (when_path
          "EXP_DIST_CERTIFICATE_PATH is set in the environment to an invalid value."
          "EXP_DIST_CERTIFICATE_PATH is set in the environment, not going to ask for value.") |};
     {| q_type := QPassword; q_name := "certPassword";
        q_message := "Certificate P12 password:";
        q_when := Some (when_password
          "EXP_DIST_CERTIFICATE_PASSWORD is set in the environment, not going to ask for value.") |}] in
  '(answers, environmentAnswers) <- prompt_with W questions environmentAnswers ;;
  let answers := assign answers environmentAnswers in
  (if truthy (get answers "manageCertificates") then
     log "Generating distribution certificate..." ;;
     call (Credentials_fetchAppleCertificates credentialMetadata)
          (fun h => reply_fetchAppleCertificates W h credentialMetadata)
   else
     p12Data <- readFile W (get answers "pathToP12") ;;
     let credentials :=
       literal [("certP12", JStr (base64 p12Data));
                ("certPassword", get answers "certPassword")] in
     log "Validating distribution certificate..." ;;
     call (Credentials_validateCredentialsForPlatform "ios" "cert" (Some credentials)
                                                      credentialMetadata)
          (fun h => reply_validateCredentialsForPlatform W h "ios" "cert"
                      (Some credentials) credentialMetadata) ;;
     call (Credentials_updateCredentialsForPlatform "ios" credentials credentialMetadata)
          (fun h => reply_updateCredentialsForPlatform W h "ios" credentials
                      credentialMetadata)) ;;
  log "Distribution certificate setup complete.".

Definition askForPushCerts (credentialMetadata : obj) : M unit :=
  let environmentAnswers :=
    [("pathToP12", env W "EXP_PUSH_CERTIFICATE_PATH");
     ("certPassword", env W "EXP_PUSH_CERTIFICATE_PASSWORD");
     ("managePushCertificates", JBool true)] in
  let environmentAnswers :=
    if truthy (get environmentAnswers "pathToP12")
       || truthy (get environmentAnswers "certPassword")
    then set "managePushCertificates" (JBool false) environmentAnswers
    else environmentAnswers in
  let questions :=
    [{| q_type := QRawList manage_choices; q_name := "managePushCertificates";
        q_message := "Do you already have a push notification certificate you'd like us to use,
or do you want us to manage your push certificates for you?";
        q_when := Some (when_manage
          "EXP_PUSH_CERTIFICATE_PATH and/or EXP_PUSH_CERTIFICATE_PASSWORD is set in the environment, not going to ask if you want us to manage your certificates.") |};
     {| q_type := QInput; q_name := "pathToP12";
        q_message := "Path to P12 file:";
        q_when := Some (when_path
          "EXP_PUSH_CERTIFICATE_PATH is set in the environment to an invalid value."
          "EXP_PUSH_CERTIFICATE_PATH is set in the environment, not going to ask for value.") |};
     {| q_type := QPassword; q_name := "certPassword";
        q_message := "Push certificate P12 password (empty is OK):";
        q_when := Some (when_password
          "EXP_PUSH_CERTIFICATE_PASSWORD is set in the environment, not going to ask for value.") |}] in
  '(answers, environmentAnswers) <- prompt_with W questions environmentAnswers ;;
  let answers := assign answers environmentAnswers in
  (if truthy (get answers "managePushCertificates") then
     log "Fetching a new push certificate..." ;;
     call (Credentials_fetchPushCertificates credentialMetadata)
          (fun h => reply_fetchPushCertificates W h credentialMetadata)
   else
     p12Data <- readFile W (get answers "pathToP12") ;;
     let credentials :=
       literal [("pushP12", JStr (base64 p12Data));
                ("pushPassword", get answers "certPassword")] in
     log "Validating push certificate..." ;;
     call (Credentials_validateCredentialsForPlatform "ios" "push" (Some credentials)
                                                      credentialMetadata)
          (fun h => reply_validateCredentialsForPlatform W h "ios" "push"
                      (Some credentials) credentialMetadata) ;;
     call (Credentials_updateCredentialsForPlatform "ios" credentials credentialMetadata)
          (fun h => reply_updateCredentialsForPlatform W h "ios" credentials
                      credentialMetadata)) ;;
  log "Push certificate setup complete.".

Definition validate_existing (kind : string) (credentialMetadata : obj) : M unit :=
  call (Credentials_validateCredentialsForPlatform "ios" kind None credentialMetadata)
       (fun h => reply_validateCredentialsForPlatform W h "ios" kind None
                   credentialMetadata).

Definition collectAndValidateCredentials (username experienceName bundleIdentifier : jsval)
  : M unit :=
  let credentialMetadata :=
    literal [("username", username); ("experienceName", experienceName);
             ("bundleIdentifier", bundleIdentifier); ("platform", JStr "ios")] in
  log "Checking for existing Apple credentials..." ;;
  existingCredentials <-
    call (Credentials_credentialsExistForPlatformAsync credentialMetadata)
         (fun h => reply_credentialsExistForPlatformAsync W h credentialMetadata) ;;
  let '(hasAppleId, hasCert, hasPushCert) :=
    match existingCredentials with
    | Some existing =>
        if clearCredentials options then (false, false, false)
        else (truthy (get existing "appleId"),
              truthy (get existing "certP12"),
              truthy (get existing "pushP12"))
    | None => (false, false, false)
    end in
  (if negb hasAppleId then askForAppleId credentialMetadata
   else
     log "Validating Apple credentials..." ;;
     validate_existing "appleId" credentialMetadata) ;;
  log "Credentials valid." ;;
  (if negb hasCert then askForCerts credentialMetadata
   else
     log "Validating distribution certificate..." ;;
     validate_existing "cert" credentialMetadata) ;;
  try_catch
    (log "Validating app id..." ;;
     call (Credentials_ensureAppId credentialMetadata)
          (fun h => reply_ensureAppId W h credentialMetadata))
    (fun _ =>
       throw (XDLError CREDENTIAL_ERROR
                ("It seems like we can't create an app on the Apple developer center with this app id: "
                   ++ ToString bundleIdentifier
                   ++ ". Please change your bundle identifier to something else."))) ;;
  (if negb hasPushCert then askForPushCerts credentialMetadata
   else
     log "Validating push certificate..." ;;
     validate_existing "push" credentialMetadata).

Definition bundleIdentifier_message : string :=
  "Your project must have a bundleIdentifier set in app.json. See https://docs.expo.io/versions/latest/guides/building-standalone-apps.html".

Definition run : M unit :=
  args <- call (Exp_getPublishInfoAsync projectDir)
               (fun h => reply_getPublishInfoAsync W h projectDir) ;;
  let username := get args "username" in
  let experienceName := get args "remoteFullPackageName" in
  let bundleIdentifier := get args "bundleIdentifierIOS" in
  if negb (truthy bundleIdentifier) then
    throw (XDLError INVALID_OPTIONS bundleIdentifier_message)
  else
    call this_checkStatus (reply_checkStatus W) ;;
    when_ (not_simulator options)
      (try_catch
         (collectAndValidateCredentials username experienceName bundleIdentifier)
         (fun e =>
            log_error "Error validating credentials. You may need to clear them (with `-c`) and try again." ;;
            throw e)) ;;
    publishedExpIds <- call this_publish (reply_publish W) ;;
    call (this_build publishedExpIds "ios")
         (fun h => reply_build W h publishedExpIds "ios").
End Builder.
End Legacy.

(** ** The Android builder *)

Module Android.

(** The [when] of the four keystore questions. *)
Definition when_keystore (key set_message : string) : obj -> obj -> M (bool * obj) :=
  fun answers environmentAnswers =>
    if negb (truthy (get answers "uploadKeystore"))
       && negb (truthy (get environmentAnswers "uploadKeystore")) then
      ret (false, delete key environmentAnswers)
    else if truthy (get environmentAnswers key) then
      log set_message ;;
      ret (false, environmentAnswers)
    else ret (true, delete key environmentAnswers).

Definition when_upload : obj -> obj -> M (bool * obj) :=
  fun _ environmentAnswers =>
    if truthy (get environmentAnswers "uploadKeystore") then
      log "EXP_ANDROID_KEYSTORE_PATH and/or EXP_ANDROID_KEYSTORE_ALIAS and/or EXP_ANDROID_STORE_PASSWORD and/or EXP_ANDROID_KEY_PASSWORD is set in the environment, not going to ask if you want us to manage your certificates." ;;
      ret (false, environmentAnswers)
    else ret (true, delete "uploadKeystore" environmentAnswers).

Definition questions : list (Question obj) :=
  [{| q_type := QRawList [("Let Expo handle the process!", JBool false);
                          ("I want to upload my own keystore!", JBool true)];
      q_name := "uploadKeystore";
      q_message := "Would you like to upload a keystore or have us generate one for you?
If you don't know what this means, let us handle it! :)
";
      q_when := Some when_upload |};
   {| q_type := QInput; q_name := "keystorePath";
      q_message := "Path to keystore:";
      q_when := Some (when_keystore "keystorePath"
        "EXP_ANDROID_KEYSTORE_PATH is set in the environment, not going to ask for value.") |};
   {| q_type := QInput; q_name := "keystoreAlias";
      q_message := "Keystore Alias:";
      q_when := Some (when_keystore "keystoreAlias"
        "EXP_ANDROID_KEYSTORE_ALIAS is set in the environment, not going to ask for value.") |};
   {| q_type := QPassword; q_name := "keystorePassword";
      q_message := "Keystore Password:";
      q_when := Some (when_keystore "keystorePassword"
        "EXP_ANDROID_STORE_PASSWORD is set in the environment, not going to ask for value.") |};
   {| q_type := QPassword; q_name := "keyPassword";
      q_message := "Key Password:";
      q_when := Some (when_keystore "keyPassword"
        "EXP_ANDROID_KEY_PASSWORD is set in the environment, not going to ask for value.") |}].

Definition confirm_question : Question unit :=
  question QConfirm "confirm"
    "Permanently delete the Android build credentials from our servers?".

Section Builder.
Variable W : World.
Variable projectDir : string.
Variable options : Options.

Definition _clearCredentials : M unit :=
  args <- call (Exp_getPublishInfoAsync projectDir)
               (fun h => reply_getPublishInfoAsync W h projectDir) ;;
  let username := get args "username" in
  let remotePackageName := get args "remotePackageName" in
  let experienceName := get args "remoteFullPackageName" in
  let credentialMetadata :=
    literal [("username", username); ("experienceName", experienceName);
             ("platform", JStr "android")] in
  let localKeystorePath := path_resolve W (ToString remotePackageName ++ ".jks") in
  localKeystoreExists <-
    call (fs_existsSync localKeystorePath)
         (fun h => inr (reply_existsSync W h localKeystorePath)) ;;
  (if (localKeystoreExists : bool) then
     log_warn "Detected a local copy of an Android keystore. Please double check that the keystore is up to date so it can be used as a backup."
   else
     log_warn "Cannot find a local keystore in the current project directory." ;;
     log_warn "Can you make sure you have a local backup of your keystore?" ;;
     log_warn "You can fetch an updated version from our servers by using `exp fetch:android:keystore [project-dir]`") ;;
  (* chalk.red only colours the text *)
  log_warn "Clearing your Android build credentials from our build servers is a PERMANENT and IRREVERSIBLE action." ;;
  log_warn "Android keystores must be identical to the one previously used to submit your app to the Google Play Store." ;;
  log_warn "Please read https://docs.expo.io/versions/latest/guides/building-standalone-apps.html#if-you-choose-to-build-for-android for more info before proceeding." ;;
  answers <- prompt W [confirm_question] ;;
  if truthy (get answers "confirm") then
    call (Credentials_removeCredentialsForPlatform "android" credentialMetadata)
         (fun h => reply_removeCredentialsForPlatform W h "android" credentialMetadata)
  else ret tt.

Definition collectAndValidateCredentials : M unit :=
  args <- call (Exp_getPublishInfoAsync projectDir)
               (fun h => reply_getPublishInfoAsync W h projectDir) ;;
  let username := get args "username" in
  let experienceName := get args "remoteFullPackageName" in
  let credentialMetadata :=
    literal [("username", username); ("experienceName", experienceName);
             ("platform", JStr "android")] in
  credentials <-
    call (Credentials_credentialsExistForPlatformAsync credentialMetadata)
         (fun h => reply_credentialsExistForPlatformAsync W h credentialMetadata) ;;
  if clearCredentials options
     || match credentials with Some _ => false | None => true end
  then
    let environmentAnswers :=
      [("keystorePath", env W "EXP_ANDROID_KEYSTORE_PATH");
       ("keystoreAlias", env W "EXP_ANDROID_KEYSTORE_ALIAS");
       ("keystorePassword", env W "EXP_ANDROID_STORE_PASSWORD");
       ("keyPassword", env W "EXP_ANDROID_KEY_PASSWORD");
       ("uploadKeystore", JBool false)] in
    let environmentAnswers :=
      if truthy (get environmentAnswers "keystorePath")
         || truthy (get environmentAnswers "keystoreAlias")
         || truthy (get environmentAnswers "keystorePassword")
         || truthy (get environmentAnswers "keyPassword")
      then set "uploadKeystore" (JBool true) environmentAnswers
      else environmentAnswers in
    console_log "" ;;
    '(answers, environmentAnswers) <- prompt_with W questions environmentAnswers ;;
    let answers := assign answers environmentAnswers in
    if negb (truthy (get answers "uploadKeystore")) then
      when_ (clearCredentials options) _clearCredentials
    else
      let keystorePath := get answers "keystorePath" in
      let keystoreAlias := get answers "keystoreAlias" in
      let keystorePassword := get answers "keystorePassword" in
      let keyPassword := get answers "keyPassword" in
      keystoreData <- readFile W keystorePath ;;
      let credentials :=
        literal [("keystore", JStr (base64 keystoreData));
                 ("keystoreAlias", keystoreAlias);
                 ("keystorePassword", keystorePassword);
                 ("keyPassword", keyPassword)] in
      call (Credentials_updateCredentialsForPlatform "android" credentials
                                                     credentialMetadata)
           (fun h => reply_updateCredentialsForPlatform W h "android" credentials
                       credentialMetadata)
  else ret tt.

Definition run : M unit :=
  call this_checkStatus (reply_checkStatus W) ;;
  collectAndValidateCredentials ;;
  publishedExpIds <- call this_publish (reply_publish W) ;;
  call (this_build publishedExpIds "android")
       (fun h => reply_build W h publishedExpIds "android").
End Builder.
End Android.

(** * Specification vocabulary *)

(** Every event a computation adds satisfies [P], whatever happened before. *)
Definition quiet {A} (P : Event -> Prop) (m : M A) : Prop :=
  forall h, Forall P (snd (m h)).


(** ** Kinds of events *)

(** A question put to the operator. *)
Definition is_prompt (e : Event) : bool :=
  match e with EvAsk _ _ => true | _ => false end.

(** A call that has the service produce a credential or a missing resource. *)
Definition is_managed_generation (e : Event) : bool :=
  match e with
  | EvCall (authFuncs_produceCerts _ _)
  | EvCall (authFuncs_producePushCerts _ _ _)
  | EvCall (authFuncs_produceProvisionProfile _ _ _)
  | EvCall (authFuncs_createAppOnPortal _ _ _)
  | EvCall (Credentials_fetchAppleCertificates _)
  | EvCall (Credentials_fetchPushCertificates _) => true
  | _ => false
  end.

(** The remote upsert. *)
Definition is_upsert (e : Event) : bool :=
  match e with
  | EvCall (Credentials_updateCredentialsForPlatform _ _ _) => true
  | _ => false
  end.

(** The remote deletion. *)
Definition is_removal (e : Event) : bool :=
  match e with
  | EvCall (Credentials_removeCredentialsForPlatform _ _) => true
  | _ => false
  end.

(** A change of the remote credential store. *)
Definition is_mutation (e : Event) : bool := is_upsert e || is_removal e.

(** A call that goes to the network: everything but the read of the
    project's own metadata and of the local file system. *)
Definition is_network_call (e : Event) : bool :=
  match e with
  | EvCall (Exp_getPublishInfoAsync _)
  | EvCall (fs_readFile _)
  | EvCall (fs_stat _)
  | EvCall (fs_existsSync _) => false
  | EvCall _ => true
  | _ => false
  end.

(** The calls of a trace, in order. *)
Fixpoint calls (es : list Event) : list Call :=
  match es with
  | [] => []
  | EvCall c :: es' => c :: calls es'
  | _ :: es' => calls es'
  end.


(** [m] run [n] times in a row, as long as it returns normally. *)
Fixpoint times (n : nat) (m : M unit) : M unit :=
  match n with
  | O => ret tt
  | S n' => m ;; times n' m
  end.

(** ** The remote store

    Whatever the store is and whatever deletion and upsert do to it, only
    these two calls change it. *)
Section Store.
Variable Store : Type.
Variable on_remove : string -> obj -> Store -> Store.
Variable on_update : string -> obj -> obj -> Store -> Store.

Definition store_step (s : Store) (e : Event) : Store :=
  match e with
  | EvCall (Credentials_removeCredentialsForPlatform platform metadata) =>
      on_remove platform metadata s
  | EvCall (Credentials_updateCredentialsForPlatform platform credentials metadata) =>
      on_update platform credentials metadata s
  | _ => s
  end.

Definition store_after (s : Store) (es : list Event) : Store :=
  fold_left store_step es s.
End Store.



(** The calls [IOS.run] makes itself, outside [runLocalAuth]. *)
Definition run_call (c : Call) : bool :=
  match c with
  | Exp_getPublishInfoAsync _
  | this_checkStatus
  | Credentials_removeCredentialsForPlatform _ _
  | authFuncs_doFastlaneActionsExist
  | authFuncs_prepareLocalAuth
  | this_ensureReleaseExists _
  | this_build _ _ => true
  | _ => false
  end.

(** Anything that resolves, validates or changes credentials: a question to
    the operator, a call of the credential service or of [./auth], a read of
    the file system. *)
Definition is_credential_event (e : Event) : bool :=
  match e with
  | EvAsk _ _ => true
  | EvCall c =>
      match c with
      | Exp_getPublishInfoAsync _
      | this_checkStatus
      | this_ensureReleaseExists _
      | this_publish
      | this_build _ _ => false
      | _ => true
      end
  | _ => false
  end.

(** The strategy question of the push-certificate prompt. *)
Definition is_push_strategy_question (e : Event) : bool :=
  match e with
  | EvAsk name _ => String.eqb name "managePushCertificates"
  | _ => false
  end.

(** The events of a trace that are questions. *)
Definition questions_shown (es : list Event) : list Event := filter is_prompt es.

(** Whenever the computation returns normally, its result satisfies [Q]. *)
Definition post {A} (m : M A) (Q : A -> Prop) : Prop :=
  forall h a, fst (m h) = inr a -> Q a.

(** The warning [_areCredsMissing] logs for [creds], if any. *)
Definition missing_warning (creds : obj) : list Event :=
  if negb (Nat.eqb (length (IOS.credsMissing creds)) 0)
  then [EvLog LWarn (Text ("We do not have some credentials for you, "
                             ++ join "," (IOS.credsMissing creds)))]
  else [].

(** The upsert of the batch iOS builder. *)
Definition ios_upsert (creds metadata : obj) : Event :=
  EvCall (Credentials_updateCredentialsForPlatform "ios" creds metadata).


(** The outcome of a credential step: no upsert at all, or resolution
    events without upsert, then the warning about missing keys, then the one
    upsert of a bundle satisfying [Q], which either is rejected and ends the
    step or is followed by the closing log line. *)
Definition commit_shape (Q : obj -> Prop) (metadata : obj)
           (out : (Exn + unit) * list Event) : Prop :=
  Forall (fun e => is_upsert e = false) (snd out)
  \/ exists resolution creds,
      Forall (fun e => is_upsert e = false) resolution
      /\ Q creds
      /\ ((snd out = (resolution ++ missing_warning creds ++ [ios_upsert creds metadata])%list
           /\ exists e, fst out = inl e)
          \/ (snd out = (resolution ++ missing_warning creds
                           ++ [ios_upsert creds metadata;
                               EvLog LWarn (Text IOS.encrypted_message)])%list
              /\ fst out = inr tt)).

(** Scanning a trace for its first upsert. *)
Fixpoint before_upsert (es : list Event) : list Event :=
  match es with
  | [] => []
  | e :: es' => if is_upsert e then [] else e :: before_upsert es'
  end.

Fixpoint after_upsert (es : list Event) : list Event :=
  match es with
  | [] => []
  | e :: es' => if is_upsert e then es' else after_upsert es'
  end.

(** The same world with another environment. *)
Definition with_env (W : World) (environment : string -> option string) : World :=
  {| process_env := environment;
     reply_getPublishInfoAsync := reply_getPublishInfoAsync W;
     reply_credentialsExistForPlatformAsync := reply_credentialsExistForPlatformAsync W;
     reply_removeCredentialsForPlatform := reply_removeCredentialsForPlatform W;
     reply_updateCredentialsForPlatform := reply_updateCredentialsForPlatform W;
     reply_validateCredentialsForPlatform := reply_validateCredentialsForPlatform W;
     reply_ensureAppId := reply_ensureAppId W;
     reply_fetchAppleCertificates := reply_fetchAppleCertificates W;
     reply_fetchPushCertificates := reply_fetchPushCertificates W;
     reply_checkStatus := reply_checkStatus W;
     reply_ensureReleaseExists := reply_ensureReleaseExists W;
     reply_publish := reply_publish W;
     reply_build := reply_build W;
     DEBUG := DEBUG W;
     NO_BUNDLE_ID := NO_BUNDLE_ID W;
     MULTIPLE_PROFILES := MULTIPLE_PROFILES W;
     reply_doFastlaneActionsExist := reply_doFastlaneActionsExist W;
     reply_prepareLocalAuth := reply_prepareLocalAuth W;
     reply_validateCredentialsProduceTeamId := reply_validateCredentialsProduceTeamId W;
     reply_ensureAppIdLocally := reply_ensureAppIdLocally W;
     reply_createAppOnPortal := reply_createAppOnPortal W;
     reply_produceProvisionProfile := reply_produceProvisionProfile W;
     reply_produceCerts := reply_produceCerts W;
     reply_producePushCerts := reply_producePushCerts W;
     reply_readFile := reply_readFile W;
     reply_stat_isFile := reply_stat_isFile W;
     reply_existsSync := reply_existsSync W;
     path_resolve := path_resolve W;
     answer_input := answer_input W;
     answer_choice := answer_choice W;
     answer_confirm := answer_confirm W |}.

(** The metadata the Android builder sends with every credential call. *)
Definition android_metadata (args : obj) : obj :=
  literal [("username", get args "username");
           ("experienceName", get args "remoteFullPackageName");
           ("platform", JStr "android")].

(** A step that resolves a credential: a question, a generation, an upsert
    or a read of the file system.  Fetching and validating what is stored is
    not one. *)
Definition is_resolution (e : Event) : bool :=
  is_prompt e || is_managed_generation e || is_upsert e
  || match e with
     | EvCall (fs_readFile _) | EvCall (fs_stat _) => true
     | _ => false
     end.

(** Stored credentials that hold the three slots of the per-field flow. *)
Definition holds_all_slots (existing : obj) : Prop :=
  truthy (get existing "appleId") = true
  /\ truthy (get existing "certP12") = true
  /\ truthy (get existing "pushP12") = true.

(** [v] is the base64 text of what a read of the file named by the
    environment variable [var] returned. *)
Definition from_file (W : World) (var : string) (v : jsval) : Prop :=
  exists h path data,
    env W var = JStr path /\ reply_readFile W h path = inr data /\ v = JStr (base64 data).

(** A bundle whose six keys come from the CI environment. *)
Definition from_ci_environment (W : World) (creds : obj) : Prop :=
  get creds "teamId" = env W "EXP_APPLE_TEAM_ID"
  /\ get creds "certPassword" = env W "EXP_DIST_CERTIFICATE_PASSWORD"
  /\ get creds "pushPassword" = env W "EXP_PUSH_CERTIFICATE_PASSWORD"
  /\ from_file W "EXP_DIST_CERTIFICATE_PATH" (get creds "certP12")
  /\ from_file W "EXP_PUSH_CERTIFICATE_PATH" (get creds "pushP12")
  /\ from_file W "EXP_PROVIONING_PROFILE_PATH" (get creds "provisioningProfile").

(** The calls that check the Apple account and the app. *)
Definition identity_call (c : Call) : bool :=
  match c with
  | authFuncs_validateCredentialsProduceTeamId _
  | authFuncs_ensureAppIdLocally _ _ _
  | authFuncs_createAppOnPortal _ _ _ => true
  | _ => false
  end.

(** The calls that produce or read one credential. *)
Definition resource_call (c : Call) : bool :=
  match c with
  | authFuncs_produceCerts _ _
  | authFuncs_producePushCerts _ _ _
  | authFuncs_produceProvisionProfile _ _ _
  | fs_readFile _ => true
  | _ => false
  end.




(** The generation of the provisioning profile. *)
Definition is_profile_generation (e : Event) : bool :=
  match e with
  | EvCall (authFuncs_produceProvisionProfile _ _ _) => true
  | _ => false
  end.


(** * Example worlds

    Worlds whose collaborators always succeed: the environment, the project
    metadata, the stored credentials, the replies of [./auth] and the
    operator's choices are given; every file holds [file_content]. *)

Definition file_content : string := "Man".

Definition example_world
           (environment : list (string * string))
           (args : obj)
           (stored : option obj)
           (auth_reply : string -> obj)
           (choice : string -> nat)
           (confirm : bool) : World :=
  {| process_env := fun name =>
       match find (fun kv => String.eqb (fst kv) name) environment with
       | Some kv => Some (snd kv)
       | None => None
       end;
     reply_getPublishInfoAsync := fun _ _ => inr args;
     reply_credentialsExistForPlatformAsync := fun _ _ => inr stored;
     reply_removeCredentialsForPlatform := fun _ _ _ => inr tt;
     reply_updateCredentialsForPlatform := fun _ _ _ _ => inr tt;
     reply_validateCredentialsForPlatform := fun _ _ _ _ _ => inr tt;
     reply_ensureAppId := fun _ _ => inr tt;
     reply_fetchAppleCertificates := fun _ _ => inr tt;
     reply_fetchPushCertificates := fun _ _ => inr tt;
     reply_checkStatus := fun _ => inr tt;
     reply_ensureReleaseExists := fun _ _ => inr (JArr [JStr "exp-id"]);
     reply_publish := fun _ => inr (JArr [JStr "exp-id"]);
     reply_build := fun _ _ _ => inr tt;
     DEBUG := false;
     NO_BUNDLE_ID := "App could not be found for bundle id";
     MULTIPLE_PROFILES := "Multiple profiles found with the name";
     reply_doFastlaneActionsExist := fun _ => inr (JArr []);
     reply_prepareLocalAuth := fun _ => inr tt;
     reply_validateCredentialsProduceTeamId := fun _ _ => inr (auth_reply "validateCredentialsProduceTeamId");
     reply_ensureAppIdLocally := fun _ _ _ _ => inr (auth_reply "ensureAppIdLocally");
     reply_createAppOnPortal := fun _ _ _ _ => inr (auth_reply "createAppOnPortal");
     reply_produceProvisionProfile := fun _ _ _ _ => inr (auth_reply "produceProvisionProfile");
     reply_produceCerts := fun _ _ _ => inr (auth_reply "produceCerts");
     reply_producePushCerts := fun _ _ _ _ => inr (auth_reply "producePushCerts");
     reply_readFile := fun _ _ => inr file_content;
     reply_stat_isFile := fun _ _ => inr true;
     reply_existsSync := fun _ _ => false;
     path_resolve := fun p => "/project/" ++ p;
     answer_input := fun _ name => "typed " ++ name;
     answer_choice := fun _ name => choice name;
     answer_confirm := fun _ _ => confirm |}.

Definition example_args : obj :=
  [("username", JStr "alice");
   ("remotePackageName", JStr "app");
   ("remoteFullPackageName", JStr "@alice/app");
   ("bundleIdentifierIOS", JStr "com.alice.app")].

(** Project metadata without a bundle identifier. *)
Definition args_without_bundleIdentifier : obj :=
  [("username", JStr "alice");
   ("remotePackageName", JStr "app");
   ("remoteFullPackageName", JStr "@alice/app")].

Definition success_reply : string -> obj := fun _ => [("result", JStr "success")].

Definition default_options : Options :=
  {| clearCredentials := false; useCi := false; type := None |}.

Definition ci_options : Options :=
  {| clearCredentials := false; useCi := true; type := None |}.

(** The operator declines the confirmation. *)
Definition declining_world : World :=
  example_world [] example_args None success_reply (fun _ => 0) false.

(** The operator confirms. *)
Definition confirming_world : World :=
  example_world [] example_args None success_reply (fun _ => 0) true.

Definition world_without_bundleIdentifier : World :=
  example_world [] args_without_bundleIdentifier None success_reply (fun _ => 0) false.

(** A service whose every reply is the failure [reason]. *)
Definition failure_reply (reason : string) : string -> obj :=
  fun _ => [("result", JStr "failure"); ("reason", JStr reason);
            ("rawDump", JObj [("code", JNum 1)])].




Definition ios_metadata : obj :=
  [("username", JStr "alice"); ("experienceName", JStr "@alice/app");
   ("bundleIdentifier", JStr "com.alice.app"); ("platform", JStr "ios")].

(** CI environments. *)
Definition ci_environment : list (string * string) :=
  [("EXP_APPLE_TEAM_ID", "TEAM");
   ("EXP_DIST_CERTIFICATE_PATH", "dist.p12");
   ("EXP_DIST_CERTIFICATE_PASSWORD", "dist-pw");
   ("EXP_PUSH_CERTIFICATE_PATH", "push.p12");
   ("EXP_PUSH_CERTIFICATE_PASSWORD", "push-pw");
   ("EXP_PROVIONING_PROFILE_PATH", "app.mobileprovision")].

(** The same without EXP_APPLE_TEAM_ID. *)
Definition ci_environment_without_team : list (string * string) :=
  [("EXP_DIST_CERTIFICATE_PATH", "dist.p12");
   ("EXP_DIST_CERTIFICATE_PASSWORD", "dist-pw");
   ("EXP_PUSH_CERTIFICATE_PATH", "push.p12");
   ("EXP_PUSH_CERTIFICATE_PASSWORD", "push-pw");
   ("EXP_PROVIONING_PROFILE_PATH", "app.mobileprovision")].


Definition stored_ios_credentials : obj :=
  [("certP12", JStr "b2xkLWNlcnQ=");
   ("certPassword", JStr "old-dist-pw");
   ("pushP12", JStr "b2xkLXB1c2g=");
   ("pushPassword", JStr "old-push-pw");
   ("provisioningProfile", JStr "b2xkLXByb2ZpbGU=");
   ("teamId", JStr "OLDTEAM")].

Definition ci_world : World :=
  example_world ci_environment example_args (Some stored_ios_credentials)
                success_reply (fun _ => 0) false.

Definition ci_world_without_team : World :=
  example_world ci_environment_without_team example_args None
                success_reply (fun _ => 0) false.


Definition simulator_clear_options : Options :=
  {| clearCredentials := true; useCi := false; type := Some "simulator" |}.

Definition simulator_options : Options :=
  {| clearCredentials := false; useCi := false; type := Some "simulator" |}.

(** Stored credentials, nothing in the environment. *)
Definition stored_world : World :=
  example_world [] example_args (Some stored_ios_credentials) success_reply (fun _ => 0) false.

(** A service that validates the Apple credentials and reports success for
    every generation, without any payload. *)
Definition bare_success_reply : string -> obj :=
  fun name =>
    if String.eqb name "validateCredentialsProduceTeamId"
    then [("result", JStr "success"); ("teamId", JStr "TEAM")]
    else [("result", JStr "success")].


(** No stored credentials; the operator provides every file. *)
Definition expert_world : World :=
  example_world [] example_args None bare_success_reply (fun _ => 1) false.

Definition android_environment : list (string * string) :=
  [("EXP_ANDROID_KEYSTORE_PATH", "release.jks");
   ("EXP_ANDROID_KEYSTORE_ALIAS", "alias");
   ("EXP_ANDROID_STORE_PASSWORD", "store-pw");
   ("EXP_ANDROID_KEY_PASSWORD", "key-pw")].

Definition stored_android_credentials : obj :=
  [("keystore", JStr "b2xkLWtleXN0b3Jl");
   ("keystoreAlias", JStr "old-alias");
   ("keystorePassword", JStr "old-store-pw");
   ("keyPassword", JStr "old-key-pw")].

(** The four Android variables are set and a keystore is stored. *)
Definition android_stored_world : World :=
  example_world android_environment example_args (Some stored_android_credentials)
                success_reply (fun _ => 0) false.

(** The four Android variables are set and nothing is stored. *)
Definition android_fresh_world : World :=
  example_world android_environment example_args None success_reply (fun _ => 0) false.

(** The six CI variables are set, nothing is stored, CI mode is off. *)
Definition interactive_world_with_environment : World :=
  example_world ci_environment example_args None bare_success_reply (fun _ => 0) false.

(** Every step succeeds but the generation of the provisioning profile. *)
Definition multiple_profiles_run_world : World :=
  example_world [] example_args None
    (fun name =>
       if String.eqb name "produceProvisionProfile"
       then failure_reply "Multiple profiles found with the name 'com.alice.app AppStore'" name
       else bare_success_reply name)
    (fun _ => 0) false.

(** Every variable of the per-field iOS flow is set. *)
Definition legacy_environment : list (string * string) :=
  [("EXP_APPLE_ID", "alice@example.com");
   ("EXP_APPLE_PASSWORD", "apple-pw");
   ("EXP_APPLE_TEAM_ID", "TEAM");
   ("EXP_DIST_CERTIFICATE_PATH", "dist.p12");
   ("EXP_DIST_CERTIFICATE_PASSWORD", "dist-pw");
   ("EXP_PUSH_CERTIFICATE_PATH", "push.p12");
   ("EXP_PUSH_CERTIFICATE_PASSWORD", "push-pw")].

Definition legacy_fresh_world : World :=
  example_world legacy_environment example_args None success_reply (fun _ => 0) false.

Definition legacy_stored_credentials : obj :=
  [("appleId", JStr "old@example.com");
   ("certP12", JStr "b2xkLWNlcnQ=");
   ("pushP12", JStr "b2xkLXB1c2g=")].

Definition legacy_stored_world : World :=
  example_world legacy_environment example_args (Some legacy_stored_credentials)
                success_reply (fun _ => 0) false.

(** * Further vocabulary *)

(** The name of a question that was shown. *)
Definition asked (name : string) (e : Event) : bool :=
  match e with
  | EvAsk n _ => String.eqb n name
  | _ => false
  end.

(** The names of the questions of a trace, in order. *)
Fixpoint question_names (es : list Event) : list string :=
  match es with
  | [] => []
  | EvAsk n _ :: es' => n :: question_names es'
  | _ :: es' => question_names es'
  end.

(** A property of the events a computation adds, which may mention the
    history they are added to. *)
Definition always {A} (T : Hist -> list Event -> Prop) (m : M A) : Prop :=
  forall h, T h (snd (m h)).

(** The start of a build. *)
Definition is_build (e : Event) : bool :=
  match e with
  | EvCall (this_build _ _) => true
  | _ => false
  end.

(** [m] starts a build only as its last step, for [platform], right after
    the call [release] has returned the ids the build is started with; the
    outcome of [m] is then the outcome of the build. *)
Definition builds_last (W : World) (release : Call) (released : Hist -> Exn + jsval)
           (platform : string) (m : M unit) : Prop :=
  forall h pre ids p post,
    snd (m h) = (pre ++ EvCall (this_build ids p) :: post)%list ->
    post = [] /\ p = platform
    /\ fst (m h) = reply_build W (h ++ pre)%list ids platform
    /\ exists pre',
        pre = (pre' ++ [EvCall release])%list /\ released (h ++ pre')%list = inr ids.

(** The calls the credential step of each builder can make. *)
Definition local_auth_call (c : Call) : bool :=
  match c with
  | Credentials_credentialsExistForPlatformAsync _
  | Credentials_updateCredentialsForPlatform _ _ _ => true
  | _ => identity_call c || resource_call c
  end.

Definition legacy_credential_call (c : Call) : bool :=
  match c with
  | Credentials_credentialsExistForPlatformAsync _
  | Credentials_validateCredentialsForPlatform _ _ _ _
  | Credentials_updateCredentialsForPlatform _ _ _
  | Credentials_ensureAppId _
  | Credentials_fetchAppleCertificates _
  | Credentials_fetchPushCertificates _
  | fs_stat _
  | fs_readFile _ => true
  | _ => false
  end.

Definition android_credential_call (c : Call) : bool :=
  match c with
  | Exp_getPublishInfoAsync _
  | Credentials_credentialsExistForPlatformAsync _
  | Credentials_updateCredentialsForPlatform _ _ _
  | Credentials_removeCredentialsForPlatform _ _
  | fs_existsSync _
  | fs_stat _          (* the check of a typed keystore path *)
  | fs_readFile _ => true
  | _ => false
  end.

(** The calls a whole run makes besides its credential step. *)
Definition ios_run_call (c : Call) : bool := run_call c || local_auth_call c.

Definition legacy_run_call (c : Call) : bool :=
  match c with
  | Exp_getPublishInfoAsync _
  | this_checkStatus
  | this_publish
  | this_build _ _ => true
  | _ => legacy_credential_call c
  end.

Definition android_run_call (c : Call) : bool :=
  match c with
  | this_checkStatus
  | this_publish
  | this_build _ _ => true
  | _ => android_credential_call c
  end.

(** The metadata argument of a call, and its platform argument. *)
Definition call_metadata (c : Call) : option obj :=
  match c with
  | Credentials_credentialsExistForPlatformAsync m
  | Credentials_removeCredentialsForPlatform _ m
  | Credentials_updateCredentialsForPlatform _ _ m
  | Credentials_validateCredentialsForPlatform _ _ _ m
  | Credentials_ensureAppId m
  | Credentials_fetchAppleCertificates m
  | Credentials_fetchPushCertificates m
  | authFuncs_ensureAppIdLocally _ m _
  | authFuncs_createAppOnPortal _ m _
  | authFuncs_produceProvisionProfile _ m _
  | authFuncs_producePushCerts _ m _ => Some m
  | _ => None
  end.

Definition call_platform (c : Call) : option string :=
  match c with
  | Credentials_removeCredentialsForPlatform p _
  | Credentials_updateCredentialsForPlatform p _ _
  | Credentials_validateCredentialsForPlatform p _ _ _
  | this_ensureReleaseExists p
  | this_build _ p => Some p
  | _ => None
  end.

(** An event that is no call, or a call among [allowed] whose platform
    argument, if it has one, is [platform]. *)
Definition allowed_call (allowed : Call -> bool) (platform : string) (e : Event) : Prop :=
  match e with
  | EvCall c => allowed c = true /\ forall p, call_platform c = Some p -> p = platform
  | _ => True
  end.

(** An event that is no call, or a call whose metadata argument, if it has
    one, is [metadata]. *)
Definition about (metadata : obj) (e : Event) : Prop :=
  match e with
  | EvCall c => forall m, call_metadata c = Some m -> m = metadata
  | _ => True
  end.

Definition footprint (allowed : Call -> bool) (platform : string) (metadata : obj)
           (e : Event) : Prop :=
  allowed_call allowed platform e /\ about metadata e.

(** The metadata the iOS builders send with every credential call. *)
Definition ios_project_metadata (args : obj) : obj :=
  literal [("username", get args "username");
           ("experienceName", get args "remoteFullPackageName");
           ("bundleIdentifier", get args "bundleIdentifierIOS");
           ("platform", JStr "ios")].

(** The variable that can supply an answer of the Apple ID prompt. *)
Definition apple_variable (name : string) : string :=
  if String.eqb name "appleId" then "EXP_APPLE_ID"
  else if String.eqb name "password" then "EXP_APPLE_PASSWORD"
  else "EXP_APPLE_TEAM_ID".

(** ** Prompts

    A question of a prompt takes the invariant [I] to [I']: its [when]
    returns, what it adds satisfies [P], and so does the question when it is
    shown. *)
Definition question_step {S} (I I' : obj -> S -> Prop) (P : Event -> Prop) (q : Question S)
  : Prop :=
  forall answers s, I answers s ->
    match q_when q with
    | None => forall v, P (EvAsk (q_name q) v) /\ I' (set (q_name q) v answers) s
    | Some w =>
        forall h, Forall P (snd (w answers s h))
                  /\ exists shown s',
                      fst (w answers s h) = inr (shown, s')
                      /\ if (shown : bool)
                         then forall v, P (EvAsk (q_name q) v)
                                        /\ I' (set (q_name q) v answers) s'
                         else I' answers s'
    end.

(** What a prompt guarantees from [I]: it returns, its events satisfy [P]
    and its result [Q]. *)
Definition prompt_gives {S} W (I : obj -> S -> Prop) (P : Event -> Prop)
           (Q : obj -> S -> Prop) (qs : list (Question S)) : Prop :=
  forall answers s h, I answers s ->
    Forall P (snd (prompt_from W qs answers s h))
    /\ exists answers' s',
        fst (prompt_from W qs answers s h) = inr (answers', s') /\ Q answers' s'.

(** A question whose [when], while [Inv] holds of the answers and of
    [environmentAnswers], is that of a value an environment variable may
    supply, and whose answer is a string. *)
Definition environment_like (Inv : obj -> obj -> Prop) (q : Question obj) : Prop :=
  (q_type q = QInput \/ q_type q = QPassword)
  /\ (exists w message,
         q_when q = Some w
         /\ forall answers s,
             Inv answers s -> w answers s
                              = Legacy.when_not_in_environment (q_name q) message answers s)
  /\ forall answers s v,
      Inv answers s -> Inv (set (q_name q) v answers) (delete (q_name q) s).

(** How a prompt that started from [s] settled the key [k]: the
    environment held a value, which was kept, or the question was shown and
    its answer, a string, is among the answers. *)
Definition settled (s : obj) (es : list Event) (answers' s' : obj) (k : string) : Prop :=
  if truthy (get s k)
  then get s' k = get s k
  else has s' k = false
       /\ exists typed, In (EvAsk k (JStr typed)) es /\ get answers' k = JStr typed.

(** The value a prompt and [Object.assign] left for the key [k] of the
    final answers: that of [environmentAnswers] when it held one, the typed
    answer otherwise. *)
Definition supplied (s : obj) (es : list Event) (final : obj) (k : string) : Prop :=
  if truthy (get s k)
  then get final k = get s k
  else exists typed, In (EvAsk k (JStr typed)) es /\ get final k = JStr typed.

(** The keys of the four keystore questions, and the variable of each. *)
Definition keystore_keys : list string :=
  ["keystorePath"; "keystoreAlias"; "keystorePassword"; "keyPassword"].

Definition android_variable (name : string) : string :=
  if String.eqb name "keystorePath" then "EXP_ANDROID_KEYSTORE_PATH"
  else if String.eqb name "keystoreAlias" then "EXP_ANDROID_KEYSTORE_ALIAS"
  else if String.eqb name "keystorePassword" then "EXP_ANDROID_STORE_PASSWORD"
  else "EXP_ANDROID_KEY_PASSWORD".

(** Some variable of the Android keystore is set. *)
Definition keystore_in_environment (W : World) : bool :=
  truthy (env W "EXP_ANDROID_KEYSTORE_PATH")
  || truthy (env W "EXP_ANDROID_KEYSTORE_ALIAS")
  || truthy (env W "EXP_ANDROID_STORE_PASSWORD")
  || truthy (env W "EXP_ANDROID_KEY_PASSWORD").

(** [environmentAnswers] of the Android builder when the prompt starts. *)
Definition android_environmentAnswers (W : World) : obj :=
  [("keystorePath", env W "EXP_ANDROID_KEYSTORE_PATH");
   ("keystoreAlias", env W "EXP_ANDROID_KEYSTORE_ALIAS");
   ("keystorePassword", env W "EXP_ANDROID_STORE_PASSWORD");
   ("keyPassword", env W "EXP_ANDROID_KEY_PASSWORD");
   ("uploadKeystore", JBool (keystore_in_environment W))].

(** An upload has been chosen, by the operator or by the environment. *)
Definition upload_chosen (answers s : obj) : Prop :=
  truthy (get answers "uploadKeystore") || truthy (get s "uploadKeystore") = true.

(** No upload has been chosen, and the answers are [answers0]. *)
Definition no_upload (answers0 answers s : obj) : Prop :=
  answers = answers0
  /\ truthy (get answers "uploadKeystore") = false
  /\ has s "uploadKeystore" = false.

(** What the keystore prompt of the Android builder leaves: the events
    [es], none of them a call, and the final answers [final].  With a
    keystore variable set the strategy question is not shown, an upload is
    chosen and each of the four fields is asked for exactly when its own
    variable holds no value.  With none set the strategy question, with its
    answer, is the first event; after "Let Expo handle the process!" nothing
    else is asked, after "I want to upload my own keystore!" all four
    fields are. *)
Definition android_prompted (W : World) (es : list Event) (final : obj) : Prop :=
  Forall (fun e => match e with EvCall _ => False | _ => True end) es
  /\ if keystore_in_environment W
     then question_names es
          = filter (fun k => negb (truthy (env W (android_variable k)))) keystore_keys
          /\ truthy (get final "uploadKeystore") = true
          /\ forall k, In k keystore_keys ->
                       supplied (android_environmentAnswers W) es final k
     else exists v,
         (v = JBool false \/ v = JBool true)
         /\ get final "uploadKeystore" = v
         /\ hd_error es = Some (EvAsk "uploadKeystore" v)
         /\ if truthy v
            then question_names es = "uploadKeystore" :: keystore_keys
                 /\ forall k, In k keystore_keys ->
                              exists typed, In (EvAsk k (JStr typed)) es
                                            /\ get final k = JStr typed
            else es = [EvAsk "uploadKeystore" v].

(** The bundle the Android builder uploads. *)
Definition android_bundle (final : obj) (keystoreData : string) : obj :=
  literal [("keystore", JStr (base64 keystoreData));
           ("keystoreAlias", get final "keystoreAlias");
           ("keystorePassword", get final "keystorePassword");
           ("keyPassword", get final "keyPassword")].

(** * Further example worlds *)

Definition clear_options : Options :=
  {| clearCredentials := true; useCi := false; type := None |}.

(** Android credentials are stored, no variable is set, and the operator
    lets Expo handle the process and confirms the deletion. *)
Definition android_clearing_world : World :=
  example_world [] example_args (Some stored_android_credentials) success_reply
                (fun _ => 0) true.

(** Only the keystore path and alias are in the environment. *)
Definition android_partial_environment : list (string * string) :=
  [("EXP_ANDROID_KEYSTORE_PATH", "release.jks");
   ("EXP_ANDROID_KEYSTORE_ALIAS", "alias")].

Definition android_partial_world : World :=
  example_world android_partial_environment example_args None success_reply
                (fun _ => 0) false.

(** Every upsert of the trace directly follows a validation of the same
    credentials, for the same platform and metadata, that was accepted. *)
Definition upserts_validated (W : World) (h : Hist) (es : list Event) : Prop :=
  forall pre platform creds m post,
    es = (pre ++ EvCall (Credentials_updateCredentialsForPlatform platform creds m)
              :: post)%list ->
    exists pre' kind,
      pre = (pre' ++ [EvCall (Credentials_validateCredentialsForPlatform
                                platform kind (Some creds) m)])%list
      /\ reply_validateCredentialsForPlatform W (h ++ pre')%list platform kind (Some creds) m
         = inr tt.

(** A line written with [log.error]. *)
Definition is_error_log (e : Event) : bool :=
  match e with
  | EvLog LError _ => true
  | _ => false
  end.

Definition legacy_error_line : Event :=
  EvLog LError
        (Text "Error validating credentials. You may need to clear them (with `-c`) and try again.").

Definition ios_error_line : Event :=
  EvLog LError (Text "Error while gathering & validating credentials").

(** The same world whose service answers a validation, the app id check
    and a file stat as given. *)
Definition with_replies (W : World)
           (validate : Hist -> string -> string -> option obj -> obj -> Exn + unit)
           (appId : Hist -> obj -> Exn + unit)
           (stat : Hist -> string -> Exn + bool) : World :=
  {| process_env := process_env W;
     reply_getPublishInfoAsync := reply_getPublishInfoAsync W;
     reply_credentialsExistForPlatformAsync := reply_credentialsExistForPlatformAsync W;
     reply_removeCredentialsForPlatform := reply_removeCredentialsForPlatform W;
     reply_updateCredentialsForPlatform := reply_updateCredentialsForPlatform W;
     reply_validateCredentialsForPlatform := validate;
     reply_ensureAppId := appId;
     reply_fetchAppleCertificates := reply_fetchAppleCertificates W;
     reply_fetchPushCertificates := reply_fetchPushCertificates W;
     reply_checkStatus := reply_checkStatus W;
     reply_ensureReleaseExists := reply_ensureReleaseExists W;
     reply_publish := reply_publish W;
     reply_build := reply_build W;
     DEBUG := DEBUG W;
     NO_BUNDLE_ID := NO_BUNDLE_ID W;
     MULTIPLE_PROFILES := MULTIPLE_PROFILES W;
     reply_doFastlaneActionsExist := reply_doFastlaneActionsExist W;
     reply_prepareLocalAuth := reply_prepareLocalAuth W;
     reply_validateCredentialsProduceTeamId := reply_validateCredentialsProduceTeamId W;
     reply_ensureAppIdLocally := reply_ensureAppIdLocally W;
     reply_createAppOnPortal := reply_createAppOnPortal W;
     reply_produceProvisionProfile := reply_produceProvisionProfile W;
     reply_produceCerts := reply_produceCerts W;
     reply_producePushCerts := reply_producePushCerts W;
     reply_readFile := reply_readFile W;
     reply_stat_isFile := stat;
     reply_existsSync := reply_existsSync W;
     path_resolve := path_resolve W;
     answer_input := answer_input W;
     answer_choice := answer_choice W;
     answer_confirm := answer_confirm W |}.

(** The service rejects every validation. *)
Definition legacy_rejecting_world : World :=
  with_replies legacy_fresh_world
               (fun _ _ _ _ _ => inl (Rejection (JStr "invalid credentials")))
               (reply_ensureAppId legacy_fresh_world)
               (reply_stat_isFile legacy_fresh_world).

(** The app id cannot be created. *)
Definition legacy_no_app_id_world : World :=
  with_replies legacy_fresh_world
               (reply_validateCredentialsForPlatform legacy_fresh_world)
               (fun _ _ => inl (Rejection (JStr "app id is taken")))
               (reply_stat_isFile legacy_fresh_world).

(** The paths in the environment name no file. *)
Definition legacy_no_file_world : World :=
  with_replies legacy_fresh_world
               (reply_validateCredentialsForPlatform legacy_fresh_world)
               (reply_ensureAppId legacy_fresh_world)
               (fun _ _ => inl (Rejection (JStr "ENOENT"))).

(** The body of the [try] block of [IOS.run], and its [catch] block. *)
Definition ios_gathering (W : World) (options : Options) (credentialMetadata : obj)
  : M unit :=
  when_ (DEBUG W)
    (exist <- call authFuncs_doFastlaneActionsExist (reply_doFastlaneActionsExist W) ;;
     console_log_value exist) ;;
  call authFuncs_prepareLocalAuth (reply_prepareLocalAuth W) ;;
  IOS.runLocalAuth W options credentialMetadata.

Definition ios_handler (W : World) (e : Exn) : M unit :=
  log_error "Error while gathering & validating credentials" ;;
  when_ (DEBUG W)
    (stdout <- IOS.stdout_of e ;;
     if defined stdout then
       match stdout with
       | JStr s => log_error (IOS.remove_nul s)
       | _ => throw (TypeError "e.stdout.replace is not a function")
       end
     else emit (EvLog LError (JsonOf e))) ;;
  throw e.

(** A release or the start of a build. *)
Definition is_release_or_build (e : Event) : bool :=
  match e with
  | EvCall (this_ensureReleaseExists _) | EvCall this_publish | EvCall (this_build _ _) => true
  | _ => false
  end.

(** The check that the app id exists. *)
Definition is_ensureAppId (e : Event) : bool :=
  match e with
  | EvCall (Credentials_ensureAppId _) => true
  | _ => false
  end.

(** The error the per-field builder throws when the app id check fails. *)
Definition app_id_error (bundleIdentifier : jsval) : Exn :=
  XDLError CREDENTIAL_ERROR
           ("It seems like we can't create an app on the Apple developer center with this app id: "
              ++ ToString bundleIdentifier
              ++ ". Please change your bundle identifier to something else.").

(** What a part of the credential step of the per-field builder does about
    the app id: it never checks it, or it checks it once, for [metadata];
    and a check that is refused ends the step at once with [app_id_error]. *)
Definition app_id_shape (W : World) (metadata : obj) (bundleIdentifier : jsval)
           (h : Hist) (out : (Exn + unit) * list Event) : Prop :=
  Forall (fun e => is_ensureAppId e = false) (snd out)
  \/ exists pre rest,
      snd out = (pre ++ EvCall (Credentials_ensureAppId metadata) :: rest)%list
      /\ Forall (fun e => is_ensureAppId e = false) pre
      /\ Forall (fun e => is_ensureAppId e = false) rest
      /\ forall x,
          reply_ensureAppId W (h ++ pre)%list metadata = inl x ->
          out = (inl (app_id_error bundleIdentifier),
                 (pre ++ [EvCall (Credentials_ensureAppId metadata)])%list).

(** The bundle [runningAsExpert] returns: the three files in base64 and the
    two passwords, written over [credsStarter]. *)
Definition expert_bundle (credsStarter : obj)
           (distFile distPassword pushFile pushPassword profileFile : string) : obj :=
  assign credsStarter
         [("certP12", JStr (base64 distFile)); ("certPassword", JStr distPassword);
          ("pushP12", JStr (base64 pushFile)); ("pushPassword", JStr pushPassword);
          ("provisioningProfile", JStr (base64 profileFile))].

(** The generation of a distribution certificate, of a push certificate,
    and the read of a file. *)
Definition is_dist_generation (e : Event) : bool :=
  match e with
  | EvCall (authFuncs_produceCerts _ _) => true
  | _ => false
  end.

Definition is_push_generation (e : Event) : bool :=
  match e with
  | EvCall (authFuncs_producePushCerts _ _ _) => true
  | _ => false
  end.

Definition is_file_read (e : Event) : bool :=
  match e with
  | EvCall (fs_readFile _) => true
  | _ => false
  end.

(** What the managed mode of the batch builder may do once the operator has
    answered [distCert] and [pushCert] to its two questions. *)
Definition managed_event (distCert pushCert : jsval) (e : Event) : Prop :=
  asked "pathToProvisioningProfile" e = false
  /\ asked "distCert" e = false
  /\ asked "pushCert" e = false
  /\ (truthy distCert = false -> is_dist_generation e = false)
  /\ (truthy pushCert = false -> is_push_generation e = false)
  /\ (truthy distCert = true -> truthy pushCert = true ->
      is_prompt e = false /\ is_file_read e = false).

(** The key of the stored bundle that decides about the slot validated as
    [kind]. *)
Definition slot_of_kind (kind : string) : string :=
  if String.eqb kind "appleId" then "appleId"
  else if String.eqb kind "cert" then "certP12"
  else "pushP12".

(** A slot is kept: credentials are stored, [clearCredentials] is not set
    and the stored bundle holds a value at the key of the slot. *)
Definition slot_is_kept (options : Options) (stored : Exn + option obj) (slot : string)
  : bool :=
  match stored with
  | inr (Some existing) => negb (clearCredentials options) && truthy (get existing slot)
  | _ => false
  end.

Definition apple_id_questions : list string := ["appleId"; "password"; "teamId"].

(** The two questions both certificate prompts ask under the same name. *)
Definition certificate_questions : list string := ["pathToP12"; "certPassword"].

(** The slots an event of the per-field builder may resolve: a question
    about the Apple ID belongs to the slot appleId, the strategy question of
    a certificate to the slot of that certificate, the path and password
    questions and an access to a file to one of the two certificate slots, a
    validation with credentials to the slot of its kind, a certificate fetch
    to its slot, an upsert to the slot whose key it holds.  Logs, the fetch
    of the stored bundle, the app id check and the validation of a stored
    slot resolve nothing. *)
Definition resolution_slots (e : Event) : list string :=
  match e with
  | EvAsk name _ =>
      if existsb (String.eqb name) apple_id_questions then ["appleId"]
      else if String.eqb name "manageCertificates" then ["certP12"]
      else if String.eqb name "managePushCertificates" then ["pushP12"]
      else if existsb (String.eqb name) certificate_questions then ["certP12"; "pushP12"]
      else []
  | EvCall (Credentials_validateCredentialsForPlatform _ kind (Some _) _) =>
      [slot_of_kind kind]
  | EvCall (Credentials_updateCredentialsForPlatform _ creds _) =>
      if has creds "appleId" then ["appleId"]
      else if has creds "certP12" then ["certP12"]
      else if has creds "pushP12" then ["pushP12"]
      else []
  | EvCall (Credentials_fetchAppleCertificates _) => ["certP12"]
  | EvCall (Credentials_fetchPushCertificates _) => ["pushP12"]
  | EvCall (fs_stat _) | EvCall (fs_readFile _) => ["certP12"; "pushP12"]
  | _ => []
  end.

(** An event that respects the slots that are kept: a validation without
    credentials is of a kept slot, for platform ios and [metadata], and an
    event that resolves is for a slot that is not kept. *)
Definition by_slot (metadata : obj) (kept : string -> bool) (e : Event) : Prop :=
  match e with
  | EvCall (Credentials_validateCredentialsForPlatform p kind None m) =>
      p = "ios" /\ m = metadata
      /\ (kind = "appleId" \/ kind = "cert" \/ kind = "push")
      /\ kept (slot_of_kind kind) = true
  | _ =>
      resolution_slots e = []
      \/ exists slot, In slot (resolution_slots e) /\ kept slot = false
  end.

(** An event that resolves [slot] for good: the upsert of a bundle that
    holds the key of the slot, or the fetch that has the service generate
    and store the certificate of the slot. *)
Definition resolves (metadata : obj) (slot : string) (e : Event) : Prop :=
  match e with
  | EvCall (Credentials_updateCredentialsForPlatform p creds m) =>
      p = "ios" /\ m = metadata /\ has creds slot = true
  | EvCall (Credentials_fetchAppleCertificates m) => slot = "certP12" /\ m = metadata
  | EvCall (Credentials_fetchPushCertificates m) => slot = "pushP12" /\ m = metadata
  | _ => False
  end.


(** A store that holds the Apple ID and the distribution certificate of the
    project, and no push certificate. *)
Definition legacy_partial_credentials : obj :=
  [("appleId", JStr "old@example.com");
   ("certP12", JStr "b2xkLWNlcnQ=")].

Definition legacy_partial_world : World :=
  example_world legacy_environment example_args (Some legacy_partial_credentials)
                success_reply (fun _ => 0) false.

(** ** Worlds that never refuse *)

(** Every file can be read. *)
Definition files_readable (W : World) : Prop :=
  forall h path, exists data, reply_readFile W h path = inr data.

(** The service accepts every validation and every upsert. *)
Definition service_accepts (W : World) : Prop :=
  (forall h platform kind credentials metadata,
      reply_validateCredentialsForPlatform W h platform kind credentials metadata = inr tt)
  /\ (forall h platform credentials metadata,
         reply_updateCredentialsForPlatform W h platform credentials metadata = inr tt).

(** The fetch of the stored credentials always answers. *)
Definition store_answers (W : World) : Prop :=
  forall h metadata, exists stored,
    reply_credentialsExistForPlatformAsync W h metadata = inr stored.

(** A computation that returns normally from every history. *)
Definition returns {A} (m : M A) : Prop :=
  forall h, exists a, fst (m h) = inr a.

(** An upsert for [platform] and [metadata]. *)
Definition is_upsert_for (platform : string) (metadata : obj) (e : Event) : Prop :=
  match e with
  | EvCall (Credentials_updateCredentialsForPlatform p _ m) => p = platform /\ m = metadata
  | _ => False
  end.

(** * Properties *)

(** ** Sanity checks of the value model *)

Example base64_Man : base64 "Man" = "TWFu".
Proof. reflexivity. Qed.

Example base64_Ma : base64 "Ma" = "TWE=".
Proof. reflexivity. Qed.

Example base64_M : base64 "M" = "TQ==".
Proof. reflexivity. Qed.

Example stringify_undefined : JSON_stringify JUndefined = JUndefined.
Proof. reflexivity. Qed.

Example stringify_object :
  JSON_stringify (JObj [("a", JNum 1); ("b", JUndefined); ("c", JArr [JStr "x"; JUndefined])])
  = JStr ("{" ++ dquote ++ "a" ++ dquote ++ ":1," ++ dquote ++ "c" ++ dquote ++ ":["
              ++ dquote ++ "x" ++ dquote ++ ",null]}").
Proof. reflexivity. Qed.

(** ** Objects *)

Lemma get_set_same k v o : get (set k v o) k = v.
Proof.
  induction o as [|[k' v'] o IH]; simpl.
  - now rewrite String.eqb_refl.
  - destruct (String.eqb k k') eqn:E; simpl.
    + now rewrite String.eqb_refl.
    + now rewrite E.
Qed.

Lemma get_set_other k k' v o : k' <> k -> get (set k v o) k' = get o k'.
Proof.
  intros Hne. induction o as [|[k0 v0] o IH]; simpl.
  - destruct (String.eqb k' k) eqn:E; [apply String.eqb_eq in E; congruence | reflexivity].
  - destruct (String.eqb k k0) eqn:E; simpl.
    + apply String.eqb_eq in E; subst k0.
      destruct (String.eqb k' k) eqn:E'; [apply String.eqb_eq in E'; congruence | reflexivity].
    + destruct (String.eqb k' k0); auto.
Qed.



Lemma has_delete_other k k' o : k' <> k -> has (delete k o) k' = has o k'.
Proof.
  intros Hne. induction o as [|[k0 v0] o IH]; simpl; [reflexivity|].
  destruct (String.eqb k k0) eqn:E; simpl.
  - apply String.eqb_eq in E; subst k0.
    destruct (String.eqb k' k) eqn:E'; [apply String.eqb_eq in E'; congruence | exact IH].
  - destruct (String.eqb k' k0); auto.
Qed.

(** ** Reasoning about computations *)

Section Rules.
Context {A B : Type}.
Variable P : Event -> Prop.

Lemma quiet_ret (a : A) : quiet P (ret a).
Proof. intros h. constructor. Qed.

Lemma quiet_throw e : quiet P (@throw A e).
Proof. intros h. constructor. Qed.

Lemma quiet_emit e : P e -> quiet P (emit e).
Proof. intros He h. simpl. auto. Qed.

Lemma quiet_call c (reply : Hist -> Exn + A) : P (EvCall c) -> quiet P (call c reply).
Proof. intros He h. simpl. auto. Qed.

Lemma quiet_bind (m : M A) (f : A -> M B) :
  quiet P m -> (forall a, quiet P (f a)) -> quiet P (bind m f).
Proof.
  intros Hm Hf h. unfold bind. specialize (Hm h).
  destruct (m h) as [[e|a] es]; simpl in *; auto.
  specialize (Hf a (h ++ es)%list).
  destruct (f a (h ++ es)%list) as [r es']; simpl in *.
  apply Forall_app; auto.
Qed.

(** The same, the continuation knowing what [m] guarantees of its result. *)
Lemma quiet_bind_post (Q : A -> Prop) (m : M A) (f : A -> M B) :
  quiet P m -> (forall h a, fst (m h) = inr a -> Q a) ->
  (forall a, Q a -> quiet P (f a)) -> quiet P (bind m f).
Proof.
  intros Hm HQ Hf h. unfold bind. specialize (Hm h). specialize (HQ h).
  destruct (m h) as [[e|a] es]; simpl in *; auto.
  specialize (Hf a (HQ a eq_refl) (h ++ es)%list).
  destruct (f a (h ++ es)%list) as [r es']; simpl in *.
  apply Forall_app; auto.
Qed.


Lemma quiet_try_catch (m : M A) (handler : Exn -> M A) :
  quiet P m -> (forall e, quiet P (handler e)) -> quiet P (try_catch m handler).
Proof.
  intros Hm Hf h. unfold try_catch. specialize (Hm h).
  destruct (m h) as [[e|a] es]; simpl in *; auto.
  specialize (Hf e (h ++ es)%list).
  destruct (handler e (h ++ es)%list) as [r es']; simpl in *.
  apply Forall_app; auto.
Qed.

Lemma quiet_finally (m : M A) (fin : M unit) :
  quiet P m -> quiet P fin -> quiet P (finally m fin).
Proof.
  intros Hm Hf h. unfold finally. specialize (Hm h).
  destruct (m h) as [r es]; simpl in *.
  specialize (Hf (h ++ es)%list).
  destruct (fin (h ++ es)%list) as [[e|u] es']; simpl in *; apply Forall_app; auto.
Qed.




End Rules.

Lemma quiet_when_ P b m : quiet P m -> quiet P (when_ b m).
Proof. intros Hm. destruct b; simpl; [exact Hm | apply quiet_ret]. Qed.

Lemma quiet_for_of {S X} P (l : list X) (body : S -> X -> M S) :
  (forall s x, quiet P (body s x)) -> forall s, quiet P (for_of l body s).
Proof.
  intros Hb. induction l as [|x l IH]; intros s; simpl.
  - apply quiet_ret.
  - apply quiet_bind; auto.
Qed.

Lemma quiet_startsWith_of P v p : quiet P (startsWith_of v p).
Proof. destruct v; simpl; try apply quiet_ret; apply quiet_throw. Qed.

Lemma quiet_weaken {A} (P Q : Event -> Prop) (m : M A) :
  (forall e, P e -> Q e) -> quiet P m -> quiet Q m.
Proof. intros HPQ Hm h. eapply Forall_impl; eauto. Qed.

Lemma quiet_ask {S} P W (q : Question S) :
  (forall v, P (EvAsk (q_name q) v)) -> quiet P (ask W q).
Proof. intros Hq h. simpl. auto. Qed.

(** A prompt adds only what its [when] functions add and the questions it
    shows. *)
Lemma quiet_prompt_from {S} P W (qs : list (Question S)) :
  Forall (fun q => (forall v, P (EvAsk (q_name q) v))
                   /\ forall w, q_when q = Some w -> forall a s, quiet P (w a s)) qs ->
  forall answers s, quiet P (prompt_from W qs answers s).
Proof.
  induction 1 as [|q qs [Hq Hw] _ IH]; intros answers s; simpl.
  - apply quiet_ret.
  - apply quiet_bind.
    + destruct (q_when q) as [w|]; [eapply Hw; eauto | apply quiet_ret].
    + intros [shown s']. destruct shown; auto.
      apply quiet_bind; [apply quiet_ask; auto | auto].
Qed.

Ltac quiet_step :=
  first
    [ apply quiet_ret
    | apply quiet_throw
    | apply quiet_startsWith_of
    | apply quiet_when_
    | apply quiet_emit; simpl; auto
    | apply quiet_call; simpl; auto
    | apply quiet_ask; intros; simpl; auto
    | apply quiet_bind; [|intros]
    | apply quiet_try_catch; [|intros]
    | apply quiet_finally
    | apply quiet_for_of; intros
    | match goal with
      | |- quiet _ (if ?b then _ else _) => destruct b
      | |- quiet _ (match ?x with _ => _ end) => destruct x
      end ].

Ltac quiet_auto :=
  unfold log, log_warn, log_error, console_log, console_log_value, readFile;
  repeat quiet_step.

(** Running a computation symbolically. *)
Ltac run_step :=
  first
    [ progress (unfold bind, call, ask, emit, ret, throw, log, log_warn, log_error,
                console_log, console_log_value, when_, try_catch, finally, readFile,
                prompt, prompt_with, Android.when_keystore, Android.when_upload,
                Legacy.when_not_in_environment, Legacy.when_manage, Legacy.when_path,
                Legacy.when_password, Legacy.validateCertificatePath)
    | progress simpl
    | match goal with
      | H : truthy ?v = _ |- context [truthy ?v] => rewrite H
      | H : String.eqb ?s ?t = _ |- context [String.eqb ?s ?t] => rewrite H
      | H : forall h, reply_stat_isFile ?W h ?p = _ |- context [reply_stat_isFile ?W _ ?p] =>
          rewrite H
      end ].

Ltac run_sym := repeat run_step.

(** Case analysis on the first reply or answer the run is waiting for. *)
Ltac destruct_stuck :=
  match goal with
  | |- context [match ?x with _ => _ end] =>
      lazymatch x with
      | context [match _ with _ => _ end] => fail
      | _ => destruct x eqn:?
      end
  end.

Ltac in_cases H :=
  repeat (destruct H as [H|H]; try discriminate H); try contradiction.

(** ** Running a sequence *)

Lemma bind_inr {A B} (m : M A) (f : A -> M B) h a es :
  m h = (inr a, es) ->
  bind m f h = (fst (f a (h ++ es)%list), (es ++ snd (f a (h ++ es)%list))%list).
Proof. intros Hm. unfold bind. rewrite Hm. now destruct (f a (h ++ es)%list). Qed.

Lemma bind_inl {A B} (m : M A) (f : A -> M B) h e es :
  m h = (inl e, es) -> bind m f h = (inl e, es).
Proof. intros Hm. unfold bind. now rewrite Hm. Qed.

Lemma bind_emit {B} (ev : Event) (f : unit -> M B) h :
  bind (emit ev) f h = (fst (f tt (h ++ [ev])%list), ev :: snd (f tt (h ++ [ev])%list)).
Proof. now rewrite (bind_inr _ _ _ tt [ev]). Qed.

Lemma bind_call {A B} c (reply : Hist -> Exn + A) (f : A -> M B) h :
  bind (call c reply) f h
  = match reply h with
    | inl e => (inl e, [EvCall c])
    | inr a => (fst (f a (h ++ [EvCall c])%list),
                EvCall c :: snd (f a (h ++ [EvCall c])%list))
    end.
Proof.
  unfold bind, call. destruct (reply h) as [e|a]; [reflexivity|].
  now destruct (f a (h ++ [EvCall c])%list).
Qed.

Lemma bind_assoc {A B C} (m : M A) (f : A -> M B) (g : B -> M C) h :
  bind (bind m f) g h = bind m (fun a => bind (f a) g) h.
Proof.
  unfold bind. destruct (m h) as [[e|a] es]; [reflexivity|].
  destruct (f a (h ++ es)%list) as [[e|b] es']; [reflexivity|].
  rewrite <- app_assoc. destruct (g b (h ++ es ++ es')%list) as [r es''].
  now rewrite app_assoc.
Qed.

Lemma snd_bind_call {A B} c (reply : Hist -> Exn + A) (f : A -> M B) h :
  snd (bind (call c reply) f h)
  = match reply h with
    | inl _ => [EvCall c]
    | inr a => EvCall c :: snd (f a (h ++ [EvCall c])%list)
    end.
Proof.
  unfold bind, call. destruct (reply h) as [e|a]; [reflexivity|].
  destruct (f a (h ++ [EvCall c])%list); reflexivity.
Qed.

Lemma snd_bind {A B} (m : M A) (f : A -> M B) h :
  snd (bind m f h)
  = (snd (m h) ++ match fst (m h) with
                  | inl _ => []
                  | inr a => snd (f a (h ++ snd (m h))%list)
                  end)%list.
Proof.
  unfold bind. destruct (m h) as [[e|a] es]; simpl; [now rewrite app_nil_r|].
  now destruct (f a (h ++ es)%list).
Qed.

(** ** Missing bundle identifier *)

(** C7: when the project has no bundle identifier, both iOS builders throw
    the INVALID_OPTIONS error right after reading the project metadata; the
    trace holds that read and nothing else, so no build-status check,
    credential fetch, deletion or upsert is attempted. *)
Theorem C7_missing_bundleIdentifier_is_fatal_before_network
        (W : World) (projectDir : string) (options : Options) (h : Hist) (args : obj) :
  reply_getPublishInfoAsync W h projectDir = inr args ->
  truthy (get args "bundleIdentifierIOS") = false ->
  IOS.run W projectDir options h
  = (inl (XDLError INVALID_OPTIONS IOS.bundleIdentifier_message),
     [EvCall (Exp_getPublishInfoAsync projectDir)])
  /\ Legacy.run W projectDir options h
     = (inl (XDLError INVALID_OPTIONS Legacy.bundleIdentifier_message),
        [EvCall (Exp_getPublishInfoAsync projectDir)])
  /\ Forall (fun e => is_network_call e = false) (snd (IOS.run W projectDir options h))
  /\ Forall (fun e => is_network_call e = false) (snd (Legacy.run W projectDir options h)).
Proof.
  intros Hargs Hfalsy.
  assert (HI : IOS.run W projectDir options h
               = (inl (XDLError INVALID_OPTIONS IOS.bundleIdentifier_message),
                  [EvCall (Exp_getPublishInfoAsync projectDir)])).
  { unfold IOS.run, bind, call. rewrite Hargs. rewrite Hfalsy. reflexivity. }
  assert (HL : Legacy.run W projectDir options h
               = (inl (XDLError INVALID_OPTIONS Legacy.bundleIdentifier_message),
                  [EvCall (Exp_getPublishInfoAsync projectDir)])).
  { unfold Legacy.run, bind, call. rewrite Hargs. rewrite Hfalsy. reflexivity. }
  rewrite HI, HL. repeat split; repeat constructor.
Qed.

Lemma C7_witness :
  IOS.run world_without_bundleIdentifier "." default_options []
  = (inl (XDLError INVALID_OPTIONS IOS.bundleIdentifier_message),
     [EvCall (Exp_getPublishInfoAsync ".")])
  /\ Legacy.run world_without_bundleIdentifier "." default_options []
     = (inl (XDLError INVALID_OPTIONS Legacy.bundleIdentifier_message),
        [EvCall (Exp_getPublishInfoAsync ".")]).
Proof.
  destruct (C7_missing_bundleIdentifier_is_fatal_before_network
              world_without_bundleIdentifier "." default_options []
              args_without_bundleIdentifier eq_refl eq_refl) as (H1 & H2 & _).
  split; assumption.
Defined.

(** ** The standalone clear-credentials flow *)

Lemma store_after_unchanged {Store} on_remove on_update (s : Store) es :
  Forall (fun e => is_mutation e = false) es ->
  store_after Store on_remove on_update s es = s.
Proof.
  unfold store_after. induction 1 as [|e es He _ IH]; simpl; [reflexivity|].
  destruct e as [c| | |]; try exact IH.
  destruct c; try exact IH; discriminate.
Qed.

Lemma quiet_times P n m : quiet P m -> quiet P (times n m).
Proof.
  intros Hm. induction n; simpl; [apply quiet_ret|].
  apply quiet_bind; auto.
Qed.

(** With an operator who declines, the flow changes nothing remotely. *)
Lemma clearCredentials_declined_quiet W projectDir :
  (forall h, answer_confirm W h "confirm" = false) ->
  quiet (fun e => is_mutation e = false) (Android._clearCredentials W projectDir).
Proof.
  intros Hno h. unfold Android._clearCredentials, bind, call, prompt, prompt_with.
  destruct (reply_getPublishInfoAsync W h projectDir) as [e|args]; simpl;
    [repeat constructor|].
  destruct (reply_existsSync W _ _); simpl; rewrite Hno; simpl; repeat constructor.
Qed.

(** The events of the flow up to its question: the read of the project
    metadata, the check for a local keystore and the warnings. *)
Lemma clearCredentials_runs W projectDir h :
  match reply_getPublishInfoAsync W h projectDir with
  | inl x =>
      Android._clearCredentials W projectDir h
      = (inl x, [EvCall (Exp_getPublishInfoAsync projectDir)])
  | inr args =>
      exists pre,
        Forall (fun e => is_prompt e = false /\ is_mutation e = false) pre
        /\ Android._clearCredentials W projectDir h
           = if answer_confirm W (h ++ pre)%list "confirm"
             then (reply_removeCredentialsForPlatform
                     W (h ++ pre ++ [EvAsk "confirm" (JBool true)])%list "android"
                     (android_metadata args),
                   (pre ++ [EvAsk "confirm" (JBool true);
                            EvCall (Credentials_removeCredentialsForPlatform
                                      "android" (android_metadata args))])%list)
             else (inr tt, (pre ++ [EvAsk "confirm" (JBool false)])%list)
  end.
Proof.
  unfold Android._clearCredentials, bind, call, prompt, prompt_with, log_warn, emit.
  destruct (reply_getPublishInfoAsync W h projectDir) as [x|args]; [reflexivity|].
  simpl.
  destruct (reply_existsSync W _ _); simpl;
    repeat (rewrite <- app_assoc; simpl);
    match goal with
    | |- context [answer_confirm W (h ++ ?l)%list "confirm"] =>
        exists l; split; [repeat constructor|];
        destruct (answer_confirm W (h ++ l)%list "confirm")
    end; unfold android_metadata; simpl; repeat (rewrite <- app_assoc; simpl);
    try match goal with
        | |- context [reply_removeCredentialsForPlatform W ?hh ?p ?m] =>
            destruct (reply_removeCredentialsForPlatform W hh p m) as [x|[]]
        end; reflexivity.
Qed.

(** C5: in every run of the Android clear-credentials flow the remote
    deletion is issued if and only if the operator answered the confirmation
    with yes.  Once the project metadata is read the confirmation is asked,
    exactly once and before any remote change: after a yes the deletion
    follows at once and its outcome is the outcome of the flow; after a no
    the function returns normally and the trace holds no remote mutation, so
    an operator who declines every time leaves the store as it was, however
    often the flow is run. *)
Theorem C5_delete_iff_confirmed (W : World) (projectDir : string) :
  (forall h,
      let r := fst (Android._clearCredentials W projectDir h) in
      let es := snd (Android._clearCredentials W projectDir h) in
      (existsb is_removal es = true <-> In (EvAsk "confirm" (JBool true)) es)
      /\ (In (EvAsk "confirm" (JBool false)) es ->
          r = inr tt /\ Forall (fun e => is_mutation e = false) es))
  /\ (forall h args,
         reply_getPublishInfoAsync W h projectDir = inr args ->
         exists pre,
           Forall (fun e => is_prompt e = false /\ is_mutation e = false) pre
           /\ Android._clearCredentials W projectDir h
              = if answer_confirm W (h ++ pre)%list "confirm"
                then (reply_removeCredentialsForPlatform
                        W (h ++ pre ++ [EvAsk "confirm" (JBool true)])%list "android"
                        (android_metadata args),
                      (pre ++ [EvAsk "confirm" (JBool true);
                               EvCall (Credentials_removeCredentialsForPlatform
                                         "android" (android_metadata args))])%list)
                else (inr tt, (pre ++ [EvAsk "confirm" (JBool false)])%list))
  /\ ((forall h, answer_confirm W h "confirm" = false) ->
      forall (n : nat) (h : Hist) (Store : Type) on_remove on_update (s : Store),
        store_after Store on_remove on_update s
                    (snd (times n (Android._clearCredentials W projectDir) h)) = s).
Proof.
  split; [|split].
  - intros h. unfold Android._clearCredentials, bind, call, prompt, prompt_with.
    destruct (reply_getPublishInfoAsync W h projectDir) as [e|args]; simpl.
    + split; [split; [discriminate | intros [H|[]]; discriminate]
             | intros [H|[]]; discriminate].
    + destruct (reply_existsSync W _ _); simpl;
        match goal with
        | |- context [answer_confirm W ?hh "confirm"] =>
            destruct (answer_confirm W hh "confirm") eqn:Hans
        end; simpl;
        (split;
         [ split; [ intros Ht; first [discriminate Ht | tauto]
                  | intros Hin; in_cases Hin; try reflexivity ]
         | intros Hin; in_cases Hin; try (split; [reflexivity | repeat constructor]) ]).
  - intros h args Hargs. pose proof (clearCredentials_runs W projectDir h) as Hrun.
    rewrite Hargs in Hrun. exact Hrun.
  - intros Hno n h Store on_remove on_update s.
    apply store_after_unchanged.
    apply quiet_times. now apply clearCredentials_declined_quiet.
Qed.

Lemma C5_witness :
  store_after (option obj) (fun _ _ _ => None) (fun _ c _ _ => Some c)
              (Some [("keystore", JStr "a2V5")])
              (snd (times 3 (Android._clearCredentials declining_world ".") []))
  = Some [("keystore", JStr "a2V5")]
  /\ exists pre,
      Forall (fun e => is_prompt e = false /\ is_mutation e = false) pre
      /\ Android._clearCredentials confirming_world "." []
         = if answer_confirm confirming_world ([] ++ pre)%list "confirm"
           then (reply_removeCredentialsForPlatform
                   confirming_world ([] ++ pre ++ [EvAsk "confirm" (JBool true)])%list
                   "android" (android_metadata example_args),
                 (pre ++ [EvAsk "confirm" (JBool true);
                          EvCall (Credentials_removeCredentialsForPlatform
                                    "android" (android_metadata example_args))])%list)
           else (inr tt, (pre ++ [EvAsk "confirm" (JBool false)])%list).
Proof.
  split.
  - apply (proj2 (proj2 (C5_delete_iff_confirmed declining_world "."))).
    intros h. reflexivity.
  - exact (proj1 (proj2 (C5_delete_iff_confirmed confirming_world "."))
                 [] example_args eq_refl).
Defined.

Example clearCredentials_confirmed :
  calls (snd (Android._clearCredentials confirming_world "." []))
  = [Exp_getPublishInfoAsync ".";
     fs_existsSync "/project/app.jks";
     Credentials_removeCredentialsForPlatform "android"
       [("username", JStr "alice"); ("experienceName", JStr "@alice/app");
        ("platform", JStr "android")]].
Proof. reflexivity. Qed.

Example clearCredentials_declined :
  calls (snd (Android._clearCredentials declining_world "." []))
  = [Exp_getPublishInfoAsync "."; fs_existsSync "/project/app.jks"]
  /\ fst (Android._clearCredentials declining_world "." []) = inr tt.
Proof. split; reflexivity. Qed.

(** ** Copying replies into the bundle *)

Lemma fold_copy_get (src : obj) (ks : list string) (c : obj) (k : string) :
  get (fold_left
         (fun credsStarter k =>
            let isString := isString (get src k) in
            if isString then set k (get src k) credsStarter
            else set k (JSON_stringify (get src k)) credsStarter) ks c) k
  = if existsb (String.eqb k) ks
    then (if isString (get src k) then get src k else JSON_stringify (get src k))
    else get c k.
Proof.
  revert c. induction ks as [|k0 ks IH]; intros c; simpl; [reflexivity|].
  rewrite IH. destruct (existsb (String.eqb k) ks); simpl.
  - now rewrite orb_true_r.
  - rewrite orb_false_r. destruct (String.eqb k k0) eqn:E.
    + apply String.eqb_eq in E; subst k0.
      destruct (isString (get src k)); apply get_set_same.
    + assert (k <> k0) by (intros ->; rewrite String.eqb_refl in E; discriminate).
      destruct (isString (get src k0)); now apply get_set_other.
Qed.

Lemma has_existsb_keys (o : obj) (k : string) : has o k = existsb (String.eqb k) (keys o).
Proof.
  induction o as [|[k' v] o IH]; simpl; [reflexivity|].
  destruct (String.eqb k k'); simpl; auto.
Qed.

(** What [_copyOverAsString] leaves under a key of the source: the string
    itself, or JSON.stringify of any other value. *)
Lemma copyOverAsString_copied (credsStarter src : obj) (k : string) :
  has src k = true ->
  get (IOS._copyOverAsString credsStarter src) k
  = if isString (get src k) then get src k else JSON_stringify (get src k).
Proof.
  intros Hk. unfold IOS._copyOverAsString. rewrite fold_copy_get.
  now rewrite <- has_existsb_keys, Hk.
Qed.


(** JSON.stringify yields a string for every value but [undefined]. *)
Lemma JSON_stringify_isString (v : jsval) :
  v <> JUndefined -> isString (JSON_stringify v) = true.
Proof.
  intros Hv. unfold JSON_stringify.
  destruct v as [| |[|]| | | |]; simpl; try reflexivity. congruence.
Qed.

(** Hence the value stored is a string unless the source held [undefined]. *)
Lemma copyOverAsString_string_unless_undefined (credsStarter src : obj) (k : string) :
  has src k = true ->
  get src k <> JUndefined ->
  isString (get (IOS._copyOverAsString credsStarter src) k) = true.
Proof.
  intros Hk Hv. rewrite copyOverAsString_copied by assumption.
  destruct (isString (get src k)) eqn:E; [exact E | now apply JSON_stringify_isString].
Qed.



(** C10: [_copyOverAsString] does not turn every value into a string: a
    source value [undefined] is not a string, JSON.stringify leaves it
    [undefined], and [undefined] is what the bundle then holds.  A CI run
    without EXP_APPLE_TEAM_ID reaches it and hands the upsert a bundle whose
    [teamId] is [undefined]. *)
Theorem C10_undefined_is_stored_as_undefined :
  IOS._copyOverAsString [] [("teamId", JUndefined)] = [("teamId", JUndefined)]
  /\ isString (get (IOS._copyOverAsString [] [("teamId", JUndefined)]) "teamId") = false
  /\ In (Credentials_updateCredentialsForPlatform "ios"
           [("teamId", JUndefined); ("certP12", JStr "TWFu");
            ("certPassword", JStr "dist-pw"); ("pushP12", JStr "TWFu");
            ("pushPassword", JStr "push-pw"); ("provisioningProfile", JStr "TWFu")]
           ios_metadata)
        (calls (snd (IOS.run ci_world_without_team "." ci_options []))).
Proof.
  split; [reflexivity|]. split; [reflexivity|].
  vm_compute. tauto.
Qed.

(** ** CI mode *)


Lemma quiet_areCredsMissing {S} P (creds : obj) (action : option (S -> S)) (s : S) :
  (forall p, P (EvLog LWarn p)) -> quiet P (IOS._areCredsMissing creds action s).
Proof. intros HP. unfold IOS._areCredsMissing. quiet_auto. Qed.




Lemma quiet_runningAsCI P W credsStarter credsMetadata :
  (forall p, P (EvCall (fs_readFile p))) ->
  quiet P (IOS.runningAsCI W credsStarter credsMetadata).
Proof. intros HP. unfold IOS.runningAsCI. quiet_auto. Qed.

(** In CI mode the credential step asks nothing and generates nothing. *)
Lemma runLocalAuth_ci_quiet W options credsMetadata :
  useCi options = true ->
  quiet (fun e => is_prompt e = false /\ is_managed_generation e = false)
        (IOS.runLocalAuth W options credsMetadata).
Proof.
  intros Hci. unfold IOS.runLocalAuth. rewrite Hci.
  apply quiet_bind; [quiet_auto|]. intros fetched.
  apply quiet_bind.
  - destruct fetched; [|quiet_auto].
    apply quiet_bind; [apply quiet_areCredsMissing; intros; simpl; auto | intros; quiet_auto].
  - intros [credsStarter clientHasAllNeededCreds].
    apply quiet_bind; [apply quiet_runningAsCI; intros; simpl; auto | intros].
    apply quiet_bind; [apply quiet_areCredsMissing; intros; simpl; auto | intros].
    quiet_auto.
Qed.



Lemma quiet_stdout_of P e : quiet P (IOS.stdout_of e).
Proof.
  destruct e as [| | |v]; simpl; try apply quiet_ret.
  destruct v; simpl; try apply quiet_ret; apply quiet_throw.
Qed.






(** ** Simulator builds *)

(** C9: in a simulator build the batch iOS builder resolves, validates and
    upserts nothing; the one credential call it can make is the deletion,
    and only when clearCredentials is set.  The per-field iOS builder makes
    no credential call at all. *)
Theorem C9_simulator_build_skips_resolution
        (W : World) (projectDir : string) (options : Options) :
  not_simulator options = false ->
  quiet (fun e => is_credential_event e = true ->
                  is_removal e = true /\ clearCredentials options = true)
        (IOS.run W projectDir options)
  /\ quiet (fun e => is_credential_event e = false) (Legacy.run W projectDir options).
Proof.
  intros Hsim. split.
  - unfold IOS.run. rewrite Hsim.
    destruct (clearCredentials options); quiet_auto; discriminate.
  - unfold Legacy.run. rewrite Hsim. quiet_auto.
Qed.

Lemma C9_witness :
  Forall (fun e => is_credential_event e = true ->
                   is_removal e = true /\ clearCredentials simulator_options = true)
         (snd (IOS.run stored_world "." simulator_options []))
  /\ Forall (fun e => is_credential_event e = false)
            (snd (Legacy.run stored_world "." simulator_options [])).
Proof.
  destruct (C9_simulator_build_skips_resolution stored_world "." simulator_options eq_refl)
    as [HI HL].
  split; [apply HI | apply HL].
Defined.

(** A simulator build is not free of mutations: with clearCredentials it
    deletes the stored credentials. *)
Lemma C9_counterexample :
  not_simulator simulator_clear_options = false
  /\ calls (snd (IOS.run stored_world "." simulator_clear_options []))
     = [Exp_getPublishInfoAsync ".";
        this_checkStatus;
        Credentials_removeCredentialsForPlatform "ios" ios_metadata;
        this_ensureReleaseExists "ios";
        this_build (JArr [JStr "exp-id"]) "ios"]
  /\ existsb is_mutation (snd (IOS.run stored_world "." simulator_clear_options [])) = true.
Proof. repeat split; vm_compute; reflexivity. Qed.

(** ** The push-certificate prompt of the per-field builder *)

Lemma quiet_when_path P W invalid_message set_message answers s :
  (forall c, P (EvCall c)) -> (forall l p, P (EvLog l p)) ->
  quiet P (Legacy.when_path W invalid_message set_message answers s).
Proof.
  intros Hc Hl. unfold Legacy.when_path, Legacy.validateCertificatePath. quiet_auto.
Qed.

Lemma quiet_when_password P set_message answers s :
  (forall l p, P (EvLog l p)) ->
  quiet P (Legacy.when_password set_message answers s).
Proof. intros Hl. unfold Legacy.when_password. quiet_auto. Qed.

(** The strategy question of the push prompt is hidden as long as the
    closure state has no truthy [manageCertificates]. *)
Lemma when_manage_hidden set_message answers s h :
  truthy (get s "manageCertificates") = false ->
  fst (Legacy.when_manage set_message answers s h) = inr (false, s).
Proof. intros Hs. unfold Legacy.when_manage. rewrite Hs. reflexivity. Qed.

(** C8: the strategy question of the push-certificate slot is never shown,
    whatever the environment holds: its [when] reads [manageCertificates],
    a key the push prompt never sets.  With neither push variable set the
    operator is asked for a path and a password, and the service is then
    called to generate the certificate all the same: the push fetch is the
    one generation call, every other call is at most a file stat, and
    nothing is read, validated or upserted. *)
Theorem C8_push_strategy_question_never_shown (W : World) (credentialMetadata : obj) :
  quiet (fun e => is_push_strategy_question e = false)
        (Legacy.askForPushCerts W credentialMetadata)
  /\ (process_env W "EXP_PUSH_CERTIFICATE_PATH" = None ->
      process_env W "EXP_PUSH_CERTIFICATE_PASSWORD" = None ->
      forall h,
        let es := snd (Legacy.askForPushCerts W credentialMetadata h) in
        (exists path password,
            questions_shown es = [EvAsk "pathToP12" (JStr path);
                                  EvAsk "certPassword" (JStr password)])
        /\ filter is_managed_generation es
           = [EvCall (Credentials_fetchPushCertificates credentialMetadata)]
        /\ Forall (fun c => c = Credentials_fetchPushCertificates credentialMetadata
                            \/ exists p, c = fs_stat p) (calls es)).
Proof.
  split.
  - unfold Legacy.askForPushCerts.
    set (ea0 := [("pathToP12", env W "EXP_PUSH_CERTIFICATE_PATH");
                 ("certPassword", env W "EXP_PUSH_CERTIFICATE_PASSWORD");
                 ("managePushCertificates", JBool true)]).
    set (ea := if truthy (get ea0 "pathToP12") || truthy (get ea0 "certPassword")
               then set "managePushCertificates" (JBool false) ea0 else ea0).
    assert (Hea : truthy (get ea "manageCertificates") = false).
    { subst ea ea0. destruct (_ || _); reflexivity. }
    clearbody ea. clear ea0.
    apply quiet_bind; [|intros [answers ea']; quiet_auto].
    unfold prompt_with. cbn [prompt_from q_when q_name].
    apply quiet_bind_post with (Q := fun r : bool * obj => fst r = false).
    + unfold Legacy.when_manage. quiet_auto.
    + intros h [shown s] Hrun. rewrite when_manage_hidden in Hrun by assumption.
      now inversion Hrun.
    + intros [shown s] Hshown. simpl in Hshown. subst shown.
      apply quiet_bind; [apply quiet_when_path; reflexivity|].
      intros [shown s']. destruct shown.
      * apply quiet_bind; [apply quiet_ask; reflexivity|]. intros v.
        apply quiet_bind; [apply quiet_when_password; reflexivity|].
        intros [shown s'']. destruct shown; quiet_auto.
      * apply quiet_bind; [apply quiet_when_password; reflexivity|].
        intros [shown s'']. destruct shown; quiet_auto.
  - intros Hp Hpw h. unfold Legacy.askForPushCerts, env. rewrite Hp, Hpw.
    unfold prompt_with, bind, call. simpl.
    destruct (reply_fetchPushCertificates W _ credentialMetadata); simpl;
      (split; [eauto|]; split; [reflexivity|]; repeat constructor).
Qed.

Lemma C8_witness :
  (exists path password,
      questions_shown (snd (Legacy.askForPushCerts declining_world ios_metadata []))
      = [EvAsk "pathToP12" (JStr path); EvAsk "certPassword" (JStr password)])
  /\ filter is_managed_generation
            (snd (Legacy.askForPushCerts declining_world ios_metadata []))
     = [EvCall (Credentials_fetchPushCertificates ios_metadata)]
  /\ Forall (fun c => c = Credentials_fetchPushCertificates ios_metadata
                      \/ exists p, c = fs_stat p)
            (calls (snd (Legacy.askForPushCerts declining_world ios_metadata []))).
Proof.
  exact (proj2 (C8_push_strategy_question_never_shown declining_world ios_metadata)
               eq_refl eq_refl []).
Defined.

(** The sibling prompt of the distribution certificate does show its
    strategy question when neither of its variables is set. *)
Example askForCerts_shows_strategy_question :
  questions_shown (snd (Legacy.askForCerts declining_world ios_metadata []))
  = [EvAsk "manageCertificates" (JBool true)]
  /\ questions_shown (snd (Legacy.askForPushCerts declining_world ios_metadata []))
     = [EvAsk "pathToP12" (JStr "typed pathToP12");
        EvAsk "certPassword" (JStr "typed certPassword")].
Proof. split; reflexivity. Qed.

(** In general: with neither variable of the distribution certificate set,
    the first question of its prompt is the strategy question. *)
Lemma askForCerts_strategy_question_shown W metadata h :
  process_env W "EXP_DIST_CERTIFICATE_PATH" = None ->
  process_env W "EXP_DIST_CERTIFICATE_PASSWORD" = None ->
  exists v rest,
    questions_shown (snd (Legacy.askForCerts W metadata h))
    = EvAsk "manageCertificates" v :: rest.
Proof.
  intros Hp Hpw. unfold Legacy.askForCerts, env. rewrite Hp, Hpw.
  run_sym.
  repeat (destruct_stuck; run_sym); eauto.
Qed.

(** And with no Android variable set and no keystore stored, the first
    question of the Android flow is the strategy question. *)
Lemma android_strategy_question_shown W projectDir options h args :
  process_env W "EXP_ANDROID_KEYSTORE_PATH" = None ->
  process_env W "EXP_ANDROID_KEYSTORE_ALIAS" = None ->
  process_env W "EXP_ANDROID_STORE_PASSWORD" = None ->
  process_env W "EXP_ANDROID_KEY_PASSWORD" = None ->
  reply_getPublishInfoAsync W h projectDir = inr args ->
  reply_credentialsExistForPlatformAsync
    W (h ++ [EvCall (Exp_getPublishInfoAsync projectDir)])%list (android_metadata args)
  = inr None ->
  exists v rest,
    questions_shown (snd (Android.collectAndValidateCredentials W projectDir options h))
    = EvAsk "uploadKeystore" v :: rest.
Proof.
  intros H1 H2 H3 H4 Hargs Hstored.
  unfold Android.collectAndValidateCredentials, env. rewrite H1, H2, H3, H4.
  unfold bind at 1, call at 1. rewrite Hargs. fold (android_metadata args).
  unfold bind at 1, call at 1. rewrite Hstored. rewrite orb_true_r.
  run_sym.
  repeat (destruct_stuck; run_sym); eauto.
Qed.

(** ** The commit of the batch iOS builder *)

Section PostRules.
Context {A B : Type}.





End PostRules.

Lemma post_trivial {A} (m : M A) : post m (fun _ => True).
Proof. intros h a _. exact I. Qed.

(** Events around the only element satisfying [p] are determined. *)
Lemma split_unique {X} (p : X -> bool) (a b a' b' : list X) (x x' : X) :
  Forall (fun e => p e = false) a ->
  Forall (fun e => p e = false) b ->
  p x' = true ->
  (a ++ x :: b = a' ++ x' :: b')%list ->
  a = a' /\ x = x' /\ b = b'.
Proof.
  intros Ha Hb Hx'. revert a' Ha. induction a as [|y a IH]; intros a' Ha Heq.
  - destruct a' as [|y' a']; simpl in Heq.
    + inversion Heq; subst. auto.
    + inversion Heq; subst. exfalso.
      rewrite Forall_forall in Hb. specialize (Hb x').
      rewrite Hb in Hx'; [discriminate|]. apply in_or_app. right. now left.
  - inversion Ha as [|? ? Hy Ha']; subst.
    destruct a' as [|y' a']; simpl in Heq.
    + inversion Heq; subst. congruence.
    + inversion Heq; subst. destruct (IH a' Ha' H1) as (-> & -> & ->). auto.
Qed.


Lemma missing_warning_not_upsert creds :
  Forall (fun e => is_upsert e = false) (missing_warning creds).
Proof. unfold missing_warning. destruct (negb _); repeat constructor. Qed.

Lemma credsMissing_nil (creds : obj) :
  forallb (has creds) IOS.OBLIGATORY_CREDS_KEYS = true -> IOS.credsMissing creds = [].
Proof.
  unfold IOS.credsMissing. generalize IOS.OBLIGATORY_CREDS_KEYS.
  induction l as [|k l IH]; simpl; [reflexivity|].
  intros H. apply andb_true_iff in H as [Hk Hl]. rewrite Hk. simpl. auto.
Qed.

(** The closing steps of both branches: warn, upsert, log. *)
Lemma commit_runs W (creds metadata : obj) (Q : obj -> Prop) (h : Hist) :
  Q creds ->
  commit_shape Q metadata
    ((IOS._areCredsMissing creds None tt ;;
      call (Credentials_updateCredentialsForPlatform "ios" creds metadata)
           (fun h => reply_updateCredentialsForPlatform W h "ios" creds metadata) ;;
      log_warn IOS.encrypted_message) h).
Proof.
  intros HQ. right. exists [], creds. split; [constructor|]. split; [exact HQ|].
  unfold IOS._areCredsMissing, bind, call, missing_warning, ios_upsert.
  destruct (negb _); simpl;
    destruct (reply_updateCredentialsForPlatform W _ "ios" creds metadata) as [e|[]];
    simpl; eauto.
Qed.

Lemma commit_shape_prefix (Q : obj -> Prop) metadata (pre : list Event) r es :
  Forall (fun e => is_upsert e = false) pre ->
  commit_shape Q metadata (r, es) ->
  commit_shape Q metadata (r, (pre ++ es)%list).
Proof.
  intros Hpre [Hno | (res & creds & Hres & HQ & Hes)].
  - left. simpl in *. apply Forall_app; auto.
  - right. exists (pre ++ res)%list, creds. split; [apply Forall_app; auto|].
    split; [exact HQ|]. simpl in *.
    destruct Hes as [[-> He] | [-> He]]; [left | right]; rewrite <- app_assoc; auto.
Qed.

(** A step that does not upsert, followed by steps of the shape, has the
    shape; the later steps may rely on what the first guarantees. *)
Lemma commit_shape_bind {A} (Q : obj -> Prop) metadata (Qa : A -> Prop)
      (m : M A) (f : A -> M unit) :
  quiet (fun e => is_upsert e = false) m ->
  post m Qa ->
  (forall a, Qa a -> forall h, commit_shape Q metadata (f a h)) ->
  forall h, commit_shape Q metadata (bind m f h).
Proof.
  intros Hm Hpost Hf h. unfold bind. specialize (Hm h). specialize (Hpost h).
  destruct (m h) as [[e|a] es]; simpl in *.
  - left. exact Hm.
  - specialize (Hf a (Hpost a eq_refl) (h ++ es)%list).
    destruct (f a (h ++ es)%list) as [r es']. now apply commit_shape_prefix.
Qed.

Lemma commit_shape_bind_any {A} (Q : obj -> Prop) metadata (m : M A) (f : A -> M unit) :
  quiet (fun e => is_upsert e = false) m ->
  (forall a h, commit_shape Q metadata (f a h)) ->
  forall h, commit_shape Q metadata (bind m f h).
Proof.
  intros Hm Hf. apply commit_shape_bind with (Qa := fun _ => True); auto using post_trivial.
Qed.

Lemma quiet_prompt P W (qs : list (Question unit)) :
  Forall (fun q => q_when q = None) qs ->
  (forall name v, P (EvAsk name v)) ->
  quiet P (prompt W qs).
Proof.
  intros Hqs HP. unfold prompt, prompt_with.
  apply quiet_bind; [|intros [answers u]; apply quiet_ret].
  apply quiet_prompt_from. eapply Forall_impl; [|exact Hqs].
  intros q Hq. split; [auto|]. intros w Hw. congruence.
Qed.

Ltac no_when := repeat constructor.

Lemma quiet_userProvidedOverride P W credsStarter choice :
  (forall name v, P (EvAsk name v)) -> (forall l p, P (EvLog l p)) ->
  (forall p, P (EvCall (fs_readFile p))) ->
  quiet P (IOS.userProvidedOverride W credsStarter choice).
Proof.
  intros Hask Hlog Hread. unfold IOS.userProvidedOverride.
  repeat match goal with
         | |- quiet _ (if ?b then _ else _) => destruct b
         end;
    try apply quiet_throw;
    (apply quiet_bind; [apply quiet_emit, Hlog | intros _]);
    (apply quiet_bind; [apply quiet_prompt; [no_when | exact Hask] | intros answers]);
    quiet_auto.
Qed.

Lemma quiet_throwIfFailure P W reply :
  (forall l p, P (EvLog l p)) -> quiet P (IOS._throwIfFailureWithReasonDump W reply).
Proof. intros Hlog. unfold IOS._throwIfFailureWithReasonDump. quiet_auto. Qed.

Lemma quiet_ensureAppExists P W appleCreds metadata teamId credsStarter :
  (forall l p, P (EvLog l p)) ->
  P (EvCall (authFuncs_ensureAppIdLocally appleCreds metadata teamId)) ->
  P (EvCall (authFuncs_createAppOnPortal appleCreds metadata teamId)) ->
  quiet P (IOS._ensureAppExists W appleCreds metadata teamId credsStarter).
Proof.
  intros Hlog H1 H2. unfold IOS._ensureAppExists.
  apply quiet_bind; [now apply quiet_call | intros attempt].
  apply quiet_bind; [quiet_auto | intros noBundleId].
  apply quiet_bind; [destruct noBundleId; [now apply quiet_call | apply quiet_ret] | intros].
  apply quiet_bind; [now apply quiet_throwIfFailure | intros; apply quiet_ret].
Qed.




Lemma quiet_runningAsExpert P W credsStarter :
  (forall name v, P (EvAsk name v)) -> (forall l p, P (EvLog l p)) ->
  (forall p, P (EvCall (fs_readFile p))) ->
  quiet P (IOS.runningAsExpert W credsStarter).
Proof.
  intros Hask Hlog Hread. unfold IOS.runningAsExpert.
  apply quiet_bind; [apply quiet_emit, Hlog | intros _].
  apply quiet_for_of. intros c choice. now apply quiet_userProvidedOverride.
Qed.

(** What the steps of the batch flow guarantee of the bundle. *)











Example expert_run_commits_complete_bundle :
  let es := snd (IOS.runLocalAuth expert_world default_options ios_metadata []) in
  es = (before_upsert es
          ++ EvCall (Credentials_updateCredentialsForPlatform
                       "ios"
                       [("teamId", JStr "TEAM"); ("certP12", JStr "TWFu");
                        ("certPassword", JStr "typed p12Password");
                        ("pushP12", JStr "TWFu");
                        ("pushPassword", JStr "typed p12Password");
                        ("provisioningProfile", JStr "TWFu")]
                       ios_metadata)
          :: after_upsert es)%list.
Proof. vm_compute. reflexivity. Qed.

(** ** Environment overrides *)

Lemma android_environment_override W projectDir options :
  truthy (env W "EXP_ANDROID_KEYSTORE_PATH") = true ->
  truthy (env W "EXP_ANDROID_KEYSTORE_ALIAS") = true ->
  truthy (env W "EXP_ANDROID_STORE_PASSWORD") = true ->
  truthy (env W "EXP_ANDROID_KEY_PASSWORD") = true ->
  forall h,
    let es := snd (Android.collectAndValidateCredentials W projectDir options h) in
    Forall (fun e => is_prompt e = false) es
    /\ forall creds m,
        In (EvCall (Credentials_updateCredentialsForPlatform "android" creds m)) es ->
        exists h' path data,
          env W "EXP_ANDROID_KEYSTORE_PATH" = JStr path
          /\ reply_readFile W h' path = inr data
          /\ creds = [("keystore", JStr (base64 data));
                      ("keystoreAlias", env W "EXP_ANDROID_KEYSTORE_ALIAS");
                      ("keystorePassword", env W "EXP_ANDROID_STORE_PASSWORD");
                      ("keyPassword", env W "EXP_ANDROID_KEY_PASSWORD")].
Proof.
  intros T1 T2 T3 T4 h. cbv zeta.
  generalize (eq_refl (Android.collectAndValidateCredentials W projectDir options h)).
  generalize (Android.collectAndValidateCredentials W projectDir options h) at 1 3 4.
  intros out. unfold Android.collectAndValidateCredentials.
  generalize dependent (env W "EXP_ANDROID_KEYSTORE_PATH"). intros v1 T1.
  generalize dependent (env W "EXP_ANDROID_KEYSTORE_ALIAS"). intros v2 T2.
  generalize dependent (env W "EXP_ANDROID_STORE_PASSWORD"). intros v3 T3.
  generalize dependent (env W "EXP_ANDROID_KEY_PASSWORD"). intros v4 T4.
  unfold bind at 1, call at 1.
  destruct (reply_getPublishInfoAsync W h projectDir) as [e|args].
  { intros ->. split; [repeat constructor | intros creds m Hin; in_cases Hin]. }
  unfold bind at 1, call at 1.
  destruct (reply_credentialsExistForPlatformAsync W _ _) as [e|credentials].
  { intros ->. split; [repeat constructor | intros creds m Hin; in_cases Hin]. }
  destruct (clearCredentials options || _).
  2:{ intros ->. split; [repeat constructor | intros creds m Hin; in_cases Hin]. }
  run_sym.
  destruct v1 as [| | | |p| |]; run_sym;
    try solve [intros ->; split; [repeat constructor | intros creds m Hin; in_cases Hin]].
  destruct (reply_readFile W _ p) as [e|data] eqn:Hread; run_sym.
  { intros ->. split; [repeat constructor | intros creds m Hin; in_cases Hin]. }
  intros ->. split; [repeat constructor|].
  intros creds m Hin. in_cases Hin. inversion Hin; subst.
  do 3 eexists. split; [reflexivity|]. split; [exact Hread | reflexivity].
Qed.

Lemma askForCerts_environment_override W metadata p :
  env W "EXP_DIST_CERTIFICATE_PATH" = JStr p ->
  p <> "" ->
  truthy (env W "EXP_DIST_CERTIFICATE_PASSWORD") = true ->
  (forall h, reply_stat_isFile W h p = inr true) ->
  forall h,
    let es := snd (Legacy.askForCerts W metadata h) in
    Forall (fun e => is_prompt e = false) es
    /\ forall creds m,
        In (EvCall (Credentials_updateCredentialsForPlatform "ios" creds m)) es ->
        exists h' data,
          reply_readFile W h' p = inr data
          /\ creds = [("certP12", JStr (base64 data));
                      ("certPassword", env W "EXP_DIST_CERTIFICATE_PASSWORD")].
Proof.
  intros Hp Np T2 Hstat h. cbv zeta. unfold Legacy.askForCerts. rewrite Hp.
  generalize dependent (env W "EXP_DIST_CERTIFICATE_PASSWORD"). intros v2 T2.
  apply String.eqb_neq in Np.
  run_sym.
  destruct (reply_readFile W _ p) as [e|data] eqn:Hread; run_sym.
  { split; [repeat constructor | intros creds m Hin; in_cases Hin]. }
  destruct (reply_validateCredentialsForPlatform W _ _ _ _ _) as [e|[]]; run_sym.
  { split; [repeat constructor | intros creds m Hin; in_cases Hin]. }
  destruct (reply_updateCredentialsForPlatform W _ _ _ _) as [e|[]]; run_sym;
    (split; [repeat constructor|]; intros creds m Hin; in_cases Hin;
     inversion Hin; subst; eauto).
Qed.

Lemma askForPushCerts_environment_override W metadata p :
  env W "EXP_PUSH_CERTIFICATE_PATH" = JStr p ->
  p <> "" ->
  truthy (env W "EXP_PUSH_CERTIFICATE_PASSWORD") = true ->
  (forall h, reply_stat_isFile W h p = inr true) ->
  forall h,
    let es := snd (Legacy.askForPushCerts W metadata h) in
    Forall (fun e => is_prompt e = false) es
    /\ forall creds m,
        In (EvCall (Credentials_updateCredentialsForPlatform "ios" creds m)) es ->
        exists h' data,
          reply_readFile W h' p = inr data
          /\ creds = [("pushP12", JStr (base64 data));
                      ("pushPassword", env W "EXP_PUSH_CERTIFICATE_PASSWORD")].
Proof.
  intros Hp Np T2 Hstat h. cbv zeta. unfold Legacy.askForPushCerts. rewrite Hp.
  generalize dependent (env W "EXP_PUSH_CERTIFICATE_PASSWORD"). intros v2 T2.
  apply String.eqb_neq in Np.
  run_sym.
  destruct (reply_readFile W _ p) as [e|data] eqn:Hread; run_sym.
  { split; [repeat constructor | intros creds m Hin; in_cases Hin]. }
  destruct (reply_validateCredentialsForPlatform W _ _ _ _ _) as [e|[]]; run_sym.
  { split; [repeat constructor | intros creds m Hin; in_cases Hin]. }
  destruct (reply_updateCredentialsForPlatform W _ _ _ _) as [e|[]]; run_sym;
    (split; [repeat constructor|]; intros creds m Hin; in_cases Hin;
     inversion Hin; subst; eauto).
Qed.

Lemma askForAppleId_environment_override W metadata :
  truthy (env W "EXP_APPLE_ID") = true ->
  truthy (env W "EXP_APPLE_PASSWORD") = true ->
  truthy (env W "EXP_APPLE_TEAM_ID") = true ->
  forall h,
    let es := snd (Legacy.askForAppleId W metadata h) in
    Forall (fun e => is_prompt e = false) es
    /\ forall creds m,
        In (EvCall (Credentials_updateCredentialsForPlatform "ios" creds m)) es ->
        creds = [("appleId", env W "EXP_APPLE_ID");
                 ("password", env W "EXP_APPLE_PASSWORD");
                 ("teamId", env W "EXP_APPLE_TEAM_ID")].
Proof.
  intros T1 T2 T3 h. cbv zeta. unfold Legacy.askForAppleId.
  generalize dependent (env W "EXP_APPLE_ID"). intros v1 T1.
  generalize dependent (env W "EXP_APPLE_PASSWORD"). intros v2 T2.
  generalize dependent (env W "EXP_APPLE_TEAM_ID"). intros v3 T3.
  run_sym.
  destruct (reply_validateCredentialsForPlatform W _ _ _ _ _) as [e|[]]; run_sym.
  { split; [repeat constructor | intros creds m Hin; in_cases Hin]. }
  split; [repeat constructor|]. intros creds m Hin. in_cases Hin.
  inversion Hin; subst. reflexivity.
Qed.

Lemma android_cached_ignores_environment W projectDir options h args existing :
  clearCredentials options = false ->
  reply_getPublishInfoAsync W h projectDir = inr args ->
  reply_credentialsExistForPlatformAsync
    W (h ++ [EvCall (Exp_getPublishInfoAsync projectDir)])%list (android_metadata args)
  = inr (Some existing) ->
  Android.collectAndValidateCredentials W projectDir options h
  = (inr tt,
     [EvCall (Exp_getPublishInfoAsync projectDir);
      EvCall (Credentials_credentialsExistForPlatformAsync (android_metadata args))]).
Proof.
  intros Hclear Hargs Hstored.
  unfold Android.collectAndValidateCredentials, bind, call.
  rewrite Hargs. fold (android_metadata args). rewrite Hstored, Hclear. reflexivity.
Qed.

Lemma runLocalAuth_ignores_environment_outside_ci W options metadata environment :
  useCi options = false ->
  IOS.runLocalAuth (with_env W environment) options metadata
  = IOS.runLocalAuth W options metadata.
Proof.
  intros Hci. destruct options as [clear ci ty]. simpl in Hci. subst ci. reflexivity.
Qed.

Lemma legacy_cached_is_validated W options username experienceName bundleIdentifier :
  clearCredentials options = false ->
  (forall h m stored,
      reply_credentialsExistForPlatformAsync W h m = inr stored ->
      exists existing, stored = Some existing /\ holds_all_slots existing) ->
  quiet (fun e => is_resolution e = false)
        (Legacy.collectAndValidateCredentials W options username experienceName
                                              bundleIdentifier).
Proof.
  intros Hclear Hstored. unfold Legacy.collectAndValidateCredentials. rewrite Hclear.
  apply quiet_bind; [quiet_auto | intros _].
  apply quiet_bind_post
    with (Q := fun stored => exists existing, stored = Some existing /\ holds_all_slots existing).
  - quiet_auto.
  - intros h stored H. unfold call in H. simpl in H. eauto.
  - intros stored (existing & -> & T1 & T2 & T3). rewrite T1, T2, T3.
    unfold Legacy.validate_existing. quiet_auto.
Qed.
Arguments IOS._copyOverAsString : simpl never.

Lemma env_string_or_undefined W name :
  (if isString (env W name) then env W name else JSON_stringify (env W name)) = env W name.
Proof. unfold env. destruct (process_env W name); reflexivity. Qed.

Lemma post_runningAsCI_environment W credsStarter metadata :
  post (IOS.runningAsCI W credsStarter metadata) (from_ci_environment W).
Proof.
  intros h c. unfold IOS.runningAsCI. run_sym.
  destruct (env W "EXP_PROVIONING_PROFILE_PATH") as [| | | |p3| |] eqn:E3;
    run_sym; try discriminate.
  destruct (reply_readFile W _ p3) as [e|d3] eqn:R3; run_sym; try discriminate.
  destruct (env W "EXP_DIST_CERTIFICATE_PATH") as [| | | |p1| |] eqn:E1;
    run_sym; try discriminate.
  destruct (reply_readFile W _ p1) as [e|d1] eqn:R1; run_sym; try discriminate.
  destruct (env W "EXP_PUSH_CERTIFICATE_PATH") as [| | | |p2| |] eqn:E2;
    run_sym; try discriminate.
  destruct (reply_readFile W _ p2) as [e|d2] eqn:R2; run_sym; try discriminate.
  intros H. inversion H; subst c. clear H.
  unfold from_ci_environment, from_file.
  rewrite !copyOverAsString_copied by reflexivity. simpl.
  rewrite !env_string_or_undefined.
  repeat split; eauto 10.
Qed.

Lemma commit_shape_in (Q : obj -> Prop) metadata out creds m :
  commit_shape Q metadata out ->
  In (EvCall (Credentials_updateCredentialsForPlatform "ios" creds m)) (snd out) ->
  Q creds.
Proof.
  intros [Hno | (res & creds' & Hres & HQ & Hes)] Hin.
  - rewrite Forall_forall in Hno. apply Hno in Hin. discriminate.
  - assert (Hcases : In (EvCall (Credentials_updateCredentialsForPlatform "ios" creds m))
                        (res ++ missing_warning creds'
                             ++ [ios_upsert creds' metadata;
                                 EvLog LWarn (Text IOS.encrypted_message)])%list).
    { destruct Hes as [[Hes _] | [Hes _]]; rewrite Hes in Hin; [|exact Hin].
      apply in_app_or in Hin as [Hin|Hin]; [apply in_or_app; now left|].
      apply in_app_or in Hin as [Hin|Hin]; apply in_or_app; right; apply in_or_app;
        [now left | right]. destruct Hin as [Hin|[]]. now left. }
    apply in_app_or in Hcases as [Hin'|Hin'].
    { rewrite Forall_forall in Hres. apply Hres in Hin'. discriminate. }
    apply in_app_or in Hin' as [Hin'|Hin'].
    { pose proof (missing_warning_not_upsert creds') as Hw.
      rewrite Forall_forall in Hw. apply Hw in Hin'. discriminate. }
    destruct Hin' as [Hin'|[Hin'|[]]]; [|discriminate].
    unfold ios_upsert in Hin'. inversion Hin'; subst. exact HQ.
Qed.

(** In CI mode the bundle committed is what [runningAsCI] returns. *)
Lemma runLocalAuth_ci_commit_shape W options metadata (Q : obj -> Prop) :
  useCi options = true ->
  (forall c, post (IOS.runningAsCI W c metadata) Q) ->
  forall h, commit_shape Q metadata (IOS.runLocalAuth W options metadata h).
Proof.
  intros Hci HQ. unfold IOS.runLocalAuth. rewrite Hci.
  apply commit_shape_bind_any; [apply quiet_call; reflexivity|]. intros fetched.
  apply commit_shape_bind_any.
  { destruct fetched; [|apply quiet_ret].
    apply quiet_bind; [apply quiet_areCredsMissing; reflexivity | intros; apply quiet_ret]. }
  intros [credsStarter clientHasAllNeededCreds].
  apply commit_shape_bind with (Qa := Q).
  - apply quiet_runningAsCI. reflexivity.
  - apply HQ.
  - intros c Hc h. now apply commit_runs.
Qed.

Example android_fresh_run_uses_environment :
  calls (snd (Android.run android_fresh_world "." default_options []))
  = [this_checkStatus;
     Exp_getPublishInfoAsync ".";
     Credentials_credentialsExistForPlatformAsync (android_metadata example_args);
     fs_readFile (JStr "release.jks");
     Credentials_updateCredentialsForPlatform "android"
       [("keystore", JStr "TWFu"); ("keystoreAlias", JStr "alias");
        ("keystorePassword", JStr "store-pw"); ("keyPassword", JStr "key-pw")]
       (android_metadata example_args);
     this_publish;
     this_build (JArr [JStr "exp-id"]) "android"]
  /\ questions_shown (snd (Android.run android_fresh_world "." default_options [])) = [].
Proof. split; vm_compute; reflexivity. Qed.

(** The per-field iOS flow on a fresh store with every variable set: no
    question is shown and the three slots are committed from the
    environment. *)
Example legacy_fresh_run_uses_environment :
  questions_shown (snd (Legacy.run legacy_fresh_world "." default_options [])) = []
  /\ map (fun c => match c with
                   | Credentials_updateCredentialsForPlatform _ creds _ => keys creds
                   | _ => []
                   end)
         (calls (filter is_upsert (snd (Legacy.run legacy_fresh_world "." default_options []))))
     = [["appleId"; "password"; "teamId"];
        ["certP12"; "certPassword"];
        ["pushP12"; "pushPassword"]].
Proof. vm_compute. split; reflexivity. Qed.

(** The same environment with a stored bundle: the stored values are
    validated and nothing is resolved or committed. *)
Example legacy_stored_run_ignores_environment :
  filter is_resolution (snd (Legacy.run legacy_stored_world "." default_options [])) = [].
Proof. vm_compute. reflexivity. Qed.

(** ** Failures of managed generation: no call is repeated *)
















(** With any other failure of the check no app is created. *)
Lemma ensureAppExists_other_failure_is_terminal
      (W : World) (appleCreds metadata : obj) (teamId : jsval) (credsStarter : obj)
      (h : Hist) (attempt : obj) (reason : string) :
  reply_ensureAppIdLocally W h appleCreds metadata teamId = inr attempt ->
  get attempt "result" = JStr "failure" ->
  get attempt "reason" = JStr reason ->
  startsWith reason (NO_BUNDLE_ID W) = false ->
  fst (IOS._ensureAppExists W appleCreds metadata teamId credsStarter h)
  = inl (Error (IOS.failure_message attempt))
  /\ calls (snd (IOS._ensureAppExists W appleCreds metadata teamId credsStarter h))
     = [authFuncs_ensureAppIdLocally appleCreds metadata teamId].
Proof.
  intros Hr Hres Hreason Hpre.
  unfold IOS._ensureAppExists, IOS._throwIfFailureWithReasonDump, bind, call.
  rewrite Hr, Hres. simpl. rewrite Hreason. simpl. rewrite Hpre. simpl. rewrite Hres.
  destruct (DEBUG W); simpl; split; reflexivity.
Qed.







(** The whole run: the operator lets the service handle everything, the
    profile generation fails, the run ends in that error with no upsert. *)
Example multiple_profiles_run :
  fst (IOS.run multiple_profiles_run_world "." default_options [])
  = inl (Error (IOS.failure_message
                  (failure_reply "Multiple profiles found with the name 'com.alice.app AppStore'"
                                 "produceProvisionProfile")))
  /\ existsb is_upsert (snd (IOS.run multiple_profiles_run_world "." default_options []))
     = false
  /\ length (filter is_profile_generation
                    (snd (IOS.run multiple_profiles_run_world "." default_options []))) = 1.
Proof. repeat split; vm_compute; reflexivity. Qed.

(** ** The commit within a whole run *)











(** * Further properties of the builders *)

(** ** [_copyOverAsString] *)





(** ** [_areCredsMissing] *)

Lemma credsMissing_spec (creds : obj) (k : string) :
  In k (IOS.credsMissing creds) <-> In k IOS.OBLIGATORY_CREDS_KEYS /\ has creds k = false.
Proof.
  unfold IOS.credsMissing. rewrite filter_In.
  destruct (has creds k); simpl; intuition congruence.
Qed.

Lemma credsMissing_nil_iff (creds : obj) :
  IOS.credsMissing creds = [] <-> forallb (has creds) IOS.OBLIGATORY_CREDS_KEYS = true.
Proof.
  split; [|apply credsMissing_nil].
  intros Hnil. apply forallb_forall. intros k Hk.
  destruct (has creds k) eqn:E; [reflexivity|].
  assert (In k (IOS.credsMissing creds)) as Hin by (apply credsMissing_spec; auto).
  rewrite Hnil in Hin. destruct Hin.
Qed.

Lemma fold_action_false (l : list string) :
  fold_left (fun (s : bool) (_ : string) => false) l true
  = match l with [] => true | _ => false end.
Proof.
  destruct l as [|x l]; [reflexivity|]. simpl.
  induction l as [|y l IH]; simpl; auto.
Qed.

(** X2.  [_areCredsMissing] never throws and makes no call.  It goes by the
    presence of the six obligatory keys, whatever they hold: with all six
    present it logs nothing and leaves the caller's flag set; otherwise it
    logs one warning that lists exactly the absent keys and the callback
    clears the flag. *)
Theorem areCredsMissing_by_key_presence (creds : obj) (h : Hist) :
  let r := IOS._areCredsMissing creds (Some (fun _ : bool => false)) true h in
  (forallb (has creds) IOS.OBLIGATORY_CREDS_KEYS = true /\ r = (inr true, []))
  \/ (forallb (has creds) IOS.OBLIGATORY_CREDS_KEYS = false
      /\ exists missing,
          r = (inr false,
               [EvLog LWarn (Text ("We do not have some credentials for you, "
                                     ++ join "," missing))])
          /\ missing <> []
          /\ forall k, In k missing
                       <-> In k IOS.OBLIGATORY_CREDS_KEYS /\ has creds k = false).
Proof.
  intros r. subst r. unfold IOS._areCredsMissing.
  rewrite fold_action_false.
  destruct (IOS.credsMissing creds) as [|k0 ks] eqn:E.
  - left. split; [now apply credsMissing_nil_iff | reflexivity].
  - right. split.
    + destruct (forallb (has creds) IOS.OBLIGATORY_CREDS_KEYS) eqn:F; [|reflexivity].
      apply credsMissing_nil_iff in F. congruence.
    + exists (k0 :: ks). split; [reflexivity|]. split; [discriminate|].
      intros k. rewrite <- E. apply credsMissing_spec.
Qed.

(** A bundle whose six keys all hold [undefined] is complete for
    [_areCredsMissing]. *)
Example areCredsMissing_undefined_values :
  IOS._areCredsMissing
    [("certP12", JUndefined); ("certPassword", JUndefined); ("pushP12", JUndefined);
     ("pushPassword", JUndefined); ("provisioningProfile", JUndefined);
     ("teamId", JUndefined)]
    (Some (fun _ : bool => false)) true []
  = (inr true, []).
Proof. reflexivity. Qed.

(** ** Properties of traces that compose *)

Section Always.
Variable T : Hist -> list Event -> Prop.
Hypothesis T_nil : forall h, T h [].
Hypothesis T_app : forall h a b, T h a -> T (h ++ a)%list b -> T h (a ++ b)%list.

Lemma always_ret {A} (a : A) : always T (ret a).
Proof. intros h. apply T_nil. Qed.

Lemma always_throw {A} e : always T (@throw A e).
Proof. intros h. apply T_nil. Qed.

Lemma always_bind {A B} (m : M A) (f : A -> M B) :
  always T m -> (forall a, always T (f a)) -> always T (bind m f).
Proof.
  intros Hm Hf h. unfold bind. specialize (Hm h).
  destruct (m h) as [[e|a] es]; simpl in *; auto.
  specialize (Hf a (h ++ es)%list).
  destruct (f a (h ++ es)%list) as [r es']; simpl in *. auto.
Qed.

Lemma always_try_catch {A} (m : M A) (handler : Exn -> M A) :
  always T m -> (forall e, always T (handler e)) -> always T (try_catch m handler).
Proof.
  intros Hm Hf h. unfold try_catch. specialize (Hm h).
  destruct (m h) as [[e|a] es]; simpl in *; auto.
  specialize (Hf e (h ++ es)%list).
  destruct (handler e (h ++ es)%list) as [r es']; simpl in *. auto.
Qed.

Lemma always_when_ b (m : M unit) : always T m -> always T (when_ b m).
Proof. intros Hm. destruct b; simpl; [exact Hm | apply always_ret]. Qed.

Lemma always_of_quiet {A} (P : Event -> Prop) (m : M A) :
  (forall h es, Forall P es -> T h es) -> quiet P m -> always T m.
Proof. intros HP Hm h. apply HP, Hm. Qed.
End Always.

(** Where an event that satisfies [p] sits in a concatenation. *)
Lemma app_eq_middle {X} (a b pre post : list X) (x : X) :
  (a ++ b = pre ++ x :: post)%list ->
  (exists post1, a = (pre ++ x :: post1)%list /\ post = (post1 ++ b)%list)
  \/ (exists pre2, pre = (a ++ pre2)%list /\ b = (pre2 ++ x :: post)%list).
Proof.
  revert pre. induction a as [|y a IH]; intros pre Heq; simpl in *.
  - right. exists pre. auto.
  - destruct pre as [|z pre]; simpl in *.
    + injection Heq as -> <-. left. exists a. auto.
    + injection Heq as -> Heq. destruct (IH _ Heq) as [[post1 [-> ->]]|[pre2 [-> ->]]].
      * left. exists post1. auto.
      * right. exists pre2. auto.
Qed.

Lemma not_in_middle {X} (p : X -> bool) (es pre post : list X) (x : X) :
  Forall (fun e => p e = false) es -> p x = true -> es <> (pre ++ x :: post)%list.
Proof.
  intros Hes Hx ->. apply Forall_app in Hes as [_ Hes].
  inversion Hes; congruence.
Qed.

(** ** A build is the last step *)

Lemma builds_last_throw W release released platform e :
  builds_last W release released platform (throw e).
Proof. intros h pre ids p post Heq. simpl in Heq. destruct pre; discriminate. Qed.

Lemma builds_last_bind {A} W release released platform (m : M A) (f : A -> M unit) :
  quiet (fun e => is_build e = false) m ->
  (forall a, builds_last W release released platform (f a)) ->
  builds_last W release released platform (bind m f).
Proof.
  intros Hm Hf h pre ids p post. unfold bind. specialize (Hm h).
  destruct (m h) as [[e|a] es]; simpl in *.
  - intros Heq. exfalso. exact (not_in_middle is_build _ pre post (EvCall (this_build ids p)) Hm eq_refl Heq).
  - specialize (Hf a (h ++ es)%list).
    destruct (f a (h ++ es)%list) as [r es'] eqn:Ef; simpl in *.
    intros Heq. apply app_eq_middle in Heq as [[post1 [Hes _]]|[pre2 [-> Hes']]].
    + exfalso. exact (not_in_middle is_build _ pre post1 (EvCall (this_build ids p)) Hm eq_refl Hes).
    + destruct (Hf pre2 ids p post Hes') as (Hpost & Hp & Hr & pre' & Hpre & Hrel).
      repeat split; auto.
      * now rewrite app_assoc.
      * exists (es ++ pre')%list. subst pre2. now rewrite !app_assoc.
Qed.

Lemma builds_last_release W release released platform :
  is_build (EvCall release) = false ->
  builds_last W release released platform
    (publishedExpIds <- call release released ;;
     call (this_build publishedExpIds platform)
          (fun h => reply_build W h publishedExpIds platform)).
Proof.
  intros Hrel h pre ids p post. unfold bind, call. simpl.
  destruct (released h) as [e|published] eqn:E; simpl.
  - intros Heq. destruct pre as [|x [|y pre]]; try discriminate.
    simpl in Heq. inversion Heq; subst. discriminate.
  - intros Heq. destruct pre as [|x [|y pre]]; simpl in Heq.
    + inversion Heq; subst. discriminate.
    + inversion Heq; subst. repeat split; auto.
      exists []. rewrite app_nil_r. auto.
    + destruct pre; discriminate.
Qed.

(** A call that is allowed and carries the platform and the metadata. *)
Ltac call_ok :=
  repeat (first [ progress (cbv beta iota delta
                              [footprint allowed_call about call_metadata call_platform])
                | split
                | progress intros ]);
  try match goal with H : Some _ = Some _ |- _ => injection H as <- end;
  try reflexivity; try discriminate.

(** The questions of a prompt, one by one. *)
Ltac quiet_questions :=
  apply quiet_prompt_from;
  repeat (apply Forall_cons;
          [ split;
            [ intros; first [solve [call_ok] | simpl; auto]
            | let w := fresh "w" in
              let Hw := fresh "Hw" in
              intros w Hw; simpl in Hw;
              first [ discriminate Hw
                    | injection Hw as <-; intros;
                      unfold Android.when_upload, Android.when_keystore,
                        Legacy.when_not_in_environment, Legacy.when_manage,
                        Legacy.when_path, Legacy.when_password,
                        Legacy.validateCertificatePath;
                      quiet_auto; try solve [call_ok] ] ]
          | ]);
  apply Forall_nil.

(** *** What the credential steps add to a trace *)

Ltac footprint_auto := quiet_auto; try solve [call_ok].

Lemma footprint_weaken {A} (allowed allowed' : Call -> bool) platform metadata (m : M A) :
  (forall c, allowed c = true -> allowed' c = true) ->
  quiet (footprint allowed platform metadata) m ->
  quiet (footprint allowed' platform metadata) m.
Proof.
  intros Hsub. apply quiet_weaken. intros [c| | |]; simpl; auto.
  intros [[Ha Hp] Hm]. repeat split; auto.
Qed.

Lemma quiet_clearCredentials W projectDir :
  quiet (allowed_call android_credential_call "android")
        (Android._clearCredentials W projectDir).
Proof.
  unfold Android._clearCredentials.
  apply quiet_bind; [footprint_auto | intros args].
  apply quiet_bind; [footprint_auto | intros localKeystoreExists].
  apply quiet_bind; [destruct localKeystoreExists; footprint_auto | intros _].
  do 3 (apply quiet_bind; [footprint_auto | intros _]).
  apply quiet_bind; [apply quiet_prompt; [no_when | simpl; auto] | intros answers].
  destruct (truthy (get answers "confirm")); footprint_auto.
Qed.

Lemma quiet_android_collect W projectDir options :
  quiet (allowed_call android_credential_call "android")
        (Android.collectAndValidateCredentials W projectDir options).
Proof.
  unfold Android.collectAndValidateCredentials.
  apply quiet_bind; [footprint_auto | intros args].
  apply quiet_bind; [footprint_auto | intros credentials].
  match goal with |- quiet _ (if ?b then _ else _) => destruct b end;
    [|apply quiet_ret].
  apply quiet_bind; [footprint_auto | intros _].
  apply quiet_bind; [unfold prompt_with, Android.questions; quiet_questions
                    | intros [answers environmentAnswers]].
  match goal with |- quiet _ (if ?b then _ else _) => destruct b end.
  - apply quiet_when_, quiet_clearCredentials; auto.
  - footprint_auto.
Qed.

Lemma quiet_askForAppleId W metadata :
  quiet (footprint legacy_credential_call "ios" metadata) (Legacy.askForAppleId W metadata).
Proof.
  unfold Legacy.askForAppleId.
  do 2 (apply quiet_bind; [footprint_auto | intros _]).
  apply quiet_bind; [unfold prompt_with; quiet_questions
                    | intros [answers environmentAnswers]].
  footprint_auto.
Qed.

Lemma quiet_askForCerts W metadata :
  quiet (footprint legacy_credential_call "ios" metadata) (Legacy.askForCerts W metadata).
Proof.
  unfold Legacy.askForCerts.
  apply quiet_bind; [footprint_auto | intros _].
  apply quiet_bind; [unfold prompt_with; quiet_questions; call_ok
                    | intros [answers environmentAnswers]].
  apply quiet_bind; [|intros _; footprint_auto].
  match goal with |- quiet _ (if ?b then _ else _) => destruct b end; footprint_auto.
Qed.

Lemma quiet_askForPushCerts W metadata :
  quiet (footprint legacy_credential_call "ios" metadata)
        (Legacy.askForPushCerts W metadata).
Proof.
  unfold Legacy.askForPushCerts.
  apply quiet_bind; [unfold prompt_with; quiet_questions; call_ok
                    | intros [answers environmentAnswers]].
  apply quiet_bind; [|intros _; footprint_auto].
  match goal with |- quiet _ (if ?b then _ else _) => destruct b end; footprint_auto.
Qed.

Lemma quiet_legacy_collect W options username experienceName bundleIdentifier :
  quiet (footprint legacy_credential_call "ios"
                   (literal [("username", username); ("experienceName", experienceName);
                             ("bundleIdentifier", bundleIdentifier);
                             ("platform", JStr "ios")]))
        (Legacy.collectAndValidateCredentials W options username experienceName
                                              bundleIdentifier).
Proof.
  unfold Legacy.collectAndValidateCredentials. cbv zeta.
  apply quiet_bind; [footprint_auto | intros _].
  apply quiet_bind; [footprint_auto | intros existingCredentials].
  destruct existingCredentials as [existing|]; [destruct (clearCredentials options)|];
    cbv beta iota;
    (apply quiet_bind;
     [destruct (negb _); [now apply quiet_askForAppleId
                         | unfold Legacy.validate_existing; footprint_auto]
     | intros _]);
    (apply quiet_bind; [footprint_auto | intros _]);
    (apply quiet_bind;
     [destruct (negb _); [now apply quiet_askForCerts
                         | unfold Legacy.validate_existing; footprint_auto]
     | intros _]);
    (apply quiet_bind; [footprint_auto | intros _]);
    (destruct (negb _); [now apply quiet_askForPushCerts
                        | unfold Legacy.validate_existing; footprint_auto]).
Qed.

Lemma quiet_runLocalAuth W options metadata :
  quiet (footprint local_auth_call "ios" metadata) (IOS.runLocalAuth W options metadata).
Proof.
  set (P := footprint local_auth_call "ios" metadata).
  assert (Hask : forall name v, P (EvAsk name v)) by (intros; split; exact I).
  assert (Hlog : forall l p, P (EvLog l p)) by (intros; split; exact I).
  assert (Hspin : forall op, P (EvSpinner op)) by (intros; split; exact I).
  assert (Hread : forall p, P (EvCall (fs_readFile p))) by (intros; call_ok).
  unfold IOS.runLocalAuth.
  apply quiet_bind; [apply quiet_call; call_ok | intros fetched].
  apply quiet_bind.
  { destruct fetched; [|apply quiet_ret].
    apply quiet_bind; [apply quiet_areCredsMissing; intros; apply Hlog|].
    intros; apply quiet_ret. }
  intros [credsStarter clientHasAllNeededCreds].
  destruct (useCi options).
  - apply quiet_bind; [apply quiet_runningAsCI; exact Hread | intros c].
    apply quiet_bind; [apply quiet_areCredsMissing; intros; apply Hlog | intros _].
    apply quiet_bind; [apply quiet_call; call_ok | intros _].
    apply quiet_emit, Hlog.
  - destruct (Bool.eqb clientHasAllNeededCreds false); [|apply quiet_emit, Hlog].
    apply quiet_bind; [apply quiet_prompt; [no_when | exact Hask] | intros strategy].
    apply quiet_bind.
    { unfold IOS._validateCredsEnsureAppExists, IOS.askForAppleCreds.
      apply quiet_bind.
      { apply quiet_bind; [destruct (Bool.eqb _ _); apply quiet_emit, Hlog | intros _].
        apply quiet_prompt; [no_when | exact Hask]. }
      intros appleCredentials.
      apply quiet_bind; [apply quiet_emit, Hlog | intros _].
      apply quiet_bind; [apply quiet_call; call_ok | intros checkCredsAttempt].
      apply quiet_bind; [apply quiet_throwIfFailure, Hlog | intros _].
      apply quiet_bind; [|intros; apply quiet_ret].
      apply quiet_ensureAppExists; [exact Hlog | call_ok | call_ok]. }
    intros [appleCredentials c1].
    apply quiet_bind.
    { destruct (truthy _).
      - unfold IOS.runningAsExpoManaged.
        apply quiet_bind; [apply quiet_prompt; [no_when | exact Hask] | intros answers].
        apply quiet_bind; [apply quiet_emit, Hspin | intros _].
        apply quiet_bind; [apply quiet_emit, Hspin | intros _].
        apply quiet_finally; [|apply quiet_emit, Hspin].
        apply quiet_try_catch; [|intros; apply quiet_throw].
        apply quiet_for_of. intros c choice.
        apply quiet_bind; [apply quiet_emit, Hspin | intros _].
        destruct (truthy _).
        + apply quiet_bind; [apply quiet_emit, Hspin | intros _].
          unfold IOS.expoManagedResource, IOS.produceProvisionProfile.
          repeat match goal with
                 | |- quiet _ (if ?b then _ else _) => destruct b
                 end; try apply quiet_throw.
          * apply quiet_bind; [apply quiet_call; call_ok | intros r].
            apply quiet_bind; [apply quiet_throwIfFailure, Hlog | intros; apply quiet_ret].
          * apply quiet_bind; [apply quiet_call; call_ok | intros r].
            apply quiet_bind; [apply quiet_throwIfFailure, Hlog | intros; apply quiet_ret].
          * apply quiet_bind; [apply quiet_call; call_ok | intros r].
            apply quiet_bind;
              [destruct (is_str _ _); [apply quiet_startsWith_of | apply quiet_ret]
              | intros multiple].
            apply quiet_bind; [apply quiet_when_, quiet_emit, Hlog | intros _].
            apply quiet_bind; [apply quiet_throwIfFailure, Hlog | intros; apply quiet_ret].
        + apply quiet_bind; [apply quiet_emit, Hspin | intros _].
          apply quiet_userProvidedOverride; auto.
      - apply quiet_runningAsExpert; auto. }
    intros c2. cbv zeta.
    apply quiet_bind; [apply quiet_when_, quiet_emit, Hlog | intros _].
    apply quiet_bind; [apply quiet_areCredsMissing; intros; apply Hlog | intros _].
    apply quiet_bind; [apply quiet_call; call_ok | intros _].
    apply quiet_emit, Hlog.
Qed.

(** *** The three builders *)

Lemma not_build_android e :
  allowed_call android_credential_call "android" e -> is_build e = false.
Proof. destruct e as [c| | |]; try reflexivity. intros [Hc _]. now destruct c. Qed.

Lemma not_build_legacy metadata e :
  footprint legacy_credential_call "ios" metadata e -> is_build e = false.
Proof. destruct e as [c| | |]; try reflexivity. intros [[Hc _] _]. now destruct c. Qed.

Lemma not_build_local_auth metadata e :
  footprint local_auth_call "ios" metadata e -> is_build e = false.
Proof. destruct e as [c| | |]; try reflexivity. intros [[Hc _] _]. now destruct c. Qed.

Lemma ios_run_builds_last W projectDir options :
  builds_last W (this_ensureReleaseExists "ios")
              (fun h => reply_ensureReleaseExists W h "ios") "ios"
              (IOS.run W projectDir options).
Proof.
  unfold IOS.run.
  apply builds_last_bind; [quiet_auto | intros args].
  destruct (negb _); [apply builds_last_throw|].
  apply builds_last_bind; [quiet_auto | intros _].
  apply builds_last_bind; [quiet_auto | intros _].
  apply builds_last_bind; [|intros _; now apply builds_last_release].
  apply quiet_when_, quiet_try_catch.
  - apply quiet_bind; [quiet_auto | intros _].
    apply quiet_bind; [quiet_auto | intros _].
    eapply quiet_weaken; [apply not_build_local_auth | apply quiet_runLocalAuth].
  - intros e. apply quiet_bind; [quiet_auto | intros _].
    apply quiet_bind; [|intros; apply quiet_throw].
    apply quiet_when_. apply quiet_bind; [apply quiet_stdout_of|].
    intros stdout. destruct (defined stdout); [|quiet_auto].
    destruct stdout; quiet_auto.
Qed.

Lemma legacy_run_builds_last W projectDir options :
  builds_last W this_publish (reply_publish W) "ios" (Legacy.run W projectDir options).
Proof.
  unfold Legacy.run.
  apply builds_last_bind; [quiet_auto | intros args].
  destruct (negb _); [apply builds_last_throw|].
  apply builds_last_bind; [quiet_auto | intros _].
  apply builds_last_bind; [|intros _; now apply builds_last_release].
  apply quiet_when_, quiet_try_catch; [|intros e; quiet_auto].
  eapply quiet_weaken; [apply not_build_legacy | apply quiet_legacy_collect].
Qed.

Lemma android_run_builds_last W projectDir options :
  builds_last W this_publish (reply_publish W) "android" (Android.run W projectDir options).
Proof.
  unfold Android.run.
  apply builds_last_bind; [quiet_auto | intros _].
  apply builds_last_bind; [|intros _; now apply builds_last_release].
  eapply quiet_weaken; [apply not_build_android | apply quiet_android_collect].
Qed.

(** X3.  Each of the three builders starts a build only as its very last
    step, for its own platform, with the ids the release step (iOS batch
    builder) or the publish step (the other two) has just returned; the
    outcome of the run is then the outcome of the build call.  So a run whose
    credential step threw starts no build. *)
Theorem build_is_the_last_step (W : World) (projectDir : string) (options : Options) :
  builds_last W (this_ensureReleaseExists "ios")
              (fun h => reply_ensureReleaseExists W h "ios") "ios"
              (IOS.run W projectDir options)
  /\ builds_last W this_publish (reply_publish W) "ios" (Legacy.run W projectDir options)
  /\ builds_last W this_publish (reply_publish W) "android"
                 (Android.run W projectDir options).
Proof.
  split; [apply ios_run_builds_last | split].
  - apply legacy_run_builds_last.
  - apply android_run_builds_last.
Qed.

(** ** The calls of a run *)

Lemma quiet_run_handler P W (e : Exn) :
  (forall l p, P (EvLog l p)) ->
  quiet P (log_error "Error while gathering & validating credentials" ;;
           when_ (DEBUG W)
             (stdout <- IOS.stdout_of e ;;
              if defined stdout then
                match stdout with
                | JStr s => log_error (IOS.remove_nul s)
                | _ => throw (TypeError "e.stdout.replace is not a function")
                end
              else emit (EvLog LError (JsonOf e))) ;;
           (throw e : M unit)).
Proof.
  intros Hlog.
  apply quiet_bind; [apply quiet_emit, Hlog | intros _].
  apply quiet_bind; [|intros; apply quiet_throw].
  apply quiet_when_. apply quiet_bind; [apply quiet_stdout_of|].
  intros stdout. destruct (defined stdout); [|apply quiet_emit, Hlog].
  destruct stdout; try apply quiet_throw. apply quiet_emit, Hlog.
Qed.


(** X4.  The calls of the batch iOS builder.  When the project metadata
    cannot be read the run makes no other call.  Otherwise every call is one
    of the run's own steps or of [runLocalAuth]; each call that takes a
    platform is made for iOS, and each call that takes credential metadata
    is made with the metadata of the project that was read.  The batch
    builder thus never calls [validateCredentialsForPlatform], [ensureAppId],
    the two certificate fetches or [publish]. *)
Theorem ios_run_footprint (W : World) (projectDir : string) (options : Options) (h : Hist) :
  match reply_getPublishInfoAsync W h projectDir with
  | inl _ => snd (IOS.run W projectDir options h) = [EvCall (Exp_getPublishInfoAsync projectDir)]
  | inr args =>
      Forall (footprint ios_run_call "ios" (ios_project_metadata args))
             (snd (IOS.run W projectDir options h))
  end.
Proof.
  unfold IOS.run. rewrite snd_bind_call.
  destruct (reply_getPublishInfoAsync W h projectDir) as [e|args]; [reflexivity|].
  constructor; [call_ok|].
  match goal with |- Forall ?P (snd (?m ?hh)) => generalize hh; change (quiet P m) end.
  destruct (negb _); [apply quiet_throw|].
  apply quiet_bind; [footprint_auto | intros _].
  apply quiet_bind; [footprint_auto | intros _].
  apply quiet_bind; [|intros _; footprint_auto].
  apply quiet_when_, quiet_try_catch.
  - apply quiet_bind; [footprint_auto | intros _].
    apply quiet_bind; [footprint_auto | intros _].
    eapply footprint_weaken; [|apply quiet_runLocalAuth].
    intros c Hc. unfold ios_run_call. rewrite Hc. apply orb_true_r.
  - intros e. apply quiet_run_handler. intros; split; exact I.
Qed.

(** X5.  The calls of the per-field iOS builder.  When the project metadata
    cannot be read the run makes no other call.  Otherwise every call is one
    of: the status check, the fetch, validation and upsert of credentials,
    the app id check, the two certificate fetches, a file stat or read, the
    publish and the build; platform and metadata are those of the project.
    In particular the builder never calls [removeCredentialsForPlatform],
    with or without [clearCredentials]. *)
Theorem legacy_run_footprint (W : World) (projectDir : string) (options : Options)
        (h : Hist) :
  match reply_getPublishInfoAsync W h projectDir with
  | inl _ =>
      snd (Legacy.run W projectDir options h) = [EvCall (Exp_getPublishInfoAsync projectDir)]
  | inr args =>
      Forall (fun e => footprint legacy_run_call "ios" (ios_project_metadata args) e
                       /\ is_removal e = false)
             (snd (Legacy.run W projectDir options h))
  end.
Proof.
  unfold Legacy.run. rewrite snd_bind_call.
  destruct (reply_getPublishInfoAsync W h projectDir) as [e|args]; [reflexivity|].
  apply Forall_impl with (P := footprint legacy_run_call "ios" (ios_project_metadata args)).
  { intros [c| | |] Hc; (split; [exact Hc | try reflexivity]).
    destruct Hc as [[Hc _] _]. destruct c; try reflexivity; discriminate Hc. }
  constructor; [call_ok|].
  match goal with |- Forall ?P (snd (?m ?hh)) => generalize hh; change (quiet P m) end.
  destruct (negb _); [apply quiet_throw|].
  apply quiet_bind; [footprint_auto | intros _].
  apply quiet_bind; [|intros _; footprint_auto].
  apply quiet_when_, quiet_try_catch; [|intros e; footprint_auto].
  eapply footprint_weaken; [|apply quiet_legacy_collect].
  intros c Hc. destruct c; try discriminate Hc; reflexivity.
Qed.

(** X6.  The calls of the Android builder: the status check, the read of
    the project metadata, the fetch, upsert and removal of credentials, a
    check that the local keystore exists, the stat of a keystore path the
    operator types, a file read, the publish and the build, each for the
    Android platform.  The builder never has the service validate what it
    uploads and never has it generate anything. *)
Theorem android_run_footprint (W : World) (projectDir : string) (options : Options) :
  quiet (fun e => allowed_call android_run_call "android" e
                  /\ is_managed_generation e = false)
        (Android.run W projectDir options).
Proof.
  assert (Hq : quiet (allowed_call android_run_call "android")
                     (Android.run W projectDir options)).
  { unfold Android.run.
    apply quiet_bind; [footprint_auto | intros _].
    apply quiet_bind; [|intros _; footprint_auto].
    eapply quiet_weaken; [|apply quiet_android_collect].
    intros [c| | |]; simpl; auto. intros [Hc Hp]. split; [|exact Hp].
    destruct c; try discriminate Hc; reflexivity. }
  eapply quiet_weaken; [|exact Hq].
  intros [c| | |] Hc; (split; [exact Hc | try reflexivity]).
  destruct Hc as [Hc _]. destruct c; try reflexivity; discriminate Hc.
Qed.

Lemma build_is_the_last_step_witness :
  fst (Android.run android_fresh_world "." default_options [])
  = reply_build android_fresh_world
      ([] ++ removelast (snd (Android.run android_fresh_world "." default_options [])))%list
      (JArr [JStr "exp-id"]) "android"
  /\ exists pre',
      removelast (snd (Android.run android_fresh_world "." default_options []))
      = (pre' ++ [EvCall this_publish])%list
      /\ reply_publish android_fresh_world ([] ++ pre')%list = inr (JArr [JStr "exp-id"]).
Proof.
  destruct (proj2 (proj2 (build_is_the_last_step android_fresh_world "." default_options))
              [] (removelast (snd (Android.run android_fresh_world "." default_options [])))
              (JArr [JStr "exp-id"]) "android" [] eq_refl)
    as (_ & _ & Hr & Hpre).
  split; [exact Hr | exact Hpre].
Defined.

(** ** Prompts whose [when] functions keep an invariant *)

Lemma prompt_from_cons {S} W (q : Question S) (qs : list (Question S)) answers s :
  prompt_from W (q :: qs) answers s
  = ('(shown, s') <- match q_when q with
                     | None => ret (true, s)
                     | Some w => w answers s
                     end ;;
     if (shown : bool) then
       v <- ask W q ;;
       prompt_from W qs (set (q_name q) v answers) s'
     else prompt_from W qs answers s').
Proof. reflexivity. Qed.

Lemma prompt_gives_nil {S} W (I : obj -> S -> Prop) P : prompt_gives W I P I [].
Proof.
  intros answers s h HI. unfold prompt_from, ret. simpl. split; [constructor|]. eauto.
Qed.

Lemma prompt_gives_cons {S} W (I I' Q : obj -> S -> Prop) P q qs :
  question_step I I' P q -> prompt_gives W I' P Q qs -> prompt_gives W I P Q (q :: qs).
Proof.
  intros Hq IH answers s h HI.
  rewrite prompt_from_cons. unfold bind.
  specialize (Hq answers s HI).
  destruct (q_when q) as [w|].
  - destruct (Hq h) as (Hes & shown & s1 & Hw & Hnext).
    destruct (w answers s h) as [r es]; simpl in *. subst r.
    destruct shown.
    + unfold ask. simpl.
      match goal with
      | |- context [prompt_from W qs (set _ ?v _) s1 ?hh] =>
          destruct (Hnext v) as [Hv HI'];
          destruct (IH (set (q_name q) v answers) s1 hh HI') as [Hrest Hpost];
          destruct (prompt_from W qs (set (q_name q) v answers) s1 hh) as [r es']
      end.
      simpl in *. split; [|exact Hpost].
      apply Forall_app. split; [exact Hes|]. constructor; assumption.
    + destruct (IH answers s1 (h ++ es)%list Hnext) as [Hrest Hpost].
      destruct (prompt_from W qs answers s1 (h ++ es)%list) as [r es'].
      simpl in *. split; [|exact Hpost]. apply Forall_app. auto.
  - unfold ret, ask. simpl.
    match goal with
    | |- context [prompt_from W qs (set _ ?v _) s ?hh] =>
        destruct (Hq v) as [Hv HI'];
        destruct (IH (set (q_name q) v answers) s hh HI') as [Hrest Hpost];
        destruct (prompt_from W qs (set (q_name q) v answers) s hh) as [r es']
    end.
    simpl in *. split; [|exact Hpost]. constructor; assumption.
Qed.

Lemma prompt_gives_keeps {S} W (I : obj -> S -> Prop) P (qs : list (Question S)) :
  Forall (question_step I I P) qs -> prompt_gives W I P I qs.
Proof.
  induction 1 as [|q qs Hq _ IH]; [apply prompt_gives_nil|].
  eapply prompt_gives_cons; eauto.
Qed.

(** *** Objects, continued *)

Lemma get_delete_other k k' o : k' <> k -> get (delete k o) k' = get o k'.
Proof.
  intros Hne. induction o as [|[k0 v0] o IH]; simpl; [reflexivity|].
  destruct (String.eqb k k0) eqn:E; simpl.
  - apply String.eqb_eq in E; subst k0.
    destruct (String.eqb k' k) eqn:E'; [apply String.eqb_eq in E'; congruence | exact IH].
  - destruct (String.eqb k' k0); auto.
Qed.

Lemma has_delete_same k o : has (delete k o) k = false.
Proof.
  induction o as [|[k0 v0] o IH]; simpl; [reflexivity|].
  destruct (String.eqb k k0) eqn:E; simpl; [exact IH | now rewrite E].
Qed.

Lemma in_delete k k' v o : In (k', v) (delete k o) -> In (k', v) o.
Proof.
  induction o as [|[k0 v0] o IH]; simpl; [auto|].
  destruct (String.eqb k k0); simpl; intuition.
Qed.

Lemma get_assign_absent (target source : obj) k :
  has source k = false -> get (assign target source) k = get target k.
Proof.
  unfold assign. revert target.
  induction source as [|[k0 v0] source IH]; intros target Hk; simpl in *; [reflexivity|].
  destruct (String.eqb k k0) eqn:E; [discriminate|].
  rewrite IH by assumption. apply get_set_other.
  intros ->. now rewrite String.eqb_refl in E.
Qed.

Lemma get_assign_present (target source : obj) k :
  has source k = true -> exists v, In (k, v) source /\ get (assign target source) k = v.
Proof.
  unfold assign. revert target.
  induction source as [|[k0 v0] source IH]; intros target Hk; simpl in *; [discriminate|].
  destruct (has source k) eqn:Hs.
  - destruct (IH (set k0 v0 target) eq_refl) as (v & Hin & Hv). eauto.
  - destruct (String.eqb k k0) eqn:E; [|discriminate].
    apply String.eqb_eq in E; subst k0. exists v0. split; [auto|].
    fold (assign (set k v0 target) source).
    rewrite get_assign_absent by assumption. apply get_set_same.
Qed.

(** ** Questions an environment variable may answer *)

Lemma question_names_app a b :
  question_names (a ++ b) = (question_names a ++ question_names b)%list.
Proof.
  induction a as [|[c|n v|l p|op] a IH]; simpl; auto. now rewrite IH.
Qed.

Lemma calls_app_events a b : calls (a ++ b) = (calls a ++ calls b)%list.
Proof.
  induction a as [|[c|n v|l p|op] a IH]; simpl; auto. now rewrite IH.
Qed.

Lemma question_names_none es :
  Forall (fun e => is_prompt e = false) es -> question_names es = [].
Proof.
  induction 1 as [|[c|n v|l p|op] es He _ IH]; simpl; auto. discriminate.
Qed.

Lemma truthy_get_has o k : truthy (get o k) = true -> has o k = true.
Proof.
  induction o as [|[k0 v0] o IH]; simpl; [discriminate|].
  destruct (String.eqb k k0); auto.
Qed.

Lemma keys_delete k o :
  keys (delete k o) = filter (fun k' => negb (String.eqb k k')) (keys o).
Proof.
  unfold keys. induction o as [|[k0 v0] o IH]; simpl; [reflexivity|].
  destruct (String.eqb k k0); simpl; now rewrite IH.
Qed.

Lemma NoDup_delete k o : NoDup (keys o) -> NoDup (keys (delete k o)).
Proof. intros H. rewrite keys_delete. now apply NoDup_filter. Qed.

Lemma has_in_keys o k : has o k = true <-> In k (keys o).
Proof.
  rewrite has_existsb_keys, existsb_exists. split.
  - intros (x & Hin & Heq). apply String.eqb_eq in Heq. now subst.
  - intros Hin. exists k. split; [exact Hin | apply String.eqb_refl].
Qed.

(** [Object.assign] from a source without repeated keys. *)
Lemma get_assign (target source : obj) k :
  NoDup (keys source) ->
  get (assign target source) k = if has source k then get source k else get target k.
Proof.
  unfold assign. revert target.
  induction source as [|[k0 v0] source IH]; intros target Hnd; simpl in *; [reflexivity|].
  inversion Hnd as [|? ? Hnotin Hnd']; subst.
  rewrite IH by assumption.
  destruct (String.eqb k k0) eqn:E.
  - apply String.eqb_eq in E; subst k0.
    destruct (has source k) eqn:Hs; [apply has_in_keys in Hs; contradiction|].
    apply get_set_same.
  - destruct (has source k); [reflexivity|].
    apply get_set_other. intros ->. now rewrite String.eqb_refl in E.
Qed.

Section EnvironmentPrompt.
Variable W : World.
Variable Inv : obj -> obj -> Prop.

(** A prompt made of such questions never fails; it shows the questions
    whose key holds no value in [environmentAnswers], in order; every key of
    a question is settled, and the other keys are left as they were. *)
Lemma environment_prompt (qs : list (Question obj)) :
  Forall (environment_like Inv) qs ->
  NoDup (map q_name qs) ->
  forall answers s h,
    Inv answers s ->
    exists answers' s' es,
      prompt_from W qs answers s h = (inr (answers', s'), es)
      /\ Inv answers' s'
      /\ question_names es
         = filter (fun k => negb (truthy (get s k))) (map q_name qs)
      /\ Forall (fun e => match e with EvCall _ => False | _ => True end) es
      /\ (forall k, In k (map q_name qs) -> settled s es answers' s' k)
      /\ (forall k, ~ In k (map q_name qs) ->
                    get s' k = get s k /\ has s' k = has s k
                    /\ get answers' k = get answers k)
      /\ (NoDup (keys s) -> NoDup (keys s')).
Proof.
  induction 1 as [|q qs Hq _ IH]; intros Hnd answers s h HI.
  - exists answers, s, []. simpl.
    split; [reflexivity|]. split; [exact HI|]. split; [reflexivity|].
    split; [constructor|]. split; [intros k []|]. split; auto.
  - simpl in Hnd. inversion Hnd as [|? ? Hnotin Hnd']; subst.
    destruct Hq as (Htype & (w & message & Hw & Hwhen) & Hkeep).
    rewrite prompt_from_cons, Hw, (Hwhen _ _ HI).
    unfold Legacy.when_not_in_environment.
    destruct (truthy (get s (q_name q))) eqn:T.
    + (* the environment holds a value: the question is hidden *)
      destruct (IH Hnd' answers s (h ++ [EvLog LLog (Text message)])%list HI)
        as (a' & s' & es & Hrun & HI' & Hnames & Hcalls & Hin & Hout & Hnodup).
      exists a', s', (EvLog LLog (Text message) :: es).
      unfold bind, log, emit, ret. simpl. rewrite Hrun. simpl.
      split; [reflexivity|]. split; [exact HI'|].
      split; [rewrite T; exact Hnames|].
      split; [constructor; [exact I | exact Hcalls]|].
      split; [|split; [|exact Hnodup]].
      * intros k [<-|Hk].
        -- unfold settled. rewrite T. now apply Hout.
        -- specialize (Hin k Hk). unfold settled in *.
           destruct (truthy (get s k)); [exact Hin|].
           destruct Hin as (Hhas & typed & Hasked & Hget). split; [exact Hhas|].
           exists typed. split; [now right | exact Hget].
      * intros k Hk. apply Hout. intros Hin'. apply Hk. now right.
    + (* no value: the question is shown *)
      unfold bind, ret. simpl.
      set (v := match q_type q with
                | QInput | QPassword => JStr (answer_input W (h ++ [])%list (q_name q))
                | QList cs | QRawList cs =>
                    selected cs (answer_choice W (h ++ [])%list (q_name q))
                | QConfirm => JBool (answer_confirm W (h ++ [])%list (q_name q))
                end).
      assert (Hv : exists typed, v = JStr typed).
      { subst v. destruct Htype as [-> | ->]; eauto. }
      destruct Hv as (typed & Hv).
      destruct (IH Hnd' (set (q_name q) v answers) (delete (q_name q) s)
                   ((h ++ []) ++ [EvAsk (q_name q) v])%list (Hkeep _ _ _ HI))
        as (a' & s' & es & Hrun & HI' & Hnames & Hcalls & Hin & Hout & Hnodup).
      exists a', s', (EvAsk (q_name q) v :: es).
      unfold ask. fold v. simpl. rewrite Hrun. simpl.
      destruct (Hout (q_name q) Hnotin) as (Hs' & Hhas' & Ha').
      split; [reflexivity|]. split; [exact HI'|].
      split.
      { rewrite T. simpl. f_equal. rewrite Hnames.
        apply filter_ext_in. intros k Hk. rewrite get_delete_other; [reflexivity|].
        intros ->. contradiction. }
      split; [constructor; [exact I | exact Hcalls]|].
      split; [|split].
      * intros k [<-|Hk].
        -- unfold settled. rewrite T. split.
           ++ rewrite Hhas'. apply has_delete_same.
           ++ exists typed. split; [left; now rewrite Hv|].
              rewrite Ha', get_set_same. exact Hv.
        -- specialize (Hin k Hk). unfold settled in *.
           assert (k <> q_name q) as Hne by (intros ->; contradiction).
           rewrite get_delete_other in Hin by assumption.
           destruct (truthy (get s k)).
           ++ exact Hin.
           ++ destruct Hin as (Hhas & typed' & Hasked & Hget). split; [exact Hhas|].
              exists typed'. split; [now right | exact Hget].
      * intros k Hk.
        assert (k <> q_name q) as Hne by (intros ->; apply Hk; now left).
        destruct (Hout k) as (H1 & H2 & H3); [intros Hin'; apply Hk; now right|].
        rewrite H1, H2, H3.
        rewrite get_delete_other, has_delete_other, get_set_other by assumption.
        auto.
      * intros Hnds. apply Hnodup. now apply NoDup_delete.
Qed.
End EnvironmentPrompt.


(** ** The Apple ID prompt of the per-field builder *)

(** X7.  [askForAppleId] asks for exactly those of Apple ID, password and
    team id whose variable (EXP_APPLE_ID, EXP_APPLE_PASSWORD,
    EXP_APPLE_TEAM_ID) is unset or empty, in this order, each field on its
    own, and makes no call while it asks.  The credentials it then sends to
    validation hold, for each field, the value of the variable when there is
    one and the typed answer otherwise.  The reply to the validation decides
    how it ends: a rejection is thrown as it is, with the validation as the
    last call; after an acceptance the same credentials are upserted and the
    reply to the upsert is the outcome. *)
Theorem askForAppleId_per_field (W : World) (metadata : obj) (h : Hist) :
  let es := snd (Legacy.askForAppleId W metadata h) in
  question_names es
  = filter (fun n => negb (truthy (env W (apple_variable n))))
           ["appleId"; "password"; "teamId"]
  /\ exists creds pre,
      keys creds = ["appleId"; "password"; "teamId"]
      /\ (forall n, In n ["appleId"; "password"; "teamId"] ->
            if truthy (env W (apple_variable n))
            then get creds n = env W (apple_variable n)
            else exists typed, In (EvAsk n (JStr typed)) es /\ get creds n = JStr typed)
      /\ calls pre = []
      /\ Legacy.askForAppleId W metadata h
         = match reply_validateCredentialsForPlatform
                   W (h ++ pre)%list "ios" "appleId" (Some creds) metadata with
           | inl rejection =>
               (inl rejection,
                (pre ++ [EvCall (Credentials_validateCredentialsForPlatform
                                   "ios" "appleId" (Some creds) metadata)])%list)
           | inr _ =>
               (reply_updateCredentialsForPlatform
                  W (h ++ pre
                       ++ [EvCall (Credentials_validateCredentialsForPlatform
                                     "ios" "appleId" (Some creds) metadata)])%list
                  "ios" creds metadata,
                (pre ++ [EvCall (Credentials_validateCredentialsForPlatform
                                   "ios" "appleId" (Some creds) metadata);
                         EvCall (Credentials_updateCredentialsForPlatform
                                   "ios" creds metadata)])%list)
           end.
Proof.
  cbv zeta. unfold Legacy.askForAppleId.
  set (ea := [("appleId", env W "EXP_APPLE_ID"); ("password", env W "EXP_APPLE_PASSWORD");
              ("teamId", env W "EXP_APPLE_TEAM_ID")]).
  unfold console_log. rewrite !bind_emit. cbn [fst snd].
  match goal with
  | |- context [prompt_with W ?qs ea] =>
      destruct (environment_prompt W (fun _ _ => True) qs) with (answers := @nil (string * jsval)) (s := ea)
        (h := ((h ++ [EvLog LConsole (Text "")]) ++
             [EvLog LConsole (Text "We need your Apple ID/password to manage certificates and provisioning profiles from your Apple Developer account.")])%list)
        as (a' & s' & es & Hrun & _ & Hnames & Hcalls & Hin & Hout & Hnodup)
  end.
  { repeat (apply Forall_cons;
            [split; [simpl; auto
                    | split; [eexists _, _; split; [reflexivity | reflexivity] | auto]]|]).
    apply Forall_nil. }
  { repeat constructor; simpl; intuition discriminate. }
  { exact I. }
  unfold prompt_with. rewrite (bind_inr _ _ _ _ _ Hrun). cbn [fst snd].
  assert (Hnd' : NoDup (keys s')) by (apply Hnodup; repeat constructor; simpl; intuition discriminate).
  set (creds := literal [("appleId", get (assign a' s') "appleId");
                         ("password", get (assign a' s') "password");
                         ("teamId", get (assign a' s') "teamId")]).
  assert (Hnoq : forall tail, Forall (fun e => is_prompt e = false) tail ->
                              question_names (EvLog LConsole (Text "") :: EvLog LConsole (Text "We need your Apple ID/password to manage certificates and provisioning profiles from your Apple Developer account.") :: es ++ tail)
                              = question_names es).
  { intros tail Htail. simpl. rewrite question_names_app, (question_names_none tail Htail).
    apply app_nil_r. }
  assert (Hcalls0 : calls es = []).
  { clear -Hcalls. induction Hcalls as [|[c|n v|l p|op] es He _ IH]; simpl; auto.
    destruct He. }
  assert (Hfields : forall n, In n ["appleId"; "password"; "teamId"] ->
            if truthy (env W (apple_variable n))
            then get creds n = env W (apple_variable n)
            else exists typed, In (EvAsk n (JStr typed)) es /\ get creds n = JStr typed).
  { intros n Hn. specialize (Hin n Hn). unfold settled in Hin.
    assert (Hcreds : get creds n = get (assign a' s') n).
    { simpl in Hn. destruct Hn as [<-|[<-|[<-|[]]]]; reflexivity. }
    assert (Henv : get ea n = env W (apple_variable n)).
    { simpl in Hn. destruct Hn as [<-|[<-|[<-|[]]]]; reflexivity. }
    rewrite Hcreds, get_assign by assumption. rewrite Henv in Hin.
    destruct (truthy (env W (apple_variable n))) eqn:T.
    - rewrite <- Hin in T. rewrite (truthy_get_has _ _ T). exact Hin.
    - destruct Hin as (Hhas & typed & Hasked & Hget). rewrite Hhas. eauto. }
  unfold log. rewrite bind_emit. cbn [fst snd]. fold creds.
  rewrite bind_call.
  set (pre := (EvLog LConsole (Text "")
               :: EvLog LConsole (Text "We need your Apple ID/password to manage certificates and provisioning profiles from your Apple Developer account.")
               :: es ++ [EvLog LLog (Text "Validating Apple credentials...")])%list).
  assert (Hpre : calls pre = []).
  { subst pre. simpl. now rewrite calls_app_events, Hcalls0. }
  match goal with
  | |- context [reply_validateCredentialsForPlatform W ?hh _ _ _ _] =>
      assert (H1 : (h ++ pre)%list = hh)
        by (subst pre; simpl; repeat rewrite <- app_assoc; reflexivity)
  end.
  match goal with
  | |- context [call _ _ ?hh] =>
      assert (H2 : (h ++ pre
                      ++ [EvCall (Credentials_validateCredentialsForPlatform
                                    "ios" "appleId" (Some creds) metadata)])%list = hh)
        by (subst pre; simpl; repeat rewrite <- app_assoc; reflexivity)
  end.
  match goal with
  | |- context [match ?r with inl _ => _ | inr _ => _ end] => destruct r as [e|[]] eqn:Hr
  end; unfold call; cbn [fst snd].
  - split.
    + rewrite Hnoq by (repeat constructor). exact Hnames.
    + exists creds, pre. split; [reflexivity|]. split; [|split; [exact Hpre|]].
      * intros n Hn. specialize (Hfields n Hn).
        destruct (truthy (env W (apple_variable n))); [exact Hfields|].
        destruct Hfields as (typed & Hasked & Hget). exists typed. split; [|exact Hget].
        right. right. apply in_or_app. now left.
      * rewrite H1, Hr. subst pre. simpl. now rewrite <- app_assoc.
  - split.
    + rewrite Hnoq by (repeat constructor). exact Hnames.
    + exists creds, pre. split; [reflexivity|]. split; [|split; [exact Hpre|]].
      * intros n Hn. specialize (Hfields n Hn).
        destruct (truthy (env W (apple_variable n))); [exact Hfields|].
        destruct Hfields as (typed & Hasked & Hget). exists typed. split; [|exact Hget].
        right. right. apply in_or_app. now left.
      * rewrite H1, Hr, H2. subst pre. simpl. repeat rewrite <- app_assoc. reflexivity.
Qed.

(** ** The keystore prompt of the Android builder *)

Lemma settled_supplied s es answers' s' k :
  NoDup (keys s') -> settled s es answers' s' k -> supplied s es (assign answers' s') k.
Proof.
  intros Hnd Hs. unfold settled, supplied in *. rewrite get_assign by assumption.
  destruct (truthy (get s k)) eqn:T.
  - rewrite <- Hs in T. now rewrite (truthy_get_has _ _ T).
  - destruct Hs as (Hhas & typed & Hasked & Hget). rewrite Hhas. eauto.
Qed.

Lemma supplied_more s es es' final k :
  (forall e, In e es -> In e es') -> supplied s es final k -> supplied s es' final k.
Proof.
  intros Hsub. unfold supplied. destruct (truthy (get s k)); [auto|].
  intros (typed & Hin & Hget). exists typed. split; [auto | exact Hget].
Qed.

Lemma keystore_question_environment_like t key message set_message :
  (t = QInput \/ t = QPassword) ->
  key <> "uploadKeystore" ->
  environment_like upload_chosen
    {| q_type := t; q_name := key; q_message := message;
       q_when := Some (Android.when_keystore key set_message) |}.
Proof.
  intros Ht Hne. split; [exact Ht|]. split.
  - exists (Android.when_keystore key set_message), set_message. split; [reflexivity|].
    intros answers s Hup. unfold upload_chosen in Hup.
    unfold Android.when_keystore, Legacy.when_not_in_environment. simpl.
    destruct (truthy (get answers "uploadKeystore")), (truthy (get s "uploadKeystore"));
      try discriminate; reflexivity.
  - intros answers s v Hup. unfold upload_chosen in *. simpl.
    rewrite get_set_other, get_delete_other by (intros E; apply Hne; now rewrite E).
    exact Hup.
Qed.

Lemma keystore_questions_environment_like :
  Forall (environment_like upload_chosen) (tl Android.questions).
Proof.
  simpl. repeat (apply Forall_cons;
                 [apply keystore_question_environment_like; [auto | discriminate]|]).
  apply Forall_nil.
Qed.

Lemma has_false_get o k : has o k = false -> get o k = JUndefined.
Proof.
  induction o as [|[k0 v0] o IH]; simpl; [reflexivity|].
  destruct (String.eqb k k0); [discriminate | exact IH].
Qed.

(** The four keystore questions, while no upload has been chosen: none is
    shown and nothing is logged. *)
Lemma keystore_question_hidden_step answers0 t key message set_message :
  key <> "uploadKeystore" ->
  question_step (no_upload answers0) (no_upload answers0) (fun _ => False)
    {| q_type := t; q_name := key; q_message := message;
       q_when := Some (Android.when_keystore key set_message) |}.
Proof.
  intros Hne a s (-> & Ha & Hs). simpl. intros h.
  unfold Android.when_keystore. rewrite Ha, (has_false_get _ _ Hs). simpl.
  split; [constructor|].
  eexists _, _. split; [reflexivity|]. cbv beta iota. unfold no_upload.
  rewrite has_delete_other by (intros E; apply Hne; now rewrite E). auto.
Qed.

Lemma keystore_questions_hidden W answers s h :
  truthy (get answers "uploadKeystore") = false ->
  has s "uploadKeystore" = false ->
  exists s',
    prompt_from W (tl Android.questions) answers s h = (inr (answers, s'), [])
    /\ has s' "uploadKeystore" = false.
Proof.
  intros Ha Hs.
  assert (Hgives : prompt_gives W (no_upload answers) (fun _ => False) (no_upload answers)
                                (tl Android.questions)).
  { apply prompt_gives_keeps. simpl.
    repeat (apply Forall_cons; [apply keystore_question_hidden_step; discriminate|]).
    apply Forall_nil. }
  destruct (Hgives answers s h (conj eq_refl (conj Ha Hs)))
    as (Hes & a' & s' & Hres & (-> & _ & Hs')).
  destruct (prompt_from W (tl Android.questions) answers s h) as [r es]; simpl in *.
  subst r. exists s'. split; [|exact Hs']. f_equal.
  destruct es as [|e es]; [reflexivity|]. inversion Hes; contradiction.
Qed.

Lemma android_environmentAnswers_keys W :
  NoDup (keys (android_environmentAnswers W))
  /\ get (android_environmentAnswers W) "uploadKeystore" = JBool (keystore_in_environment W)
  /\ forall k, In k keystore_keys ->
               get (android_environmentAnswers W) k = env W (android_variable k).
Proof.
  split; [|split].
  - repeat constructor; simpl; intuition discriminate.
  - reflexivity.
  - intros k Hk. simpl in Hk. destruct Hk as [<-|[<-|[<-|[<-|[]]]]]; reflexivity.
Qed.

Lemma selected_upload i :
  selected [("Let Expo handle the process!", JBool false);
            ("I want to upload my own keystore!", JBool true)] i = JBool false
  \/ selected [("Let Expo handle the process!", JBool false);
               ("I want to upload my own keystore!", JBool true)] i = JBool true.
Proof. destruct i as [|[|[|i]]]; simpl; auto. Qed.

Lemma no_calls_calls es :
  Forall (fun e => match e with EvCall _ => False | _ => True end) es -> calls es = [].
Proof.
  induction 1 as [|[c|n v|l p|op] es He _ IH]; simpl; auto. destruct He.
Qed.

Lemma filter_all {X} (f : X -> bool) l :
  (forall x, In x l -> f x = true) -> filter f l = l.
Proof.
  induction l as [|x l IH]; intros Hall; simpl; [reflexivity|].
  rewrite Hall by now left. f_equal. apply IH. intros y Hy. apply Hall. now right.
Qed.

Lemma android_questions_cons :
  Android.questions
  = {| q_type := QRawList [("Let Expo handle the process!", JBool false);
                           ("I want to upload my own keystore!", JBool true)];
       q_name := "uploadKeystore";
       q_message := "Would you like to upload a keystore or have us generate one for you?
If you don't know what this means, let us handle it! :)
";
       q_when := Some Android.when_upload |} :: tl Android.questions.
Proof. reflexivity. Qed.

Lemma android_prompt W h :
  exists answers' s' es,
    prompt_with W Android.questions (android_environmentAnswers W) h
    = (inr (answers', s'), es)
    /\ android_prompted W es (assign answers' s').
Proof.
  destruct (android_environmentAnswers_keys W) as (Hnd & Hup & Hkeys).
  unfold android_prompted.
  unfold prompt_with. rewrite android_questions_cons, prompt_from_cons.
  cbn [q_when q_name q_type].
  unfold Android.when_upload. rewrite Hup. simpl truthy.
  destruct (keystore_in_environment W) eqn:Henv.
  - (* a variable is set *)
    match goal with |- context [log ?msg] => set (message := msg) end.
    rewrite (bind_inr _ _ _ (false, android_environmentAnswers W)
                      [EvLog LLog (Text message)]) by reflexivity.
    cbn [fst snd]. cbv beta iota.
    destruct (environment_prompt W upload_chosen (tl Android.questions)
                keystore_questions_environment_like)
      with (answers := @nil (string * jsval)) (s := android_environmentAnswers W)
           (h := (h ++ [EvLog LLog (Text message)])%list)
      as (a' & s' & es & Hrun & Hinv & Hnames & Hcalls & Hin & Hout & Hnodup).
    { repeat constructor; simpl; intuition discriminate. }
    { unfold upload_chosen. rewrite Hup. reflexivity. }
    rewrite Hrun. cbn [fst snd].
    exists a', s', (EvLog LLog (Text message) :: es).
    split; [reflexivity|]. split; [constructor; [exact I | exact Hcalls]|].
    specialize (Hnodup Hnd).
    destruct (Hout "uploadKeystore") as (Hs' & Hhas' & _);
      [simpl; intuition discriminate|].
    split; [|split].
    + simpl question_names. rewrite Hnames. apply filter_ext_in.
      intros k Hk. now rewrite (Hkeys k Hk).
    + rewrite get_assign by assumption.
      assert (Hhas : has s' "uploadKeystore" = true) by (rewrite Hhas'; reflexivity).
      rewrite Hhas, Hs', Hup. reflexivity.
    + intros k Hk. apply (supplied_more _ es); [intros e He; now right|].
      apply settled_supplied; [exact Hnodup | apply Hin, Hk].
  - (* no variable is set: the strategy question is shown *)
    unfold ret.
    rewrite (bind_inr _ _ _ (true, delete "uploadKeystore" (android_environmentAnswers W)) [])
      by reflexivity.
    cbn [fst snd app]. unfold ask. cbn [q_type q_name].
    set (v := selected [("Let Expo handle the process!", JBool false);
                        ("I want to upload my own keystore!", JBool true)]
                       (answer_choice W (h ++ [])%list "uploadKeystore")).
    rewrite (bind_inr _ _ _ v [EvAsk "uploadKeystore" v]) by reflexivity.
    cbn [fst snd app].
    assert (Hv : v = JBool false \/ v = JBool true) by apply selected_upload.
    assert (Hfalsy : forall k, In k keystore_keys ->
                               truthy (get (android_environmentAnswers W) k) = false).
    { intros k Hk. rewrite (Hkeys k Hk). unfold keystore_in_environment in Henv.
      repeat (apply orb_false_iff in Henv; destruct Henv as [Henv ?]).
      simpl in Hk. destruct Hk as [<-|[<-|[<-|[<-|[]]]]]; assumption. }
    destruct Hv as [Hv|Hv].
    + (* Let Expo handle the process *)
      destruct (keystore_questions_hidden W (set "uploadKeystore" v [])
                  (delete "uploadKeystore" (android_environmentAnswers W))
                  ((h ++ []) ++ [EvAsk "uploadKeystore" v])%list) as (s' & Hrun & Hs').
      { rewrite Hv. reflexivity. }
      { apply has_delete_same. }
      rewrite Hrun. cbn [fst snd app].
      exists (set "uploadKeystore" v []), s', [EvAsk "uploadKeystore" v].
      split; [reflexivity|]. split; [repeat constructor|].
      exists v. split; [now left|].
      rewrite get_assign_absent by assumption.
      split; [apply get_set_same|]. split; [reflexivity|]. rewrite Hv. reflexivity.
    + (* I want to upload my own keystore *)
      destruct (environment_prompt W upload_chosen (tl Android.questions)
                  keystore_questions_environment_like)
        with (answers := set "uploadKeystore" v [])
             (s := delete "uploadKeystore" (android_environmentAnswers W))
             (h := ((h ++ []) ++ [EvAsk "uploadKeystore" v])%list)
        as (a' & s' & es & Hrun & Hinv & Hnames & Hcalls & Hin & Hout & Hnodup).
      { repeat constructor; simpl; intuition discriminate. }
      { unfold upload_chosen. rewrite Hv. reflexivity. }
      rewrite Hrun. cbn [fst snd app].
      exists a', s', (EvAsk "uploadKeystore" v :: es).
      split; [reflexivity|]. split; [constructor; [exact I | exact Hcalls]|].
      specialize (Hnodup (NoDup_delete _ _ Hnd)).
      destruct (Hout "uploadKeystore") as (_ & Hhas' & Ha');
        [simpl; intuition discriminate|].
      rewrite has_delete_same in Hhas'.
      exists v. split; [now right|].
      split; [rewrite get_assign_absent by assumption; rewrite Ha'; apply get_set_same|].
      split; [reflexivity|].
      rewrite Hv. simpl truthy. cbv iota.
      assert (Hfalsy' : forall k, In k keystore_keys ->
                  truthy (get (delete "uploadKeystore" (android_environmentAnswers W)) k)
                  = false).
      { intros k Hk. rewrite get_delete_other; [now apply Hfalsy|].
        simpl in Hk. intros ->. intuition discriminate. }
      split.
      * simpl question_names. f_equal. rewrite Hnames.
        change (map q_name (tl Android.questions)) with keystore_keys.
        apply filter_all. intros k Hk. now rewrite Hfalsy'.
      * intros k Hk. specialize (Hin k Hk).
        apply (settled_supplied _ _ _ _ _ Hnodup) in Hin. unfold supplied in Hin.
        rewrite (Hfalsy' k Hk) in Hin. destruct Hin as (typed & Hasked & Hget).
        exists typed. split; [now right | exact Hget].
Qed.

(** ** The credential step of the Android builder, case by case *)

Lemma android_environmentAnswers_eq W :
  (let environmentAnswers :=
     [("keystorePath", env W "EXP_ANDROID_KEYSTORE_PATH");
      ("keystoreAlias", env W "EXP_ANDROID_KEYSTORE_ALIAS");
      ("keystorePassword", env W "EXP_ANDROID_STORE_PASSWORD");
      ("keyPassword", env W "EXP_ANDROID_KEY_PASSWORD");
      ("uploadKeystore", JBool false)] in
   if truthy (get environmentAnswers "keystorePath")
      || truthy (get environmentAnswers "keystoreAlias")
      || truthy (get environmentAnswers "keystorePassword")
      || truthy (get environmentAnswers "keyPassword")
   then set "uploadKeystore" (JBool true) environmentAnswers
   else environmentAnswers)
  = android_environmentAnswers W.
Proof.
  unfold android_environmentAnswers, keystore_in_environment. simpl.
  destruct (truthy (env W "EXP_ANDROID_KEYSTORE_PATH")
            || truthy (env W "EXP_ANDROID_KEYSTORE_ALIAS")
            || truthy (env W "EXP_ANDROID_STORE_PASSWORD")
            || truthy (env W "EXP_ANDROID_KEY_PASSWORD")); reflexivity.
Qed.

(** Every way [collectAndValidateCredentials] can go. *)
Lemma android_collect_cases W projectDir options h
      (R : (Exn + unit) * list Event -> Prop) :
  let g := EvCall (Exp_getPublishInfoAsync projectDir) in
  let f := fun args => EvCall (Credentials_credentialsExistForPlatformAsync
                                 (android_metadata args)) in
  (* the project metadata or the stored credentials cannot be read *)
  (forall e, reply_getPublishInfoAsync W h projectDir = inl e -> R (inl e, [g])) ->
  (forall args e,
      reply_getPublishInfoAsync W h projectDir = inr args ->
      reply_credentialsExistForPlatformAsync W (h ++ [g])%list (android_metadata args)
      = inl e ->
      R (inl e, [g; f args])) ->
  (* credentials are stored and are not to be cleared *)
  (forall args stored,
      reply_getPublishInfoAsync W h projectDir = inr args ->
      reply_credentialsExistForPlatformAsync W (h ++ [g])%list (android_metadata args)
      = inr (Some stored) ->
      clearCredentials options = false -> R (inr tt, [g; f args])) ->
  (* the prompt runs *)
  (forall args stored es final,
      let hp := (h ++ [g; f args; EvLog LConsole (Text "")])%list in
      reply_getPublishInfoAsync W h projectDir = inr args ->
      reply_credentialsExistForPlatformAsync W (h ++ [g])%list (android_metadata args)
      = inr stored ->
      clearCredentials options = true \/ stored = None ->
      android_prompted W es final ->
      (truthy (get final "uploadKeystore") = false ->
       (clearCredentials options = false ->
        R (inr tt, ([g; f args; EvLog LConsole (Text "")] ++ es)%list))
       /\ (clearCredentials options = true ->
           R (fst (Android._clearCredentials W projectDir (hp ++ es)%list),
              ([g; f args; EvLog LConsole (Text "")] ++ es
                 ++ snd (Android._clearCredentials W projectDir (hp ++ es)%list))%list)))
      /\ (truthy (get final "uploadKeystore") = true ->
          let read := EvCall (fs_readFile (get final "keystorePath")) in
          (forall e,
              R (inl e, ([g; f args; EvLog LConsole (Text "")] ++ es ++ [read])%list))
          /\ forall path data,
              get final "keystorePath" = JStr path ->
              reply_readFile W (hp ++ es)%list path = inr data ->
              R (reply_updateCredentialsForPlatform
                   W ((hp ++ es) ++ [read])%list "android" (android_bundle final data)
                   (android_metadata args),
                 ([g; f args; EvLog LConsole (Text "")] ++ es
                    ++ [read;
                        EvCall (Credentials_updateCredentialsForPlatform
                                  "android" (android_bundle final data)
                                  (android_metadata args))])%list))) ->
  R (Android.collectAndValidateCredentials W projectDir options h).
Proof.
  intros g f Hmeta Hfetch Hstored Hprompt.
  unfold Android.collectAndValidateCredentials.
  rewrite bind_call.
  destruct (reply_getPublishInfoAsync W h projectDir) as [e|args] eqn:Eargs;
    [now apply Hmeta|].
  fold (android_metadata args). rewrite bind_call. fold g.
  destruct (reply_credentialsExistForPlatformAsync W _ _) as [e|stored] eqn:Estored;
    [now apply Hfetch|].
  cbn [fst snd].
  match goal with |- context [if ?c then _ else _] => destruct c eqn:Hcond end.
  2:{ apply orb_false_iff in Hcond as [Hclear Hsome]. unfold ret.
      destruct stored as [stored|]; [|discriminate]. eapply Hstored; eauto. }
  assert (Hcond' : clearCredentials options = true \/ stored = None).
  { apply orb_true_iff in Hcond as [Hc|Hc]; [now left|].
    right. now destruct stored. }
  rewrite android_environmentAnswers_eq.
  unfold console_log. rewrite bind_emit. cbn [fst snd].
  rewrite <- !app_assoc. cbn [app]. fold g. fold (f args).
  destruct (android_prompt W (h ++ [g; f args; EvLog LConsole (Text "")])%list)
    as (a' & s' & es & Hrun & Hfacts).
  specialize (Hprompt args stored es (assign a' s')). cbv zeta in Hprompt.
  destruct (Hprompt eq_refl Estored Hcond' Hfacts) as [Hno Hyes]. clear Hprompt.
  rewrite (bind_inr _ _ _ _ _ Hrun). cbv beta iota. cbn [fst snd].
  destruct (truthy (get (assign a' s') "uploadKeystore")) eqn:Hup; cbn [negb]; cbv iota.
  - destruct (Hyes eq_refl) as [Hfail Hread]. clear Hno Hyes.
    unfold readFile. rewrite bind_call.
    destruct (get (assign a' s') "keystorePath") as [| | | |path| |] eqn:Hpath;
      try apply Hfail.
    destruct (reply_readFile W _ path) as [e|data] eqn:Hdata; [apply Hfail|].
    cbn [fst snd]. unfold call.
    specialize (Hread path data eq_refl Hdata). cbn [fst snd].
    exact Hread.
  - destruct (Hno eq_refl) as [Hkeep Hclear]. clear Hno Hyes.
    destruct (clearCredentials options); simpl when_.
    + specialize (Hclear eq_refl).
      destruct (Android._clearCredentials W projectDir _) as [r es']. exact Hclear.
    + unfold ret. cbn [fst snd]. rewrite app_nil_r. now apply Hkeep.
Qed.

(** ** What the Android builder asks, uploads and deletes *)

Lemma existsb_none {X} (p : X -> bool) l :
  Forall (fun x => p x = false) l -> existsb p l = false.
Proof. induction 1 as [|x l Hx _ IH]; simpl; [reflexivity|]. now rewrite Hx. Qed.

Lemma no_calls_not p es :
  (forall e, (match e with EvCall _ => False | _ => True end) -> p e = false) ->
  Forall (fun e => match e with EvCall _ => False | _ => True end) es ->
  Forall (fun e : Event => p e = false) es.
Proof. intros Hp. apply Forall_impl. exact Hp. Qed.

Lemma prompt_confirm W h :
  exists b,
    prompt W [Android.confirm_question] h
    = (inr [("confirm", JBool b)], [EvAsk "confirm" (JBool b)]).
Proof.
  exists (answer_confirm W (h ++ [])%list "confirm"). reflexivity.
Qed.

(** [_clearCredentials]: it asks nothing but the confirmation, uploads
    nothing, and deletes only after the answer yes. *)
Lemma clearCredentials_trace W projectDir h :
  let es := snd (Android._clearCredentials W projectDir h) in
  Forall (fun e => is_upsert e = false) es
  /\ (existsb is_removal es = true -> In (EvAsk "confirm" (JBool true)) es)
  /\ (question_names es = [] \/ question_names es = ["confirm"]).
Proof.
  cbv zeta. unfold Android._clearCredentials.
  rewrite bind_call.
  destruct (reply_getPublishInfoAsync W h projectDir) as [e|args].
  { simpl. split; [repeat constructor|]. split; [discriminate | now left]. }
  cbn [fst snd]. rewrite bind_call. cbv beta iota. cbn [fst snd].
  destruct (reply_existsSync W _ _); unfold log_warn;
    repeat (rewrite ?bind_assoc, ?bind_emit; cbn [fst snd]);
    match goal with
    | |- context [bind (prompt W _) _ ?hh] =>
        destruct (prompt_confirm W hh) as [b Hb]; rewrite (bind_inr _ _ _ _ _ Hb)
    end;
    cbn [fst snd]; simpl get; simpl truthy;
    (destruct b;
     [unfold call; cbn [fst snd];
      split; [repeat constructor | split; [intros _; simpl; intuition | now right]]
     |unfold ret; cbn [fst snd];
      split; [repeat constructor | split; [discriminate | now right]]]).
Qed.


Lemma falsy_choice v : (v = JBool false \/ v = JBool true) -> truthy v = false -> v = JBool false.
Proof. intros [->| ->]; [reflexivity | discriminate]. Qed.

Lemma keystore_variables_unset W k :
  keystore_in_environment W = false -> In k keystore_keys ->
  truthy (env W (android_variable k)) = false.
Proof.
  unfold keystore_in_environment. intros Henv Hk.
  repeat (apply orb_false_iff in Henv; destruct Henv as [Henv ?]).
  simpl in Hk. destruct Hk as [<-|[<-|[<-|[<-|[]]]]]; assumption.
Qed.

(** The removal of Android credentials, within the credential step. *)
Lemma android_collect_removal W projectDir options h :
  let es := snd (Android.collectAndValidateCredentials W projectDir options h) in
  existsb is_removal es = true ->
  clearCredentials options = true
  /\ keystore_in_environment W = false
  /\ In (EvAsk "uploadKeystore" (JBool false)) es
  /\ In (EvAsk "confirm" (JBool true)) es
  /\ Forall (fun e => is_upsert e = false) es.
Proof.
  cbv zeta. apply android_collect_cases; cbv zeta.
  - intros e _. discriminate.
  - intros args e _ _. discriminate.
  - intros args stored _ _ _. discriminate.
  - intros args stored es final _ _ _ [Hcalls Hfacts].
    assert (Hnorem : existsb is_removal es = false).
    { apply existsb_none. revert Hcalls. apply no_calls_not. now intros [c| | |]. }
    assert (Hnoup : Forall (fun e => is_upsert e = false) es).
    { revert Hcalls. apply no_calls_not. now intros [c| | |]. }
    split.
    + intros Hup. split.
      * intros _. cbn [snd]. simpl app. simpl existsb. rewrite Hnorem. discriminate.
      * intros Hclear. cbn [snd].
        destruct (clearCredentials_trace W projectDir
                    ((h ++ [EvCall (Exp_getPublishInfoAsync projectDir);
                            EvCall (Credentials_credentialsExistForPlatformAsync
                                      (android_metadata args));
                            EvLog LConsole (Text "")]) ++ es)%list)
          as (Hcup & Hcrem & _).
        match goal with
        | |- context [snd (Android._clearCredentials W projectDir ?hh)] =>
            set (cleared := snd (Android._clearCredentials W projectDir hh)) in *
        end.
        simpl app. simpl existsb. rewrite existsb_app, Hnorem. simpl orb.
        intros Hrem. specialize (Hcrem Hrem).
        split; [exact Hclear|].
        destruct (keystore_in_environment W).
        { destruct Hfacts as (_ & Htrue & _). congruence. }
        destruct Hfacts as (v & Hv & Hget & _ & Hshape).
        rewrite Hget in Hup. rewrite Hup in Hshape.
        apply (falsy_choice v Hv) in Hup. rewrite Hup in Hshape. rewrite Hshape.
        split; [reflexivity|].
        split; [simpl; auto|].
        split; [do 4 right; exact Hcrem|].
        repeat (constructor; [reflexivity|]). exact Hcup.
    + intros Hup. cbv zeta. split.
      * intros e. cbn [snd]. simpl app. simpl existsb.
        rewrite existsb_app, Hnorem. discriminate.
      * intros path data _ _. cbn [snd]. simpl app. simpl existsb.
        rewrite existsb_app, Hnorem. discriminate.
Qed.

(** X8.  The Android builder deletes stored credentials only in a run with
    [clearCredentials] in which no keystore variable is set, the operator has
    chosen "Let Expo handle the process!" and has then answered yes to the
    confirmation; such a run uploads nothing.  With a keystore variable in
    the environment, [clearCredentials] overwrites without deleting. *)
Theorem android_removal_is_guarded (W : World) (projectDir : string) (options : Options)
        (h : Hist) :
  existsb is_removal (snd (Android.run W projectDir options h)) = true ->
  clearCredentials options = true
  /\ keystore_in_environment W = false
  /\ In (EvAsk "uploadKeystore" (JBool false)) (snd (Android.run W projectDir options h))
  /\ In (EvAsk "confirm" (JBool true)) (snd (Android.run W projectDir options h))
  /\ Forall (fun e => is_upsert e = false) (snd (Android.run W projectDir options h)).
Proof.
  unfold Android.run. rewrite snd_bind_call.
  destruct (reply_checkStatus W h) as [e|[]]; [discriminate|].
  rewrite snd_bind.
  pose proof (android_collect_removal W projectDir options
                                      (h ++ [EvCall this_checkStatus])%list) as Hc.
  cbv zeta in Hc.
  set (es := snd (Android.collectAndValidateCredentials W projectDir options
                    (h ++ [EvCall this_checkStatus])%list)) in *.
  set (tail := match fst (Android.collectAndValidateCredentials W projectDir options
                            (h ++ [EvCall this_checkStatus])%list) with
               | inl _ => []
               | inr a => _
               end).
  assert (Htail : Forall (fun e => is_removal e = false /\ is_upsert e = false) tail).
  { subst tail. destruct (fst _) as [e|[]]; [constructor|].
    rewrite snd_bind_call. destruct (reply_publish W _); repeat constructor. }
  simpl existsb. rewrite existsb_app.
  rewrite (existsb_none is_removal tail)
    by (revert Htail; apply Forall_impl; intros e He; apply He).
  rewrite orb_false_r. intros Hrem.
  destruct (Hc Hrem) as (H1 & H2 & H3 & H4 & H5).
  split; [exact H1|]. split; [exact H2|].
  split; [right; apply in_or_app; now left|].
  split; [right; apply in_or_app; now left|].
  constructor; [reflexivity|]. apply Forall_app. split; [exact H5|].
  revert Htail. apply Forall_impl. intros e He. apply He.
Qed.

Lemma android_removal_is_guarded_witness :
  clearCredentials clear_options = true
  /\ keystore_in_environment android_clearing_world = false
  /\ In (EvAsk "uploadKeystore" (JBool false))
        (snd (Android.run android_clearing_world "." clear_options []))
  /\ In (EvAsk "confirm" (JBool true))
        (snd (Android.run android_clearing_world "." clear_options []))
  /\ Forall (fun e => is_upsert e = false)
            (snd (Android.run android_clearing_world "." clear_options [])).
Proof.
  exact (android_removal_is_guarded android_clearing_world "." clear_options [] eq_refl).
Defined.

Lemma in_none_absurd (p : Event -> bool) es e :
  In e es -> Forall (fun e => p e = false) es -> p e = true -> False.
Proof.
  intros Hin Hes He. rewrite Forall_forall in Hes. specialize (Hes e Hin). congruence.
Qed.

(** The fields the prompt leaves for an upload. *)
Lemma android_prompted_fields W es final :
  android_prompted W es final ->
  truthy (get final "uploadKeystore") = true ->
  forall k, In k keystore_keys ->
            if truthy (env W (android_variable k))
            then get final k = env W (android_variable k)
            else exists typed, In (EvAsk k (JStr typed)) es /\ get final k = JStr typed.
Proof.
  intros [_ Hfacts] Hup k Hk.
  destruct (android_environmentAnswers_keys W) as (_ & _ & Hkeys).
  destruct (keystore_in_environment W) eqn:Henv.
  - destruct Hfacts as (_ & _ & Hsup). specialize (Hsup k Hk). unfold supplied in Hsup.
    rewrite (Hkeys k Hk) in Hsup. exact Hsup.
  - destruct Hfacts as (v & _ & Hget & _ & Hshape). rewrite Hget in Hup. rewrite Hup in Hshape.
    rewrite (keystore_variables_unset W k Henv Hk). apply Hshape, Hk.
Qed.

(** X9.  What the Android builder uploads.  Every upsert it makes is for
    the Android platform and holds exactly the keys keystore, keystoreAlias,
    keystorePassword and keyPassword.  Alias and passwords are, field by
    field, the value of the field's variable when it holds one and the
    typed answer otherwise; the keystore is the base64 text of a file that
    was read in this run, from the path in EXP_ANDROID_KEYSTORE_PATH when
    that is set and from the typed path otherwise. *)
Theorem android_upload_provenance (W : World) (projectDir : string) (options : Options)
        (h : Hist) (p : string) (creds m : obj) :
  In (EvCall (Credentials_updateCredentialsForPlatform p creds m))
     (snd (Android.collectAndValidateCredentials W projectDir options h)) ->
  p = "android"
  /\ keys creds = ["keystore"; "keystoreAlias"; "keystorePassword"; "keyPassword"]
  /\ (forall k, In k ["keystoreAlias"; "keystorePassword"; "keyPassword"] ->
        if truthy (env W (android_variable k))
        then get creds k = env W (android_variable k)
        else exists typed,
            In (EvAsk k (JStr typed))
               (snd (Android.collectAndValidateCredentials W projectDir options h))
            /\ get creds k = JStr typed)
  /\ exists path data h',
      (if truthy (env W "EXP_ANDROID_KEYSTORE_PATH")
       then env W "EXP_ANDROID_KEYSTORE_PATH" = JStr path
       else In (EvAsk "keystorePath" (JStr path))
               (snd (Android.collectAndValidateCredentials W projectDir options h)))
      /\ In (EvCall (fs_readFile (JStr path)))
            (snd (Android.collectAndValidateCredentials W projectDir options h))
      /\ reply_readFile W h' path = inr data
      /\ get creds "keystore" = JStr (base64 data).
Proof.
  revert p creds m. apply android_collect_cases; cbv zeta.
  - intros e _ p creds m Hin. in_cases Hin.
  - intros args e _ _ p creds m Hin. in_cases Hin.
  - intros args stored _ _ _ p creds m Hin. in_cases Hin.
  - intros args stored es final _ _ _ Hprompted.
    assert (Hnoup : Forall (fun e => is_upsert e = false) es).
    { destruct Hprompted as [Hcalls _]. revert Hcalls.
      apply no_calls_not. now intros [c| | |]. }
    split.
    + intros Hup. split.
      * intros _ p creds m Hin. cbn [snd] in Hin. simpl in Hin.
        destruct Hin as [Hin|[Hin|[Hin|Hin]]]; try discriminate Hin.
        exfalso. exact (in_none_absurd is_upsert _ _ Hin Hnoup eq_refl).
      * intros _ p creds m Hin. cbn [snd] in Hin. simpl in Hin.
        destruct Hin as [Hin|[Hin|[Hin|Hin]]]; try discriminate Hin.
        apply in_app_or in Hin as [Hin|Hin].
        -- exfalso. exact (in_none_absurd is_upsert _ _ Hin Hnoup eq_refl).
        -- exfalso. refine (in_none_absurd is_upsert _ _ Hin _ eq_refl).
           apply clearCredentials_trace.
    + intros Hup. split.
      * intros e p creds m Hin. cbn [snd] in Hin. simpl in Hin.
        destruct Hin as [Hin|[Hin|[Hin|Hin]]]; try discriminate Hin.
        apply in_app_or in Hin as [Hin|Hin].
        -- exfalso. exact (in_none_absurd is_upsert _ _ Hin Hnoup eq_refl).
        -- in_cases Hin.
      * intros path data Hpath Hdata p creds m Hin. cbn [snd] in *. simpl in Hin.
        destruct Hin as [Hin|[Hin|[Hin|Hin]]]; try discriminate Hin.
        apply in_app_or in Hin as [Hin|Hin].
        { exfalso. exact (in_none_absurd is_upsert _ _ Hin Hnoup eq_refl). }
        destruct Hin as [Hin|[Hin|[]]]; [discriminate Hin|].
        injection Hin as <- <- <-.
        pose proof (android_prompted_fields W es final Hprompted Hup) as Hfields.
        split; [reflexivity|]. split; [reflexivity|]. split.
        -- intros k Hk.
           assert (Hk' : In k keystore_keys) by (simpl in *; intuition).
           specialize (Hfields k Hk').
           assert (Hget : get (android_bundle final data) k = get final k).
           { simpl in Hk. destruct Hk as [<-|[<-|[<-|[]]]]; reflexivity. }
           rewrite Hget. destruct (truthy (env W (android_variable k))); [exact Hfields|].
           destruct Hfields as (typed & Hasked & Htyped). exists typed.
           split; [|exact Htyped]. simpl. do 3 right. apply in_or_app. now left.
        -- exists path, data. eexists. 
           specialize (Hfields "keystorePath" (or_introl eq_refl)).
           change (android_variable "keystorePath") with "EXP_ANDROID_KEYSTORE_PATH"
             in Hfields.
           split; [|split; [|split; [exact Hdata | reflexivity]]].
           ++ destruct (truthy (env W "EXP_ANDROID_KEYSTORE_PATH")); [congruence|].
              destruct Hfields as (typed & Hasked & Htyped).
              assert (typed = path) as -> by congruence.
              simpl. do 3 right. apply in_or_app. now left.
           ++ rewrite Hpath. simpl. do 3 right. apply in_or_app. right. now left.
Qed.

Lemma android_upload_provenance_witness :
  "android" = "android"
  /\ keys [("keystore", JStr "TWFu"); ("keystoreAlias", JStr "alias");
           ("keystorePassword", JStr "typed keystorePassword");
           ("keyPassword", JStr "typed keyPassword")]
     = ["keystore"; "keystoreAlias"; "keystorePassword"; "keyPassword"]
  /\ In (EvAsk "keystorePassword" (JStr "typed keystorePassword"))
        (snd (Android.collectAndValidateCredentials android_partial_world "."
                                                    default_options []))
  /\ In (EvCall (fs_readFile (JStr "release.jks")))
        (snd (Android.collectAndValidateCredentials android_partial_world "."
                                                    default_options [])).
Proof.
  destruct (android_upload_provenance
              android_partial_world "." default_options [] "android"
              [("keystore", JStr "TWFu"); ("keystoreAlias", JStr "alias");
               ("keystorePassword", JStr "typed keystorePassword");
               ("keyPassword", JStr "typed keyPassword")]
              (android_metadata example_args))
    as (Hp & Hkeys & Hfields & _).
  { vm_compute. intuition. }
  split; [exact Hp|]. split; [exact Hkeys|].
  split; vm_compute; intuition.
Defined.

(** X10.  What the Android builder asks when it resolves credentials
    (nothing is stored, or [clearCredentials] is set).  With a keystore
    variable set it asks, in order, for exactly those of path, alias, store
    password and key password whose own variable is unset or empty, and
    never for the strategy.  With none set it asks for the strategy first
    and follows the answer: after "I want to upload my own keystore!" it
    asks for all four fields, after "Let Expo handle the process!" for
    nothing more, apart from the confirmation of a deletion in a run with
    [clearCredentials]. *)
Theorem android_questions (W : World) (projectDir : string) (options : Options)
        (h : Hist) (args : obj) (stored : option obj) :
  reply_getPublishInfoAsync W h projectDir = inr args ->
  reply_credentialsExistForPlatformAsync
    W (h ++ [EvCall (Exp_getPublishInfoAsync projectDir)])%list (android_metadata args)
  = inr stored ->
  clearCredentials options = true \/ stored = None ->
  if keystore_in_environment W
  then question_names (snd (Android.collectAndValidateCredentials W projectDir options h))
       = filter (fun k => negb (truthy (env W (android_variable k)))) keystore_keys
  else exists v,
      (v = JBool false \/ v = JBool true)
      /\ In (EvAsk "uploadKeystore" v)
            (snd (Android.collectAndValidateCredentials W projectDir options h))
      /\ if truthy v
         then question_names
                (snd (Android.collectAndValidateCredentials W projectDir options h))
              = "uploadKeystore" :: keystore_keys
         else question_names
                (snd (Android.collectAndValidateCredentials W projectDir options h))
              = ["uploadKeystore"]
              \/ (clearCredentials options = true
                  /\ question_names
                       (snd (Android.collectAndValidateCredentials W projectDir options h))
                     = ["uploadKeystore"; "confirm"]).
Proof.
  intros Hargs Hstored Hcond. revert Hargs Hstored.
  apply android_collect_cases; cbv zeta.
  - intros e He Hargs. congruence.
  - intros args' e Ha He Hargs Hs. congruence.
  - intros args' stored' Ha Hs Hclear Hargs Hstored.
    destruct Hcond as [Hc| ->]; congruence.
  - intros args' stored' es final _ _ _ [Hcalls Hfacts].
    assert (Hnames : forall tail,
               question_names ([EvCall (Exp_getPublishInfoAsync projectDir);
                                EvCall (Credentials_credentialsExistForPlatformAsync
                                          (android_metadata args'));
                                EvLog LConsole (Text "")] ++ es ++ tail)
               = (question_names es ++ question_names tail)%list).
    { intros tail. simpl. apply question_names_app. }
    destruct (keystore_in_environment W).
    { destruct Hfacts as (Hes & Htrue & _). split.
      - intros Hup. congruence.
      - intros Hup. split.
        + intros e _ _. cbn [snd]. rewrite Hnames. cbn [question_names].
          rewrite app_nil_r. exact Hes.
        + intros path data _ _ _ _. cbn [snd]. rewrite Hnames. cbn [question_names].
          rewrite app_nil_r. exact Hes. }
    destruct Hfacts as (v & Hv & Hget & Hhd & Hshape). rewrite Hget.
    assert (Hasked : forall tail,
               In (EvAsk "uploadKeystore" v)
                  ([EvCall (Exp_getPublishInfoAsync projectDir);
                    EvCall (Credentials_credentialsExistForPlatformAsync
                              (android_metadata args'));
                    EvLog LConsole (Text "")] ++ es ++ tail)).
    { intros tail. destruct es as [|e es']; [discriminate Hhd|].
      injection Hhd as ->. simpl. auto. }
    split.
    + intros Hup. rewrite Hup in Hshape. split.
      * intros _ _ _. exists v. rewrite Hup. split; [exact Hv|]. cbn [snd].
        split; [rewrite <- (app_nil_r es) at 1; apply Hasked|].
        left. rewrite <- (app_nil_r es), Hnames, Hshape. reflexivity.
      * intros Hclear _ _. exists v. rewrite Hup. split; [exact Hv|]. cbn [snd].
        split; [apply Hasked|]. rewrite Hnames, Hshape.
        match goal with
        | |- context [snd (Android._clearCredentials W projectDir ?hh)] =>
            destruct (clearCredentials_trace W projectDir hh) as (_ & _ & [Hn|Hn])
        end.
        -- left. simpl. rewrite Hn. reflexivity.
        -- right. split; [exact Hclear|]. simpl. rewrite Hn. reflexivity.
    + intros Hup. rewrite Hup in Hshape. destruct Hshape as [Hes _]. split.
      * intros e _ _. exists v. rewrite Hup. split; [exact Hv|]. cbn [snd].
        split; [apply Hasked|]. rewrite Hnames, Hes. cbn [question_names].
        now rewrite app_nil_r.
      * intros path data _ _ _ _. exists v. rewrite Hup. split; [exact Hv|]. cbn [snd].
        split; [apply Hasked|]. rewrite Hnames, Hes. cbn [question_names].
        now rewrite app_nil_r.
Qed.

Lemma android_questions_witness :
  question_names
    (snd (Android.collectAndValidateCredentials android_partial_world "."
                                                default_options []))
  = ["keystorePassword"; "keyPassword"]
  /\ exists v,
      (v = JBool false \/ v = JBool true)
      /\ In (EvAsk "uploadKeystore" v)
            (snd (Android.collectAndValidateCredentials android_clearing_world "."
                                                        clear_options []))
      /\ if truthy v
         then question_names
                (snd (Android.collectAndValidateCredentials android_clearing_world "."
                                                            clear_options []))
              = "uploadKeystore" :: keystore_keys
         else question_names
                (snd (Android.collectAndValidateCredentials android_clearing_world "."
                                                            clear_options []))
              = ["uploadKeystore"]
              \/ (clearCredentials clear_options = true
                  /\ question_names
                       (snd (Android.collectAndValidateCredentials android_clearing_world
                                                                   "." clear_options []))
                     = ["uploadKeystore"; "confirm"]).
Proof.
  split.
  - exact (android_questions android_partial_world "." default_options [] example_args None
                             eq_refl eq_refl (or_intror eq_refl)).
  - exact (android_questions android_clearing_world "." clear_options [] example_args
                             (Some stored_android_credentials) eq_refl eq_refl
                             (or_introl eq_refl)).
Defined.

(** ** The certificate prompts of the per-field builder *)

(** Running a computation by evaluation, with what is known of the values
    it tests. *)
Ltac run_fast :=
  lazy beta iota zeta delta
    [bind call ask emit ret throw log log_warn log_error console_log console_log_value
     when_ try_catch finally readFile prompt prompt_with prompt_from
     Android.when_keystore Android.when_upload
     Legacy.when_not_in_environment Legacy.when_manage Legacy.when_path
     Legacy.when_password Legacy.validateCertificatePath Legacy.validate_existing
     q_when q_name q_type q_message
     get set delete has keys assign literal
     String.eqb Ascii.eqb Bool.eqb negb orb andb fst snd fold_left map].

Ltac run_quick :=
  repeat (progress
            (run_fast; cbn [truthy];
             repeat match goal with
                    | H : truthy ?v = _ |- context [truthy ?v] => rewrite H
                    | H : forall h, reply_stat_isFile ?W h ?p = _
                      |- context [reply_stat_isFile ?W _ ?p] => rewrite H
                    end)).

Lemma selected_manage i :
  selected Legacy.manage_choices i = JBool true
  \/ selected Legacy.manage_choices i = JBool false.
Proof. destruct i as [|[|[|i]]]; simpl; auto. Qed.

(** X11.  [askForCerts] with neither EXP_DIST_CERTIFICATE_PATH nor
    EXP_DIST_CERTIFICATE_PASSWORD set asks for the strategy and follows the
    answer.  After "Let Expo handle the process!" it asks nothing else and
    its only call is [fetchAppleCertificates].  After "I want to upload my
    own certificate!" it asks for the path and the password, the one file
    it reads is the file at the typed path, and it has nothing
    generated. *)
Theorem askForCerts_follows_the_choice (W : World) (metadata : obj) (h : Hist) :
  truthy (env W "EXP_DIST_CERTIFICATE_PATH") = false ->
  truthy (env W "EXP_DIST_CERTIFICATE_PASSWORD") = false ->
  exists v,
    (v = JBool true \/ v = JBool false)
    /\ In (EvAsk "manageCertificates" v) (snd (Legacy.askForCerts W metadata h))
    /\ if truthy v
       then question_names (snd (Legacy.askForCerts W metadata h)) = ["manageCertificates"]
            /\ calls (snd (Legacy.askForCerts W metadata h))
               = [Credentials_fetchAppleCertificates metadata]
       else question_names (snd (Legacy.askForCerts W metadata h))
            = ["manageCertificates"; "pathToP12"; "certPassword"]
            /\ exists typed,
                In (EvAsk "pathToP12" (JStr typed)) (snd (Legacy.askForCerts W metadata h))
                /\ filter is_file_read (snd (Legacy.askForCerts W metadata h))
                   = [EvCall (fs_readFile (JStr typed))]
                /\ Forall (fun e => is_managed_generation e = false)
                          (snd (Legacy.askForCerts W metadata h)).
Proof.
  intros T1 T2. unfold Legacy.askForCerts.
  generalize dependent (env W "EXP_DIST_CERTIFICATE_PATH"). intros v1 T1.
  generalize dependent (env W "EXP_DIST_CERTIFICATE_PASSWORD"). intros v2 T2.
  run_quick.
  match goal with
  | |- context [selected ?cs ?i] =>
      change cs with Legacy.manage_choices;
      destruct (selected_manage i) as [Hv|Hv]; rewrite !Hv
  end; run_quick.
  - exists (JBool true). split; [now left|]. simpl.
    destruct (reply_fetchAppleCertificates W _ _) as [e|[]]; simpl; auto.
  - exists (JBool false). split; [now right|]. simpl.
    match goal with
    | |- context [answer_input ?w ?hh "pathToP12"] =>
        generalize (answer_input w hh "pathToP12"); intros typed
    end.
    match goal with
    | |- context [answer_input ?w ?hh "certPassword"] =>
        generalize (answer_input w hh "certPassword"); intros password
    end.
    destruct (reply_readFile W _ _) as [e|data]; run_quick.
    { simpl. split; [auto|]. split; [reflexivity|]. eexists.
      split; [|split; [reflexivity | repeat constructor]]. auto. }
    destruct (reply_validateCredentialsForPlatform W _ _ _ _ _) as [e|[]]; run_quick.
    { simpl. split; [auto|]. split; [reflexivity|]. eexists.
      split; [|split; [reflexivity | repeat constructor]]. auto. }
    destruct (reply_updateCredentialsForPlatform W _ _ _ _) as [e|[]]; run_quick; simpl;
      (split; [auto|]; split; [reflexivity|]; eexists;
       (split; [|split; [reflexivity | repeat constructor]]); auto).
Qed.

Lemma askForCerts_follows_the_choice_witness :
  (exists v,
    (v = JBool true \/ v = JBool false)
    /\ In (EvAsk "manageCertificates" v)
          (snd (Legacy.askForCerts declining_world ios_metadata []))
    /\ if truthy v
       then question_names (snd (Legacy.askForCerts declining_world ios_metadata []))
            = ["manageCertificates"]
            /\ calls (snd (Legacy.askForCerts declining_world ios_metadata []))
               = [Credentials_fetchAppleCertificates ios_metadata]
       else question_names (snd (Legacy.askForCerts declining_world ios_metadata []))
            = ["manageCertificates"; "pathToP12"; "certPassword"]
            /\ exists typed,
                In (EvAsk "pathToP12" (JStr typed))
                   (snd (Legacy.askForCerts declining_world ios_metadata []))
                /\ filter is_file_read
                          (snd (Legacy.askForCerts declining_world ios_metadata []))
                   = [EvCall (fs_readFile (JStr typed))]
                /\ Forall (fun e => is_managed_generation e = false)
                          (snd (Legacy.askForCerts declining_world ios_metadata [])))
  /\ (exists v,
    (v = JBool true \/ v = JBool false)
    /\ In (EvAsk "manageCertificates" v)
          (snd (Legacy.askForCerts expert_world ios_metadata []))
    /\ if truthy v
       then question_names (snd (Legacy.askForCerts expert_world ios_metadata []))
            = ["manageCertificates"]
            /\ calls (snd (Legacy.askForCerts expert_world ios_metadata []))
               = [Credentials_fetchAppleCertificates ios_metadata]
       else question_names (snd (Legacy.askForCerts expert_world ios_metadata []))
            = ["manageCertificates"; "pathToP12"; "certPassword"]
            /\ exists typed,
                In (EvAsk "pathToP12" (JStr typed))
                   (snd (Legacy.askForCerts expert_world ios_metadata []))
                /\ filter is_file_read
                          (snd (Legacy.askForCerts expert_world ios_metadata []))
                   = [EvCall (fs_readFile (JStr typed))]
                /\ Forall (fun e => is_managed_generation e = false)
                          (snd (Legacy.askForCerts expert_world ios_metadata []))).
Proof.
  split.
  - exact (askForCerts_follows_the_choice declining_world ios_metadata [] eq_refl eq_refl).
  - exact (askForCerts_follows_the_choice expert_world ios_metadata [] eq_refl eq_refl).
Defined.

(** ** Validation before every upsert *)

Lemma upserts_validated_nil W h : upserts_validated W h [].
Proof. intros pre platform creds m post Heq. destruct pre; discriminate. Qed.

Lemma upserts_validated_app W h a b :
  upserts_validated W h a -> upserts_validated W (h ++ a)%list b ->
  upserts_validated W h (a ++ b)%list.
Proof.
  intros Ha Hb pre platform creds m post Heq.
  apply app_eq_middle in Heq as [(post1 & Hpre & _)|(pre2 & -> & Hpost)].
  - exact (Ha _ _ _ _ _ Hpre).
  - destruct (Hb _ _ _ _ _ Hpost) as (pre' & kind & -> & Hreply).
    exists (a ++ pre')%list, kind. split; [now rewrite app_assoc|].
    now rewrite app_assoc.
Qed.

Lemma upserts_validated_none W h es :
  Forall (fun e => is_upsert e = false) es -> upserts_validated W h es.
Proof.
  intros Hes pre platform creds m post Heq. exfalso.
  exact (not_in_middle is_upsert es pre post
                       (EvCall (Credentials_updateCredentialsForPlatform platform creds m))
                       Hes eq_refl Heq).
Qed.

(** Validation, then the upsert of what was validated. *)
Lemma validate_then_upsert W kind creds m :
  always (upserts_validated W)
    (call (Credentials_validateCredentialsForPlatform "ios" kind (Some creds) m)
          (fun h => reply_validateCredentialsForPlatform W h "ios" kind (Some creds) m) ;;
     call (Credentials_updateCredentialsForPlatform "ios" creds m)
          (fun h => reply_updateCredentialsForPlatform W h "ios" creds m)).
Proof.
  intros h. rewrite snd_bind_call.
  destruct (reply_validateCredentialsForPlatform W h "ios" kind (Some creds) m)
    as [e|[]] eqn:Hv.
  - apply upserts_validated_none. repeat constructor.
  - unfold call. cbn [snd].
    intros pre platform creds' m' post Heq.
    destruct pre as [|x [|y pre]]; simpl in Heq.
    + discriminate.
    + injection Heq as <- <- <- <- <-. exists [], kind. split; [reflexivity|].
      now rewrite app_nil_r.
    + destruct pre; discriminate.
Qed.

Ltac not_upsert :=
  eapply quiet_weaken; [|solve [eauto]];
  let e := fresh "e" in
  intros e; destruct e as [[]| | |]; simpl; try reflexivity;
  intros [[? _] _]; discriminate.

Lemma always_validated_of_quiet {A} W (m : M A) :
  quiet (fun e => is_upsert e = false) m -> always (upserts_validated W) m.
Proof.
  apply always_of_quiet. intros h es. apply upserts_validated_none.
Qed.

Lemma quiet_prompt_no_upsert W (qs : list (Question obj)) answers s :
  Forall (fun q => forall w, q_when q = Some w ->
                             forall a s, quiet (fun e => is_upsert e = false) (w a s)) qs ->
  quiet (fun e => is_upsert e = false) (prompt_from W qs answers s).
Proof.
  intros Hqs. apply quiet_prompt_from. eapply Forall_impl; [|exact Hqs].
  intros q Hq. split; [reflexivity | exact Hq].
Qed.

Ltac when_no_upsert :=
  repeat (apply Forall_cons;
          [ let w := fresh "w" in
            let Hw := fresh "Hw" in
            intros w Hw; simpl in Hw;
            first [ discriminate Hw
                  | injection Hw as <-; intros;
                    unfold Legacy.when_not_in_environment, Legacy.when_manage,
                      Legacy.when_path, Legacy.when_password,
                      Legacy.validateCertificatePath;
                    quiet_auto ]
          | ]);
  apply Forall_nil.

Lemma validated_bind {A B} W (m : M A) (f : A -> M B) :
  always (upserts_validated W) m -> (forall a, always (upserts_validated W) (f a)) ->
  always (upserts_validated W) (bind m f).
Proof. apply always_bind. apply upserts_validated_app. Qed.

Lemma validated_quiet_bind {A B} W (m : M A) (f : A -> M B) :
  quiet (fun e => is_upsert e = false) m -> (forall a, always (upserts_validated W) (f a)) ->
  always (upserts_validated W) (bind m f).
Proof. intros Hm. apply validated_bind. now apply always_validated_of_quiet. Qed.

Lemma validated_try_catch {A} W (m : M A) (handler : Exn -> M A) :
  always (upserts_validated W) m ->
  (forall e, quiet (fun e => is_upsert e = false) (handler e)) ->
  always (upserts_validated W) (try_catch m handler).
Proof.
  intros Hm Hh. apply always_try_catch; [apply upserts_validated_app | exact Hm|].
  intros e. apply always_validated_of_quiet, Hh.
Qed.

Lemma askForAppleId_validated W m : always (upserts_validated W) (Legacy.askForAppleId W m).
Proof.
  unfold Legacy.askForAppleId.
  do 2 (apply validated_quiet_bind; [quiet_auto | intros _]).
  apply validated_quiet_bind;
    [unfold prompt_with; apply quiet_prompt_no_upsert; when_no_upsert
    | intros [answers environmentAnswers]].
  apply validated_quiet_bind; [quiet_auto | intros _].
  apply validate_then_upsert.
Qed.

Lemma askForCerts_validated W m : always (upserts_validated W) (Legacy.askForCerts W m).
Proof.
  unfold Legacy.askForCerts.
  apply validated_quiet_bind; [quiet_auto | intros _].
  apply validated_quiet_bind;
    [unfold prompt_with; apply quiet_prompt_no_upsert; when_no_upsert
    | intros [answers environmentAnswers]].
  apply validated_bind; [|intros _; apply always_validated_of_quiet; quiet_auto].
  destruct (truthy _).
  - apply always_validated_of_quiet. quiet_auto.
  - apply validated_quiet_bind; [quiet_auto | intros p12Data].
    apply validated_quiet_bind; [quiet_auto | intros _].
    apply validate_then_upsert.
Qed.

Lemma askForPushCerts_validated W m :
  always (upserts_validated W) (Legacy.askForPushCerts W m).
Proof.
  unfold Legacy.askForPushCerts.
  apply validated_quiet_bind;
    [unfold prompt_with; apply quiet_prompt_no_upsert; when_no_upsert
    | intros [answers environmentAnswers]].
  apply validated_bind; [|intros _; apply always_validated_of_quiet; quiet_auto].
  destruct (truthy _).
  - apply always_validated_of_quiet. quiet_auto.
  - apply validated_quiet_bind; [quiet_auto | intros p12Data].
    apply validated_quiet_bind; [quiet_auto | intros _].
    apply validate_then_upsert.
Qed.

Lemma legacy_collect_validated W options username experienceName bundleIdentifier :
  always (upserts_validated W)
         (Legacy.collectAndValidateCredentials W options username experienceName
                                               bundleIdentifier).
Proof.
  unfold Legacy.collectAndValidateCredentials. cbv zeta.
  apply validated_quiet_bind; [quiet_auto | intros _].
  apply validated_quiet_bind; [quiet_auto | intros existingCredentials].
  destruct existingCredentials as [existing|]; [destruct (clearCredentials options)|];
    cbv beta iota;
    (apply validated_bind;
     [destruct (negb _); [apply askForAppleId_validated
                         | apply always_validated_of_quiet;
                           unfold Legacy.validate_existing; quiet_auto]
     | intros _]);
    (apply validated_quiet_bind; [quiet_auto | intros _]);
    (apply validated_bind;
     [destruct (negb _); [apply askForCerts_validated
                         | apply always_validated_of_quiet;
                           unfold Legacy.validate_existing; quiet_auto]
     | intros _]);
    (apply validated_quiet_bind; [quiet_auto | intros _]);
    (destruct (negb _); [apply askForPushCerts_validated
                        | apply always_validated_of_quiet;
                          unfold Legacy.validate_existing; quiet_auto]).
Qed.

(** X12.  The per-field iOS builder stores nothing it has not had
    validated: in every run, each call of [updateCredentialsForPlatform]
    comes directly after a call of [validateCredentialsForPlatform] with the
    same platform, credentials and metadata, and that call had returned
    normally. *)
Theorem legacy_upserts_are_validated (W : World) (projectDir : string) (options : Options)
        (h : Hist) :
  upserts_validated W h (snd (Legacy.run W projectDir options h)).
Proof.
  revert h. change (always (upserts_validated W) (Legacy.run W projectDir options)).
  unfold Legacy.run.
  apply validated_quiet_bind; [quiet_auto | intros args].
  destruct (negb _); [apply always_validated_of_quiet, quiet_throw|].
  apply validated_quiet_bind; [quiet_auto | intros _].
  apply validated_bind; [|intros _; apply always_validated_of_quiet; quiet_auto].
  destruct (not_simulator options); [|apply always_validated_of_quiet, quiet_ret].
  apply validated_try_catch; [apply legacy_collect_validated | intros e; quiet_auto].
Qed.

Lemma legacy_upserts_are_validated_witness :
  exists pre' kind,
    firstn 11 (snd (Legacy.run legacy_fresh_world "." default_options []))
    = (pre' ++ [EvCall (Credentials_validateCredentialsForPlatform
                          "ios" kind
                          (Some [("appleId", JStr "alice@example.com");
                                 ("password", JStr "apple-pw"); ("teamId", JStr "TEAM")])
                          ios_metadata)])%list
    /\ reply_validateCredentialsForPlatform
         legacy_fresh_world ([] ++ pre')%list "ios" kind
         (Some [("appleId", JStr "alice@example.com"); ("password", JStr "apple-pw");
                ("teamId", JStr "TEAM")])
         ios_metadata
       = inr tt.
Proof.
  exact (legacy_upserts_are_validated
           legacy_fresh_world "." default_options []
           (firstn 11 (snd (Legacy.run legacy_fresh_world "." default_options [])))
           "ios"
           [("appleId", JStr "alice@example.com"); ("password", JStr "apple-pw");
            ("teamId", JStr "TEAM")]
           ios_metadata
           (skipn 12 (snd (Legacy.run legacy_fresh_world "." default_options [])))
           eq_refl).
Defined.

(** ** Deleting stored credentials in the batch iOS builder *)

Lemma not_removal_local_auth metadata e :
  footprint local_auth_call "ios" metadata e -> is_removal e = false.
Proof. destruct e as [c| | |]; try reflexivity. intros [[Hc _] _]. now destruct c. Qed.

(** What follows the removal step of [IOS.run] removes nothing. *)
Lemma ios_run_rest_no_removal W options metadata :
  quiet (fun e => is_removal e = false)
        (when_ (not_simulator options)
           (try_catch
              (when_ (DEBUG W)
                 (exist <- call authFuncs_doFastlaneActionsExist
                                (reply_doFastlaneActionsExist W) ;;
                  console_log_value exist) ;;
               call authFuncs_prepareLocalAuth (reply_prepareLocalAuth W) ;;
               IOS.runLocalAuth W options metadata)
              (fun e =>
                 log_error "Error while gathering & validating credentials" ;;
                 when_ (DEBUG W)
                   (stdout <- IOS.stdout_of e ;;
                    if defined stdout then
                      match stdout with
                      | JStr s => log_error (IOS.remove_nul s)
                      | _ => throw (TypeError "e.stdout.replace is not a function")
                      end
                    else emit (EvLog LError (JsonOf e))) ;;
                 throw e)) ;;
         publishedExpIds <- call (this_ensureReleaseExists "ios")
                                 (fun h => reply_ensureReleaseExists W h "ios") ;;
         call (this_build publishedExpIds "ios")
              (fun h => reply_build W h publishedExpIds "ios")).
Proof.
  apply quiet_bind; [|intros _; quiet_auto].
  apply quiet_when_, quiet_try_catch.
  - apply quiet_bind; [quiet_auto | intros _].
    apply quiet_bind; [quiet_auto | intros _].
    eapply quiet_weaken; [apply not_removal_local_auth | apply quiet_runLocalAuth].
  - intros e. apply quiet_run_handler. reflexivity.
Qed.

(** The trace of [IOS.run] holds no removal, or one as its third event. *)
Lemma ios_run_removal_shape W projectDir options h :
  Forall (fun e => is_removal e = false) (snd (IOS.run W projectDir options h))
  \/ (clearCredentials options = true
      /\ exists args rest,
          reply_getPublishInfoAsync W h projectDir = inr args
          /\ truthy (get args "bundleIdentifierIOS") = true
          /\ reply_checkStatus W (h ++ [EvCall (Exp_getPublishInfoAsync projectDir)])%list
             = inr tt
          /\ snd (IOS.run W projectDir options h)
             = ([EvCall (Exp_getPublishInfoAsync projectDir); EvCall this_checkStatus]
                  ++ EvCall (Credentials_removeCredentialsForPlatform
                               "ios" (ios_project_metadata args)) :: rest)%list
          /\ Forall (fun e => is_removal e = false) rest).
Proof.
  unfold IOS.run. rewrite snd_bind_call.
  destruct (reply_getPublishInfoAsync W h projectDir) as [x|args] eqn:Eargs;
    [left; repeat constructor|].
  destruct (truthy (get args "bundleIdentifierIOS")) eqn:Eb; cbn [negb];
    [|left; repeat constructor].
  rewrite snd_bind_call.
  destruct (reply_checkStatus W (h ++ [EvCall (Exp_getPublishInfoAsync projectDir)])%list)
    as [x|[]] eqn:Estatus; [left; repeat constructor|].
  destruct (clearCredentials options) eqn:Eclear.
  - right. split; [reflexivity|]. exists args.
    cbn [when_]. rewrite snd_bind, bind_call.
    match goal with |- context [reply_removeCredentialsForPlatform W ?hh ?p ?m] =>
      destruct (reply_removeCredentialsForPlatform W hh p m) as [x|[]] end.
    + exists []. repeat split; auto.
    + eexists. split; [reflexivity|]. split; [exact Eb|]. split; [reflexivity|].
      split; [cbn [fst snd app]; reflexivity|].
      constructor; [reflexivity|]. apply ios_run_rest_no_removal.
  - left. constructor; [reflexivity|]. constructor; [reflexivity|].
    cbn [when_]. rewrite snd_bind. cbn [ret fst snd app].
    apply ios_run_rest_no_removal.
Qed.

(** X13.  The batch iOS builder deletes the stored credentials exactly in a
    run with [clearCredentials] that got past the status check: the removal
    is then the third call of the run, right after the read of the project
    metadata and the status check, for platform ios and the project's
    metadata.  No question comes before it, nothing has been resolved yet,
    the build type plays no part, and there is no second removal. *)
Theorem ios_removal_is_unconfirmed (W : World) (projectDir : string) (options : Options)
        (h : Hist) :
  (forall pre e post,
      snd (IOS.run W projectDir options h) = (pre ++ e :: post)%list ->
      is_removal e = true ->
      clearCredentials options = true
      /\ pre = [EvCall (Exp_getPublishInfoAsync projectDir); EvCall this_checkStatus]
      /\ (exists args,
             reply_getPublishInfoAsync W h projectDir = inr args
             /\ e = EvCall (Credentials_removeCredentialsForPlatform
                              "ios" (ios_project_metadata args)))
      /\ Forall (fun e => is_removal e = false) post)
  /\ (forall args,
         clearCredentials options = true ->
         reply_getPublishInfoAsync W h projectDir = inr args ->
         truthy (get args "bundleIdentifierIOS") = true ->
         reply_checkStatus W (h ++ [EvCall (Exp_getPublishInfoAsync projectDir)])%list
         = inr tt ->
         exists post,
           snd (IOS.run W projectDir options h)
           = [EvCall (Exp_getPublishInfoAsync projectDir); EvCall this_checkStatus;
              EvCall (Credentials_removeCredentialsForPlatform
                        "ios" (ios_project_metadata args))] ++ post)%list.
Proof.
  split.
  - intros pre e post Heq He.
    destruct (ios_run_removal_shape W projectDir options h)
      as [Hnone|(Hclear & args & rest & Hargs & _ & _ & Hshape & Hrest)].
    + exfalso. exact (not_in_middle is_removal _ pre post e Hnone He Heq).
    + rewrite Hshape in Heq.
      assert (Hpre : Forall (fun e => is_removal e = false)
                            [EvCall (Exp_getPublishInfoAsync projectDir);
                             EvCall this_checkStatus]) by (repeat constructor).
      destruct (split_unique is_removal _ _ _ _ _ _ Hpre Hrest He Heq) as (<- & <- & <-).
      split; [exact Hclear|]. split; [reflexivity|]. split; [|exact Hrest].
      exists args. auto.
  - intros args Hclear Hargs Hb Hstatus.
    destruct (ios_run_removal_shape W projectDir options h)
      as [Hnone|(_ & args' & rest & Hargs' & _ & _ & Hshape & _)].
    + exfalso. revert Hnone. unfold IOS.run.
      rewrite snd_bind_call, Hargs, Hb. cbn [negb]. rewrite snd_bind_call, Hstatus, Hclear.
      cbn [when_]. rewrite snd_bind, bind_call. intros Hnone.
      inversion Hnone as [|? ? _ Hnone1]; subst.
      inversion Hnone1 as [|? ? _ Hnone2]; subst.
      apply Forall_app in Hnone2 as [Hnone2 _]. revert Hnone2.
      match goal with |- context [reply_removeCredentialsForPlatform W ?hh ?p ?m] =>
        destruct (reply_removeCredentialsForPlatform W hh p m) as [x|[]] end;
        cbn [fst snd]; intros Hnone2; inversion Hnone2; discriminate.
    + rewrite Hargs in Hargs'. injection Hargs' as <-. exists rest. exact Hshape.
Qed.

(** ** Failures of the credential step *)

Section LegacyEvents.
Variable P : Event -> Prop.
Hypothesis Hlog : forall s, P (EvLog LLog (Text s)).
Hypothesis Hconsole : forall s, P (EvLog LConsole (Text s)).

Ltac legacy_event :=
  first [ apply Hlog | apply Hconsole
        | solve [auto]
        | match goal with
          | H : forall name v, In name _ -> P (EvAsk name v) |- P (EvAsk _ _) =>
              apply H; simpl; tauto
          | H : forall c, keys c = _ -> P (EvCall _) |- P (EvCall _) =>
              apply H; reflexivity
          | H : forall p, P _ /\ P _ |- P (EvCall (fs_stat ?p)) => apply (proj1 (H p))
          | H : forall p, P _ /\ P _ |- P (EvCall (fs_readFile ?p)) => apply (proj2 (H p))
          end ].

Ltac legacy_events :=
  unfold log, console_log, readFile, Legacy.validate_existing;
  repeat first
    [ apply quiet_ret
    | apply quiet_throw
    | apply quiet_emit; legacy_event
    | apply quiet_call; legacy_event
    | apply quiet_bind; [|intros]
    | apply quiet_try_catch; [|intros]
    | match goal with
      | |- quiet _ (if ?b then _ else _) => destruct b
      end ].

Ltac legacy_questions :=
  unfold prompt_with; apply quiet_prompt_from;
  repeat (apply Forall_cons;
          [ split;
            [ intros; legacy_event
            | let w := fresh "w" in
              let Hw := fresh "Hw" in
              intros w Hw; simpl in Hw; injection Hw as <-; intros;
              unfold Legacy.when_not_in_environment, Legacy.when_manage,
                Legacy.when_path, Legacy.when_password, Legacy.validateCertificatePath;
              legacy_events ]
          | ]);
  apply Forall_nil.

(** Each field step of the per-field builder adds plain log and console
    lines, its own questions, the validation of the credentials of its own
    kind and the upsert of its own keys; a certificate step also file checks
    and reads and its own fetch. *)
Lemma askForAppleId_events W m :
  (forall name v, In name ["appleId"; "password"; "teamId"] -> P (EvAsk name v)) ->
  (forall c, P (EvCall (Credentials_validateCredentialsForPlatform
                          "ios" "appleId" (Some c) m))) ->
  (forall c, keys c = ["appleId"; "password"; "teamId"] ->
             P (EvCall (Credentials_updateCredentialsForPlatform "ios" c m))) ->
  quiet P (Legacy.askForAppleId W m).
Proof.
  intros Hask Hvalidate Hupdate. unfold Legacy.askForAppleId.
  do 2 (apply quiet_bind; [legacy_events | intros _]).
  apply quiet_bind; [legacy_questions | intros [answers environmentAnswers]].
  legacy_events.
Qed.

Lemma askForCerts_events W m :
  (forall name v, In name ["manageCertificates"; "pathToP12"; "certPassword"] ->
                  P (EvAsk name v)) ->
  (forall p, P (EvCall (fs_stat p)) /\ P (EvCall (fs_readFile p))) ->
  P (EvCall (Credentials_fetchAppleCertificates m)) ->
  (forall c, P (EvCall (Credentials_validateCredentialsForPlatform
                          "ios" "cert" (Some c) m))) ->
  (forall c, keys c = ["certP12"; "certPassword"] ->
             P (EvCall (Credentials_updateCredentialsForPlatform "ios" c m))) ->
  quiet P (Legacy.askForCerts W m).
Proof.
  intros Hask Hfile Hfetch Hvalidate Hupdate. unfold Legacy.askForCerts.
  apply quiet_bind; [legacy_events | intros _].
  apply quiet_bind; [legacy_questions | intros [answers environmentAnswers]].
  legacy_events.
Qed.

Lemma askForPushCerts_events W m :
  (forall name v, In name ["managePushCertificates"; "pathToP12"; "certPassword"] ->
                  P (EvAsk name v)) ->
  (forall p, P (EvCall (fs_stat p)) /\ P (EvCall (fs_readFile p))) ->
  P (EvCall (Credentials_fetchPushCertificates m)) ->
  (forall c, P (EvCall (Credentials_validateCredentialsForPlatform
                          "ios" "push" (Some c) m))) ->
  (forall c, keys c = ["pushP12"; "pushPassword"] ->
             P (EvCall (Credentials_updateCredentialsForPlatform "ios" c m))) ->
  quiet P (Legacy.askForPushCerts W m).
Proof.
  intros Hask Hfile Hfetch Hvalidate Hupdate. unfold Legacy.askForPushCerts.
  apply quiet_bind; [legacy_questions | intros [answers environmentAnswers]].
  legacy_events.
Qed.

(** The validation of a stored slot. *)
Lemma validate_stored_events W line kind m :
  P (EvCall (Credentials_validateCredentialsForPlatform "ios" kind None m)) ->
  quiet P (log line ;; Legacy.validate_existing W kind m).
Proof. intros Hvalidate. legacy_events. Qed.

(** The whole credential step adds the fetch of the stored credentials and
    the app id check besides. *)
Lemma legacy_collect_events W options username experienceName bundleIdentifier :
  (forall name v, P (EvAsk name v)) ->
  (forall c, legacy_credential_call c = true -> P (EvCall c)) ->
  quiet P (Legacy.collectAndValidateCredentials W options username experienceName
                                                bundleIdentifier).
Proof.
  intros Hask Hcall.
  unfold Legacy.collectAndValidateCredentials. cbv zeta.
  apply quiet_bind; [legacy_events | intros _].
  apply quiet_bind; [legacy_events | intros existingCredentials].
  match goal with
  | |- context [match ?flags with pair _ _ => _ end] =>
      destruct flags as [[hasAppleId hasCert] hasPushCert]
  end.
  apply quiet_bind;
    [destruct (negb _); [apply askForAppleId_events | apply validate_stored_events];
     intros; try split; auto
    | intros _].
  apply quiet_bind; [legacy_events | intros _].
  apply quiet_bind;
    [destruct (negb _); [apply askForCerts_events | apply validate_stored_events];
     intros; try split; auto
    | intros _].
  apply quiet_bind; [legacy_events | intros _].
  destruct (negb _); [apply askForPushCerts_events | apply validate_stored_events];
    intros; try split; auto.
Qed.
End LegacyEvents.

Lemma legacy_collect_no_error_log W options username experienceName bundleIdentifier :
  quiet (fun e => is_error_log e = false)
        (Legacy.collectAndValidateCredentials W options username experienceName
                                              bundleIdentifier).
Proof. apply legacy_collect_events; intros; reflexivity. Qed.

(** [try { m } catch (e) { log.error(line); throw e }] *)
Lemma try_catch_rethrow {A} (m : M A) (line : string) h :
  try_catch m (fun e => log_error line ;; throw e) h
  = match m h with
    | (inl e, es) => (inl e, (es ++ [EvLog LError (Text line)])%list)
    | (inr a, es) => (inr a, es)
    end.
Proof. unfold try_catch. destruct (m h) as [[e|a] es]; reflexivity. Qed.

(** The trace of [Legacy.run] holds no error line, or the credential step
    threw and the error line is the last event. *)
Lemma legacy_run_error_shape W projectDir options h :
  Forall (fun e => is_error_log e = false) (snd (Legacy.run W projectDir options h))
  \/ exists args x es,
      reply_getPublishInfoAsync W h projectDir = inr args
      /\ Legacy.collectAndValidateCredentials
           W options (get args "username") (get args "remoteFullPackageName")
           (get args "bundleIdentifierIOS")
           (h ++ [EvCall (Exp_getPublishInfoAsync projectDir); EvCall this_checkStatus])%list
         = (inl x, es)
      /\ Forall (fun e => is_error_log e = false) es
      /\ Legacy.run W projectDir options h
         = (inl x,
            ([EvCall (Exp_getPublishInfoAsync projectDir); EvCall this_checkStatus] ++ es)
              ++ [legacy_error_line])%list.
Proof.
  unfold Legacy.run. rewrite bind_call.
  destruct (reply_getPublishInfoAsync W h projectDir) as [x|args] eqn:Eargs;
    [left; repeat constructor|].
  destruct (negb (truthy (get args "bundleIdentifierIOS"))); [left; repeat constructor|].
  rewrite bind_call.
  destruct (reply_checkStatus W (h ++ [EvCall (Exp_getPublishInfoAsync projectDir)])%list)
    as [x|[]]; [left; repeat constructor|].
  rewrite <- app_assoc. cbn [app].
  destruct (not_simulator options); cbn [when_].
  - pose proof (legacy_collect_no_error_log
                  W options (get args "username") (get args "remoteFullPackageName")
                  (get args "bundleIdentifierIOS")
                  (h ++ [EvCall (Exp_getPublishInfoAsync projectDir);
                         EvCall this_checkStatus])%list) as Hquiet.
    destruct (Legacy.collectAndValidateCredentials
                W options (get args "username") (get args "remoteFullPackageName")
                (get args "bundleIdentifierIOS")
                (h ++ [EvCall (Exp_getPublishInfoAsync projectDir);
                       EvCall this_checkStatus])%list) as [[x|[]] es] eqn:Ecollect;
      cbn [snd] in Hquiet.
    + right. exists args, x, es. repeat split; auto.
      erewrite bind_inl; [reflexivity|]. rewrite try_catch_rethrow, Ecollect. reflexivity.
    + left. erewrite bind_inr; [|rewrite try_catch_rethrow, Ecollect; reflexivity].
      cbn [snd]. constructor; [reflexivity|]. constructor; [reflexivity|].
      apply Forall_app. split; [exact Hquiet|].
      match goal with |- Forall ?Q (snd (?m ?hh)) => generalize hh; change (quiet Q m) end.
      quiet_auto.
  - left. erewrite bind_inr; [|reflexivity].
    cbn [snd app]. constructor; [reflexivity|]. constructor; [reflexivity|].
    match goal with |- Forall ?Q (snd (?m ?hh)) => generalize hh; change (quiet Q m) end.
    quiet_auto.
Qed.

(** X14.  The per-field iOS builder writes with [log.error] only its own
    line about invalid credentials, and only when the credential step threw:
    the line is then the last event of the run, after everything the
    credential step did, and the run throws what the credential step threw;
    nothing is published or built.  Conversely a credential step that throws
    always ends the run this way. *)
Theorem legacy_run_rethrows (W : World) (projectDir : string) (options : Options)
        (h : Hist) :
  (forall pre e post,
      snd (Legacy.run W projectDir options h) = (pre ++ e :: post)%list ->
      is_error_log e = true ->
      e = legacy_error_line /\ post = []
      /\ exists args x,
          reply_getPublishInfoAsync W h projectDir = inr args
          /\ Legacy.collectAndValidateCredentials
               W options (get args "username") (get args "remoteFullPackageName")
               (get args "bundleIdentifierIOS")
               (h ++ [EvCall (Exp_getPublishInfoAsync projectDir);
                      EvCall this_checkStatus])%list
             = (inl x, skipn 2 pre)
          /\ fst (Legacy.run W projectDir options h) = inl x)
  /\ (forall args x es,
         reply_getPublishInfoAsync W h projectDir = inr args ->
         truthy (get args "bundleIdentifierIOS") = true ->
         reply_checkStatus W (h ++ [EvCall (Exp_getPublishInfoAsync projectDir)])%list
         = inr tt ->
         not_simulator options = true ->
         Legacy.collectAndValidateCredentials
           W options (get args "username") (get args "remoteFullPackageName")
           (get args "bundleIdentifierIOS")
           (h ++ [EvCall (Exp_getPublishInfoAsync projectDir); EvCall this_checkStatus])%list
         = (inl x, es) ->
         Legacy.run W projectDir options h
         = (inl x,
            EvCall (Exp_getPublishInfoAsync projectDir) :: EvCall this_checkStatus
                   :: es ++ [legacy_error_line])%list).
Proof.
  split.
  - intros pre e post Heq He.
    destruct (legacy_run_error_shape W projectDir options h)
      as [Hnone|(args & x & es & Hargs & Hcollect & Hes & Hrun)].
    + exfalso. exact (not_in_middle is_error_log _ pre post e Hnone He Heq).
    + rewrite Hrun in Heq. cbn [snd] in Heq.
      assert (Hpre : Forall (fun e => is_error_log e = false)
                            ([EvCall (Exp_getPublishInfoAsync projectDir);
                              EvCall this_checkStatus] ++ es)%list)
        by (repeat constructor; exact Hes).
      destruct (split_unique is_error_log _ _ _ _ _ _ Hpre (Forall_nil _) He Heq)
        as (<- & <- & <-).
      split; [reflexivity|]. split; [reflexivity|].
      exists args, x. split; [exact Hargs|]. split; [exact Hcollect|].
      now rewrite Hrun.
  - intros args x es Hargs Hb Hstatus Hsim Hcollect.
    unfold Legacy.run. rewrite bind_call, Hargs, Hb. cbn [negb].
    rewrite bind_call, Hstatus, Hsim. cbn [when_].
    erewrite bind_inl; [reflexivity|].
    rewrite <- app_assoc. cbn [app]. rewrite try_catch_rethrow, Hcollect. reflexivity.
Qed.

(** *** The batch builder *)

Lemma runLocalAuth_no_error_log W options metadata :
  quiet (fun e => is_error_log e = false /\ is_release_or_build e = false)
        (IOS.runLocalAuth W options metadata).
Proof.
  assert (Hwarn : forall p, (fun e => is_error_log e = false /\ is_release_or_build e = false)
                              (EvLog LWarn p)) by (intros; split; reflexivity).
  assert (Hask : forall name v,
             (fun e => is_error_log e = false /\ is_release_or_build e = false)
               (EvAsk name v)) by (intros; split; reflexivity).
  assert (Hread : forall p, (fun e => is_error_log e = false /\ is_release_or_build e = false)
                              (EvCall (fs_readFile p))) by (intros; split; reflexivity).
  unfold IOS.runLocalAuth.
  apply quiet_bind; [quiet_auto | intros fetched].
  apply quiet_bind.
  { destruct fetched; [|apply quiet_ret].
    apply quiet_bind; [apply quiet_areCredsMissing, Hwarn | intros; apply quiet_ret]. }
  intros [credsStarter clientHasAllNeededCreds].
  destruct (useCi options).
  - apply quiet_bind; [apply quiet_runningAsCI, Hread | intros c].
    apply quiet_bind; [apply quiet_areCredsMissing, Hwarn | intros _].
    quiet_auto.
  - destruct (Bool.eqb clientHasAllNeededCreds false); [|quiet_auto].
    apply quiet_bind; [apply quiet_prompt; [no_when | exact Hask] | intros strategy].
    apply quiet_bind.
    { unfold IOS._validateCredsEnsureAppExists, IOS.askForAppleCreds, IOS._ensureAppExists,
        IOS._throwIfFailureWithReasonDump.
      apply quiet_bind.
      { apply quiet_bind; [quiet_auto | intros _].
        apply quiet_prompt; [no_when | exact Hask]. }
      intros appleCredentials. quiet_auto. }
    intros [appleCredentials c1].
    apply quiet_bind.
    { destruct (truthy _).
      - unfold IOS.runningAsExpoManaged.
        apply quiet_bind; [apply quiet_prompt; [no_when | exact Hask] | intros answers].
        do 2 (apply quiet_bind; [quiet_auto | intros _]).
        apply quiet_finally; [|quiet_auto].
        apply quiet_try_catch; [|intros; apply quiet_throw].
        apply quiet_for_of. intros c choice.
        apply quiet_bind; [quiet_auto | intros _].
        destruct (truthy _).
        + apply quiet_bind; [quiet_auto | intros _].
          unfold IOS.expoManagedResource, IOS.produceProvisionProfile,
            IOS._throwIfFailureWithReasonDump.
          quiet_auto.
        + apply quiet_bind; [quiet_auto | intros _].
          unfold IOS.userProvidedOverride.
          repeat match goal with
                 | |- quiet _ (if ?b then _ else _) => destruct b
                 end; try apply quiet_throw;
            (apply quiet_bind; [quiet_auto | intros _]);
            (apply quiet_bind; [apply quiet_prompt; [no_when | exact Hask] | intros]);
            quiet_auto.
      - unfold IOS.runningAsExpert.
        apply quiet_bind; [quiet_auto | intros _].
        apply quiet_for_of. intros c choice.
        unfold IOS.userProvidedOverride.
        repeat match goal with
               | |- quiet _ (if ?b then _ else _) => destruct b
               end; try apply quiet_throw;
          (apply quiet_bind; [quiet_auto | intros _]);
          (apply quiet_bind; [apply quiet_prompt; [no_when | exact Hask] | intros]);
          quiet_auto. }
    intros c2. cbv zeta.
    apply quiet_bind; [quiet_auto | intros _].
    apply quiet_bind; [apply quiet_areCredsMissing, Hwarn | intros _].
    quiet_auto.
Qed.

Lemma ios_gathering_no_error_log W options metadata :
  quiet (fun e => is_error_log e = false /\ is_release_or_build e = false)
        (ios_gathering W options metadata).
Proof.
  unfold ios_gathering.
  apply quiet_bind; [quiet_auto | intros _].
  apply quiet_bind; [quiet_auto | intros _].
  apply runLocalAuth_no_error_log.
Qed.

(** The [catch] block always throws: what it caught when [DEBUG] is off,
    and possibly a TypeError of its own dump otherwise. *)
Lemma ios_handler_throws W x h :
  exists y dump,
    ios_handler W x h = (inl y, ios_error_line :: dump)
    /\ Forall (fun e => is_error_log e = true) dump
    /\ (DEBUG W = false -> y = x /\ dump = []).
Proof.
  unfold ios_handler, log_error. rewrite bind_emit. fold ios_error_line.
  destruct (DEBUG W); cbn [when_].
  - destruct x as [c m|m|m|v];
      [| | |destruct v as [| | | | |l|o]; [| | | | | |destruct (get o "stdout") eqn:Estdout]];
      unfold bind, emit, throw, ret, IOS.stdout_of, log_error; cbn;
      try rewrite Estdout; cbn;
      (eexists; eexists; split; [reflexivity | split; [repeat constructor | discriminate]]).
  - exists x, []. repeat split; auto.
Qed.

(** Where the first element satisfying [p] sits is determined. *)
Lemma split_first {X} (p : X -> bool) (a b a' b' : list X) (x x' : X) :
  Forall (fun e => p e = false) a ->
  Forall (fun e => p e = false) a' ->
  p x = true -> p x' = true ->
  (a ++ x :: b = a' ++ x' :: b')%list ->
  a = a' /\ x = x' /\ b = b'.
Proof.
  intros Ha. revert a'. induction Ha as [|y a Hy Ha IH]; intros a' Ha' Hx Hx' Heq.
  - destruct a' as [|y' a']; cbn in Heq.
    + injection Heq as <- <-. auto.
    + injection Heq as <- _. inversion Ha'; congruence.
  - destruct a' as [|y' a']; cbn in Heq.
    + injection Heq as <- _. congruence.
    + injection Heq as <- Heq. inversion Ha'; subst.
      destruct (IH a') as (<- & <- & <-); auto.
Qed.

(** The trace of [IOS.run] holds no error line, or the [try] block threw,
    the [catch] block ran and the run ended there. *)
Lemma ios_run_error_shape W projectDir options h :
  Forall (fun e => is_error_log e = false) (snd (IOS.run W projectDir options h))
  \/ exists args x y prefix es dump,
      reply_getPublishInfoAsync W h projectDir = inr args
      /\ ios_gathering W options (ios_project_metadata args) (h ++ prefix)%list = (inl x, es)
      /\ IOS.run W projectDir options h
         = (inl y, ((prefix ++ es) ++ ios_error_line :: dump)%list)
      /\ Forall (fun e => is_error_log e = false /\ is_release_or_build e = false)
                (prefix ++ es)%list
      /\ Forall (fun e => is_error_log e = true) dump
      /\ (DEBUG W = false -> y = x /\ dump = []).
Proof.
  unfold IOS.run. rewrite bind_call.
  destruct (reply_getPublishInfoAsync W h projectDir) as [x|args] eqn:Eargs;
    [left; repeat constructor|].
  destruct (negb (truthy (get args "bundleIdentifierIOS"))); [left; repeat constructor|].
  rewrite bind_call.
  destruct (reply_checkStatus W (h ++ [EvCall (Exp_getPublishInfoAsync projectDir)])%list)
    as [x|[]]; [left; repeat constructor|].
  rewrite <- app_assoc. cbn [app].
  match goal with
  | |- context [bind (when_ (clearCredentials options) ?R) ?K ?hh] =>
      assert (Hclear : quiet (fun e => is_error_log e = false
                                       /\ is_release_or_build e = false)
                             (when_ (clearCredentials options) R)) by quiet_auto;
      specialize (Hclear hh);
      destruct (when_ (clearCredentials options) R hh) as [[x|[]] es1] eqn:Eclear;
      cbn [snd] in Hclear;
      [rewrite (bind_inl _ K hh x es1 Eclear) | rewrite (bind_inr _ K hh tt es1 Eclear)]
  end.
  { left. cbn [snd]. repeat constructor. eapply Forall_impl; [|exact Hclear]. now intros e []. }
  destruct (not_simulator options); cbn [when_].
  - change (try_catch _ _) with
      (try_catch (ios_gathering W options (ios_project_metadata args)) (ios_handler W)).
    rewrite <- app_assoc. cbn [app].
    pose proof (ios_gathering_no_error_log
                  W options (ios_project_metadata args)
                  (h ++ EvCall (Exp_getPublishInfoAsync projectDir)
                     :: EvCall this_checkStatus :: es1)%list) as Hquiet.
    destruct (ios_gathering
                W options (ios_project_metadata args)
                (h ++ EvCall (Exp_getPublishInfoAsync projectDir)
                   :: EvCall this_checkStatus :: es1)%list) as [[x|[]] es] eqn:Egathering;
      cbn [snd] in Hquiet.
    + right.
      destruct (ios_handler_throws
                  W x ((h ++ EvCall (Exp_getPublishInfoAsync projectDir)
                          :: EvCall this_checkStatus :: es1) ++ es)%list)
        as (y & dump & Hhandler & Hdump & Hsame).
      exists args, x, y,
        (EvCall (Exp_getPublishInfoAsync projectDir) :: EvCall this_checkStatus :: es1),
        es, dump.
      split; [reflexivity|]. split; [exact Egathering|].
      split; [|split; [|split; [exact Hdump | exact Hsame]]].
      * erewrite bind_inl; [cbn [fst snd app]; rewrite <- ?app_assoc; reflexivity|].
        unfold try_catch. rewrite Egathering, Hhandler. reflexivity.
      * cbn [app]. constructor; [split; reflexivity|]. constructor; [split; reflexivity|].
        apply Forall_app. split; assumption.
    + left. erewrite bind_inr; [|unfold try_catch; rewrite Egathering; reflexivity].
      cbn [fst snd]. constructor; [reflexivity|]. constructor; [reflexivity|].
      apply Forall_app. split; [eapply Forall_impl; [|exact Hclear]; now intros e []|].
      apply Forall_app. split; [eapply Forall_impl; [|exact Hquiet]; now intros e []|].
      match goal with |- Forall ?Q (snd (?m ?hh)) => generalize hh; change (quiet Q m) end.
      quiet_auto.
  - left. erewrite bind_inr; [|reflexivity].
    cbn [fst snd app]. constructor; [reflexivity|]. constructor; [reflexivity|].
    apply Forall_app. split; [eapply Forall_impl; [|exact Hclear]; now intros e []|].
    rewrite app_nil_r.
    match goal with |- Forall ?Q (snd (?m ?hh)) => generalize hh; change (quiet Q m) end.
    quiet_auto.
Qed.

(** X15.  The batch iOS builder writes with [log.error] only when the
    preparation or [runLocalAuth] threw, and its own error line first.  The
    run then fails: no release and no build has been started before the
    line, and after it come only the dump lines of debugging.  With [DEBUG]
    off the line is the last event and the run throws exactly what the
    credential step threw. *)
Theorem ios_run_error_line (W : World) (projectDir : string) (options : Options)
        (h : Hist) (pre post : list Event) (e : Event) :
  snd (IOS.run W projectDir options h) = (pre ++ e :: post)%list ->
  is_error_log e = true ->
  Forall (fun e => is_error_log e = false) pre ->
  e = ios_error_line
  /\ Forall (fun e => is_release_or_build e = false) pre
  /\ Forall (fun e => is_error_log e = true) post
  /\ exists args x y prefix es,
      reply_getPublishInfoAsync W h projectDir = inr args
      /\ pre = (prefix ++ es)%list
      /\ ios_gathering W options (ios_project_metadata args) (h ++ prefix)%list
         = (inl x, es)
      /\ fst (IOS.run W projectDir options h) = inl y
      /\ (DEBUG W = false -> y = x /\ post = []).
Proof.
  intros Heq He Hfirst.
  destruct (ios_run_error_shape W projectDir options h)
    as [Hnone|(args & x & y & prefix & es & dump & Hargs & Hgathering & Hrun & Hpre
               & Hdump & Hsame)].
  - exfalso. exact (not_in_middle is_error_log _ pre post e Hnone He Heq).
  - rewrite Hrun in Heq. cbn [snd] in Heq.
    assert (Hpre' : Forall (fun e => is_error_log e = false) (prefix ++ es)%list)
      by (eapply Forall_impl; [|exact Hpre]; now intros e0 []).
    destruct (split_first is_error_log (prefix ++ es)%list dump pre post ios_error_line e
                          Hpre' Hfirst eq_refl He Heq) as (<- & <- & <-).
    split; [reflexivity|].
    split; [eapply Forall_impl; [|exact Hpre]; now intros e0 []|].
    split; [exact Hdump|].
    exists args, x, y, prefix, es.
    split; [exact Hargs|]. split; [reflexivity|]. split; [exact Hgathering|].
    split; [now rewrite Hrun | exact Hsame].
Qed.

Lemma ios_run_error_line_witness :
  ios_error_line = ios_error_line
  /\ Forall (fun e => is_release_or_build e = false)
            (removelast (snd (IOS.run multiple_profiles_run_world "." default_options [])))
  /\ Forall (fun e => is_error_log e = true) []
  /\ exists args x y prefix es,
      reply_getPublishInfoAsync multiple_profiles_run_world [] "." = inr args
      /\ removelast (snd (IOS.run multiple_profiles_run_world "." default_options []))
         = (prefix ++ es)%list
      /\ ios_gathering multiple_profiles_run_world default_options
                       (ios_project_metadata args) ([] ++ prefix)%list
         = (inl x, es)
      /\ fst (IOS.run multiple_profiles_run_world "." default_options []) = inl y
      /\ (DEBUG multiple_profiles_run_world = false -> y = x /\ @nil Event = []).
Proof.
  apply (ios_run_error_line
           multiple_profiles_run_world "." default_options []
           (removelast (snd (IOS.run multiple_profiles_run_world "." default_options [])))
           [] ios_error_line).
  - vm_compute. reflexivity.
  - reflexivity.
  - vm_compute. repeat constructor.
Defined.

(** *** The app id check of the per-field builder *)

Lemma app_id_shape_bind {A} W metadata bundleIdentifier (m : M A) (f : A -> M unit) h :
  quiet (fun e => is_ensureAppId e = false) m ->
  (forall a h', app_id_shape W metadata bundleIdentifier h' (f a h')) ->
  app_id_shape W metadata bundleIdentifier h (bind m f h).
Proof.
  intros Hm Hf. specialize (Hm h).
  destruct (m h) as [[x|a] es] eqn:Em; cbn [snd] in Hm.
  - rewrite (bind_inl _ _ _ _ _ Em). left. exact Hm.
  - rewrite (bind_inr _ _ _ _ _ Em).
    destruct (Hf a (h ++ es)%list) as [Hnone|(pre & rest & Hsnd & Hpre & Hrest & Hfail)].
    + left. cbn [snd]. apply Forall_app. auto.
    + right. exists (es ++ pre)%list, rest. cbn [snd].
      split; [rewrite Hsnd; now rewrite app_assoc|].
      split; [apply Forall_app; auto|]. split; [exact Hrest|].
      intros x Hx. rewrite app_assoc in Hx. rewrite (Hfail x Hx). cbn [fst snd].
      now rewrite app_assoc.
Qed.

Lemma app_id_shape_check W metadata bundleIdentifier (rest : M unit) h :
  quiet (fun e => is_ensureAppId e = false) rest ->
  app_id_shape W metadata bundleIdentifier h
    (bind (try_catch
             (log "Validating app id..." ;;
              call (Credentials_ensureAppId metadata)
                   (fun h => reply_ensureAppId W h metadata))
             (fun _ => throw (app_id_error bundleIdentifier)))
          (fun _ => rest) h).
Proof.
  intros Hrest.
  match goal with
  | |- app_id_shape _ _ _ _ (bind ?t _ _) =>
      assert (Htry : t h
                     = match reply_ensureAppId
                               W (h ++ [EvLog LLog (Text "Validating app id...")])%list
                               metadata with
                       | inl _ => (inl (app_id_error bundleIdentifier),
                                   [EvLog LLog (Text "Validating app id...");
                                    EvCall (Credentials_ensureAppId metadata)])
                       | inr u => (inr u,
                                   [EvLog LLog (Text "Validating app id...");
                                    EvCall (Credentials_ensureAppId metadata)])
                       end)
  end.
  { unfold try_catch, log. rewrite bind_emit. unfold call. cbn [fst snd].
    destruct (reply_ensureAppId W (h ++ [EvLog LLog (Text "Validating app id...")])%list
                                metadata) as [x|[]]; reflexivity. }
  right. exists [EvLog LLog (Text "Validating app id...")].
  destruct (reply_ensureAppId W (h ++ [EvLog LLog (Text "Validating app id...")])%list
                              metadata) as [x|[]] eqn:Ereply.
  - rewrite (bind_inl _ _ _ _ _ Htry). exists []. cbn [snd app].
    split; [reflexivity|]. split; [repeat constructor|]. split; [constructor|].
    intros; reflexivity.
  - rewrite (bind_inr _ _ _ _ _ Htry).
    exists (snd (rest (h ++ [EvLog LLog (Text "Validating app id...");
                             EvCall (Credentials_ensureAppId metadata)])%list)).
    cbn [fst snd app].
    split; [reflexivity|]. split; [repeat constructor|]. split; [apply Hrest|].
    intros x Hx. congruence.
Qed.

Lemma legacy_collect_app_id_shape W options username experienceName bundleIdentifier h :
  app_id_shape W
    (literal [("username", username); ("experienceName", experienceName);
              ("bundleIdentifier", bundleIdentifier); ("platform", JStr "ios")])
    bundleIdentifier h
    (Legacy.collectAndValidateCredentials W options username experienceName
                                          bundleIdentifier h).
Proof.
  unfold Legacy.collectAndValidateCredentials. cbv zeta.
  apply app_id_shape_bind; [quiet_auto | intros _ h1].
  apply app_id_shape_bind; [quiet_auto | intros existingCredentials h2].
  match goal with
  | |- context [match ?flags with pair _ _ => _ end] =>
      destruct flags as [[hasAppleId hasCert] hasPushCert]
  end.
  apply app_id_shape_bind;
    [destruct (negb _); [apply askForAppleId_events | apply validate_stored_events];
     intros; try split; reflexivity
    | intros _ h3].
  apply app_id_shape_bind; [quiet_auto | intros _ h4].
  apply app_id_shape_bind;
    [destruct (negb _); [apply askForCerts_events | apply validate_stored_events];
     intros; try split; reflexivity
    | intros _ h5].
  apply app_id_shape_check.
  destruct (negb _); [apply askForPushCerts_events | apply validate_stored_events];
    intros; try split; reflexivity.
Qed.

(** X16.  When the service refuses the app id check, the credential step
    of the per-field builder ends at once: the check is its last event, the
    push certificate is not touched, and what it throws is an XDLError with
    code CREDENTIAL_ERROR whose message names the bundle identifier; the
    reason the service gave is dropped. *)
Theorem legacy_app_id_failure_is_masked
        (W : World) (options : Options) (username experienceName bundleIdentifier : jsval)
        (h : Hist) (pre post : list Event) (m : obj) (x : Exn) :
  snd (Legacy.collectAndValidateCredentials W options username experienceName
                                            bundleIdentifier h)
  = (pre ++ EvCall (Credentials_ensureAppId m) :: post)%list ->
  reply_ensureAppId W (h ++ pre)%list m = inl x ->
  Legacy.collectAndValidateCredentials W options username experienceName bundleIdentifier h
  = (inl (app_id_error bundleIdentifier), (pre ++ [EvCall (Credentials_ensureAppId m)])%list)
  /\ post = [].
Proof.
  intros Heq Hx.
  destruct (legacy_collect_app_id_shape W options username experienceName bundleIdentifier h)
    as [Hnone|(pre0 & rest & Hsnd & Hpre & Hrest & Hfail)].
  - exfalso.
    exact (not_in_middle is_ensureAppId _ pre post (EvCall (Credentials_ensureAppId m))
                         Hnone eq_refl Heq).
  - rewrite Hsnd in Heq.
    destruct (split_unique is_ensureAppId pre0 rest pre post _
                           (EvCall (Credentials_ensureAppId m)) Hpre Hrest eq_refl Heq)
      as (<- & Hcall & <-).
    injection Hcall as <-.
    specialize (Hfail x Hx). split; [exact Hfail|].
    rewrite Hfail in Hsnd. cbn [snd] in Hsnd.
    apply app_inv_head in Hsnd. now injection Hsnd as <-.
Qed.

Lemma legacy_app_id_failure_is_masked_witness :
  Legacy.collectAndValidateCredentials
    legacy_no_app_id_world default_options (JStr "alice") (JStr "@alice/app")
    (JStr "com.alice.app") []
  = (inl (app_id_error (JStr "com.alice.app")),
     (removelast
        (snd (Legacy.collectAndValidateCredentials
                legacy_no_app_id_world default_options (JStr "alice") (JStr "@alice/app")
                (JStr "com.alice.app") []))
        ++ [EvCall (Credentials_ensureAppId ios_metadata)])%list)
  /\ @nil Event = [].
Proof.
  exact (legacy_app_id_failure_is_masked
           legacy_no_app_id_world default_options (JStr "alice") (JStr "@alice/app")
           (JStr "com.alice.app") []
           (removelast
              (snd (Legacy.collectAndValidateCredentials
                      legacy_no_app_id_world default_options (JStr "alice")
                      (JStr "@alice/app") (JStr "com.alice.app") [])))
           [] ios_metadata (Rejection (JStr "app id is taken")) eq_refl eq_refl).
Defined.

(** ** The expert mode of the batch builder *)

Lemma prompt_shared W h :
  exists path password,
    prompt W IOS.sharedQuestions h
    = (inr [("pathToP12", JStr path); ("p12Password", JStr password)],
       [EvAsk "pathToP12" (JStr path); EvAsk "p12Password" (JStr password)]).
Proof. eexists. eexists. reflexivity. Qed.

Lemma prompt_profile W h :
  exists path,
    prompt W [IOS.provisionProfilePath] h
    = (inr [("pathToProvisioningProfile", JStr path)],
       [EvAsk "pathToProvisioningProfile" (JStr path)]).
Proof. eexists. reflexivity. Qed.

(** One credential of the expert mode: the line, the questions, the read
    of the file at the typed path.  What is asked and read does not depend
    on the bundle so far. *)
Lemma userProvidedOverride_distCert W h :
  exists path password,
    forall c,
      IOS.userProvidedOverride W c "distCert" h
      = (match reply_readFile
                 W (h ++ [EvLog LLog (Text "Please provide your distribution certificate P12:");
                          EvAsk "pathToP12" (JStr path);
                          EvAsk "p12Password" (JStr password)])%list path with
         | inl x => inl x
         | inr file => inr (set "certPassword" (JStr password)
                                (set "certP12" (JStr (base64 file)) c))
         end,
         [EvLog LLog (Text "Please provide your distribution certificate P12:");
          EvAsk "pathToP12" (JStr path); EvAsk "p12Password" (JStr password);
          EvCall (fs_readFile (JStr path))]).
Proof.
  destruct (prompt_shared
              W (h ++ [EvLog LLog (Text "Please provide your distribution certificate P12:")])%list)
    as (path & password & Hprompt).
  exists path, password. intros c.
  unfold IOS.userProvidedOverride. cbn [String.eqb Ascii.eqb Bool.eqb].
  unfold log. rewrite bind_emit.
  rewrite (bind_inr _ _ _ _ _ Hprompt). unfold readFile. rewrite bind_call.
  cbn [get String.eqb Ascii.eqb Bool.eqb]. rewrite <- !app_assoc. cbn [app].
  match goal with
  | |- context [reply_readFile W ?hh path] =>
      destruct (reply_readFile W hh path) as [x|file]
  end; cbn -[base64]; reflexivity.
Qed.

Lemma userProvidedOverride_pushCert W h :
  exists path password,
    forall c,
      IOS.userProvidedOverride W c "pushCert" h
      = (match reply_readFile
                 W (h ++ [EvLog LLog
                                (Text "Please provide the path to your push notification cert P12");
                          EvAsk "pathToP12" (JStr path);
                          EvAsk "p12Password" (JStr password)])%list path with
         | inl x => inl x
         | inr file => inr (set "pushPassword" (JStr password)
                                (set "pushP12" (JStr (base64 file)) c))
         end,
         [EvLog LLog (Text "Please provide the path to your push notification cert P12");
          EvAsk "pathToP12" (JStr path); EvAsk "p12Password" (JStr password);
          EvCall (fs_readFile (JStr path))]).
Proof.
  destruct (prompt_shared
              W (h ++ [EvLog LLog (Text "Please provide the path to your push notification cert P12")])%list)
    as (path & password & Hprompt).
  exists path, password. intros c.
  unfold IOS.userProvidedOverride. cbn [String.eqb Ascii.eqb Bool.eqb].
  unfold log. rewrite bind_emit.
  rewrite (bind_inr _ _ _ _ _ Hprompt). unfold readFile. rewrite bind_call.
  cbn [get String.eqb Ascii.eqb Bool.eqb]. rewrite <- !app_assoc. cbn [app].
  match goal with
  | |- context [reply_readFile W ?hh path] =>
      destruct (reply_readFile W hh path) as [x|file]
  end; cbn -[base64]; reflexivity.
Qed.

Lemma userProvidedOverride_provisioningProfile W h :
  exists path,
    forall c,
      IOS.userProvidedOverride W c "provisioningProfile" h
      = (match reply_readFile
                 W (h ++ [EvLog LLog
                                (Text "Please provide the path to your .mobile provisioning profile");
                          EvAsk "pathToProvisioningProfile" (JStr path)])%list path with
         | inl x => inl x
         | inr file => inr (set "provisioningProfile" (JStr (base64 file)) c)
         end,
         [EvLog LLog (Text "Please provide the path to your .mobile provisioning profile");
          EvAsk "pathToProvisioningProfile" (JStr path);
          EvCall (fs_readFile (JStr path))]).
Proof.
  destruct (prompt_profile
              W (h ++ [EvLog LLog (Text "Please provide the path to your .mobile provisioning profile")])%list)
    as (path & Hprompt).
  exists path. intros c.
  unfold IOS.userProvidedOverride. cbn [String.eqb Ascii.eqb Bool.eqb].
  unfold log. rewrite bind_emit.
  rewrite (bind_inr _ _ _ _ _ Hprompt). unfold readFile. rewrite bind_call.
  cbn [get String.eqb Ascii.eqb Bool.eqb]. rewrite <- !app_assoc. cbn [app].
  match goal with
  | |- context [reply_readFile W ?hh path] =>
      destruct (reply_readFile W hh path) as [x|file]
  end; cbn -[base64]; reflexivity.
Qed.

(** X17.  The expert mode of the batch iOS builder.  After its warning it
    asks, in this order, for the path and password of the distribution
    certificate, the path and password of the push certificate and the path
    of the provisioning profile, reading each file at the typed path before
    it goes on.  What is asked does not depend on what the files hold.  The
    first file that cannot be read ends it with the error of that read;
    otherwise it returns the bundle it was given with the three files in
    base64 and the two typed passwords written over it.  It makes no call
    but the three reads. *)
Theorem runningAsExpert_bundle (W : World) (credsStarter : obj) (h : Hist) :
  exists distPath distPassword pushPath pushPassword profilePath,
    let dist :=
      [EvLog LLog (Text "Please provide your distribution certificate P12:");
       EvAsk "pathToP12" (JStr distPath); EvAsk "p12Password" (JStr distPassword);
       EvCall (fs_readFile (JStr distPath))] in
    let push :=
      [EvLog LLog (Text "Please provide the path to your push notification cert P12");
       EvAsk "pathToP12" (JStr pushPath); EvAsk "p12Password" (JStr pushPassword);
       EvCall (fs_readFile (JStr pushPath))] in
    let profile :=
      [EvLog LLog (Text "Please provide the path to your .mobile provisioning profile");
       EvAsk "pathToProvisioningProfile" (JStr profilePath);
       EvCall (fs_readFile (JStr profilePath))] in
    let before := EvLog LLog (Text IOS.expertPrompt) :: removelast dist in
    let between := (EvLog LLog (Text IOS.expertPrompt) :: dist ++ removelast push)%list in
    let after :=
      (EvLog LLog (Text IOS.expertPrompt) :: dist ++ push ++ removelast profile)%list in
    IOS.runningAsExpert W credsStarter h
    = match reply_readFile W (h ++ before)%list distPath with
      | inl x => (inl x, EvLog LLog (Text IOS.expertPrompt) :: dist)
      | inr distFile =>
          match reply_readFile W (h ++ between)%list pushPath with
          | inl x => (inl x, (EvLog LLog (Text IOS.expertPrompt) :: dist ++ push)%list)
          | inr pushFile =>
              (match reply_readFile W (h ++ after)%list profilePath with
               | inl x => inl x
               | inr profileFile =>
                   inr (expert_bundle credsStarter distFile distPassword
                                      pushFile pushPassword profileFile)
               end,
               (EvLog LLog (Text IOS.expertPrompt) :: dist ++ push ++ profile)%list)
          end
      end.
Proof.
  destruct (userProvidedOverride_distCert W (h ++ [EvLog LLog (Text IOS.expertPrompt)])%list)
    as (distPath & distPassword & Hdist).
  destruct (userProvidedOverride_pushCert
              W ((h ++ [EvLog LLog (Text IOS.expertPrompt)])
                   ++ [EvLog LLog (Text "Please provide your distribution certificate P12:");
                       EvAsk "pathToP12" (JStr distPath);
                       EvAsk "p12Password" (JStr distPassword);
                       EvCall (fs_readFile (JStr distPath))])%list)
    as (pushPath & pushPassword & Hpush).
  destruct (userProvidedOverride_provisioningProfile
              W (((h ++ [EvLog LLog (Text IOS.expertPrompt)])
                    ++ [EvLog LLog (Text "Please provide your distribution certificate P12:");
                        EvAsk "pathToP12" (JStr distPath);
                        EvAsk "p12Password" (JStr distPassword);
                        EvCall (fs_readFile (JStr distPath))])
                   ++ [EvLog LLog
                             (Text "Please provide the path to your push notification cert P12");
                       EvAsk "pathToP12" (JStr pushPath);
                       EvAsk "p12Password" (JStr pushPassword);
                       EvCall (fs_readFile (JStr pushPath))])%list)
    as (profilePath & Hprofile).
  exists distPath, distPassword, pushPath, pushPassword, profilePath.
  cbv zeta. cbn [removelast app].
  repeat (rewrite <- app_assoc in Hdist; cbn [app] in Hdist).
  repeat (rewrite <- app_assoc in Hpush; cbn [app] in Hpush).
  repeat (rewrite <- app_assoc in Hprofile; cbn [app] in Hprofile).
  unfold IOS.runningAsExpert, log. rewrite bind_emit. cbn [for_of].
  specialize (Hdist credsStarter).
  match type of Hdist with context [reply_readFile W ?hh distPath] =>
    destruct (reply_readFile W hh distPath) as [x|distFile] end.
  { rewrite (bind_inl _ _ _ _ _ Hdist). reflexivity. }
  rewrite (bind_inr _ _ _ _ _ Hdist). rewrite <- ?app_assoc. cbn [app].
  match goal with |- context [bind (IOS.userProvidedOverride W ?c1 "pushCert")] =>
    specialize (Hpush c1) end.
  match type of Hpush with context [reply_readFile W ?hh pushPath] =>
    destruct (reply_readFile W hh pushPath) as [x|pushFile] end.
  { rewrite (bind_inl _ _ _ _ _ Hpush). reflexivity. }
  rewrite (bind_inr _ _ _ _ _ Hpush). rewrite <- ?app_assoc. cbn [app].
  match goal with |- context [bind (IOS.userProvidedOverride W ?c2 "provisioningProfile")] =>
    specialize (Hprofile c2) end.
  match type of Hprofile with context [reply_readFile W ?hh profilePath] =>
    destruct (reply_readFile W hh profilePath) as [x|profileFile] end.
  { rewrite (bind_inl _ _ _ _ _ Hprofile). reflexivity. }
  rewrite (bind_inr _ _ _ _ _ Hprofile). reflexivity.
Qed.

(** ** The managed mode of the batch builder *)

Lemma prompt_whatToOverride W h :
  exists distCert pushCert,
    prompt W IOS.whatToOverride h
    = (inr [("distCert", distCert); ("pushCert", pushCert)],
       [EvAsk "distCert" distCert; EvAsk "pushCert" pushCert]).
Proof. eexists. eexists. reflexivity. Qed.

Ltac managed_ok :=
  unfold managed_event;
  repeat first [ split | progress intros ]; try reflexivity; try discriminate;
  try congruence.

(** The service produces one resource: nothing is asked, no file is read. *)
Lemma expoManagedResource_event P W credsStarter choice appleCreds teamId metadata :
  (forall l p, P (EvLog l p)) ->
  (choice = "distCert" -> P (EvCall (authFuncs_produceCerts appleCreds teamId))) ->
  (choice = "pushCert" ->
   P (EvCall (authFuncs_producePushCerts appleCreds metadata teamId))) ->
  P (EvCall (authFuncs_produceProvisionProfile appleCreds metadata teamId)) ->
  quiet P (IOS.expoManagedResource W credsStarter choice appleCreds teamId metadata).
Proof.
  intros Hlog Hdist Hpush Hprofile.
  unfold IOS.expoManagedResource, IOS.produceProvisionProfile.
  destruct (String.eqb choice "distCert") eqn:E1;
    [apply String.eqb_eq in E1
    |destruct (String.eqb choice "pushCert") eqn:E2;
     [apply String.eqb_eq in E2
     |destruct (String.eqb choice "provisioningProfile"); [|apply quiet_throw]]].
  - apply quiet_bind; [apply quiet_call; auto | intros r].
    apply quiet_bind; [apply quiet_throwIfFailure, Hlog | intros; apply quiet_ret].
  - apply quiet_bind; [apply quiet_call; auto | intros r].
    apply quiet_bind; [apply quiet_throwIfFailure, Hlog | intros; apply quiet_ret].
  - apply quiet_bind; [apply quiet_call; auto | intros r].
    apply quiet_bind;
      [destruct (is_str _ _); [apply quiet_startsWith_of | apply quiet_ret] | intros multiple].
    apply quiet_bind; [apply quiet_when_, quiet_emit, Hlog | intros _].
    apply quiet_bind; [apply quiet_throwIfFailure, Hlog | intros; apply quiet_ret].
Qed.

(** The operator provides a certificate: the two questions about the file
    and its read. *)
Lemma userProvidedOverride_certificate_event P W c choice :
  choice = "distCert" \/ choice = "pushCert" ->
  (forall l p, P (EvLog l p)) ->
  (forall v, P (EvAsk "pathToP12" v)) -> (forall v, P (EvAsk "p12Password" v)) ->
  (forall p, P (EvCall (fs_readFile p))) ->
  quiet P (IOS.userProvidedOverride W c choice).
Proof.
  intros Hchoice Hlog Hpath Hpassword Hread h.
  destruct Hchoice as [-> | ->].
  - destruct (userProvidedOverride_distCert W h) as (path & password & H).
    rewrite H. cbn [snd]. repeat constructor; auto.
  - destruct (userProvidedOverride_pushCert W h) as (path & password & H).
    rewrite H. cbn [snd]. repeat constructor; auto.
Qed.

Lemma managed_resources_events W appleCredentials credsStarter metadata distCert pushCert :
  quiet (managed_event distCert pushCert)
        (try_catch
           (for_of ["distCert"; "pushCert"; "provisioningProfile"]
              (fun credsStarter choice =>
                 emit (EvSpinner (SpinnerText ("Now producing files for " ++ choice))) ;;
                 if truthy (get [("distCert", distCert); ("pushCert", pushCert);
                                 ("provisioningProfile", JBool true)] choice) then
                   emit (EvSpinner SpinnerStart) ;;
                   IOS.expoManagedResource W credsStarter choice appleCredentials
                                           (get credsStarter "teamId") metadata
                 else
                   emit (EvSpinner SpinnerStop) ;;
                   IOS.userProvidedOverride W credsStarter choice)
              credsStarter)
           (fun e => throw e)).
Proof.
  apply quiet_try_catch; [|intros; apply quiet_throw].
  cbn [for_of].
  apply quiet_bind.
  { apply quiet_bind; [apply quiet_emit; managed_ok | intros _].
    cbn [get String.eqb Ascii.eqb Bool.eqb].
    destruct (truthy distCert) eqn:Edist.
    - apply quiet_bind; [apply quiet_emit; managed_ok | intros _].
      apply expoManagedResource_event; intros; managed_ok.
    - apply quiet_bind; [apply quiet_emit; managed_ok | intros _].
      apply userProvidedOverride_certificate_event; auto; intros; managed_ok. }
  intros c1. apply quiet_bind.
  { apply quiet_bind; [apply quiet_emit; managed_ok | intros _].
    cbn [get String.eqb Ascii.eqb Bool.eqb].
    destruct (truthy pushCert) eqn:Epush.
    - apply quiet_bind; [apply quiet_emit; managed_ok | intros _].
      apply expoManagedResource_event; intros; managed_ok.
    - apply quiet_bind; [apply quiet_emit; managed_ok | intros _].
      apply userProvidedOverride_certificate_event; auto; intros; managed_ok. }
  intros c2. apply quiet_bind; [|intros; apply quiet_ret].
  apply quiet_bind; [apply quiet_emit; managed_ok | intros _].
  cbn [get String.eqb Ascii.eqb Bool.eqb truthy].
  apply quiet_bind; [apply quiet_emit; managed_ok | intros _].
  apply expoManagedResource_event; intros; managed_ok.
Qed.

Lemma snd_finally_emit {A} (m : M A) (ev : Event) h :
  snd (finally m (emit ev) h) = (snd (m h) ++ [ev])%list.
Proof. unfold finally, emit. destruct (m h) as [r es]; reflexivity. Qed.

(** X18.  The managed mode of the batch iOS builder asks its two questions
    first and stops the spinner last, however the production ends.  In
    between it follows the answers: a certificate the operator keeps is
    never generated by the service, and when the service handles both
    certificates nothing more is asked and no file is read.  The path of a
    provisioning profile is never asked for: the profile always comes from
    the service. *)
Theorem managed_mode_follows_the_answers
        (W : World) (appleCredentials credsStarter metadata : obj) (h : Hist) :
  exists distCert pushCert rest,
    snd (IOS.runningAsExpoManaged W appleCredentials credsStarter metadata h)
    = (EvAsk "distCert" distCert :: EvAsk "pushCert" pushCert
         :: EvSpinner (SpinnerText
                         "Running local authentication and producing required credentials")
         :: EvSpinner SpinnerStart :: rest ++ [EvSpinner SpinnerStop])%list
    /\ Forall (fun e => asked "pathToProvisioningProfile" e = false
                        /\ asked "distCert" e = false /\ asked "pushCert" e = false) rest
    /\ (truthy distCert = false -> Forall (fun e => is_dist_generation e = false) rest)
    /\ (truthy pushCert = false -> Forall (fun e => is_push_generation e = false) rest)
    /\ (truthy distCert = true -> truthy pushCert = true ->
        Forall (fun e => is_prompt e = false /\ is_file_read e = false) rest).
Proof.
  destruct (prompt_whatToOverride W h) as (distCert & pushCert & Hprompt).
  exists distCert, pushCert.
  unfold IOS.runningAsExpoManaged. rewrite (bind_inr _ _ _ _ _ Hprompt).
  cbv zeta. rewrite !bind_emit. cbn [fst snd app].
  change (literal ([("distCert", distCert); ("pushCert", pushCert)]
                     ++ [("provisioningProfile", JBool true)]))
    with [("distCert", distCert); ("pushCert", pushCert);
          ("provisioningProfile", JBool true)].
  cbn [keys map fst].
  rewrite snd_finally_emit.
  match goal with
  | |- context [snd (?m ?hh)] =>
      pose proof (managed_resources_events W appleCredentials credsStarter metadata
                                           distCert pushCert hh) as Hquiet;
      exists (snd (m hh))
  end.
  split; [reflexivity|].
  split; [eapply Forall_impl; [|exact Hquiet]; intros e He; repeat split; apply He|].
  split; [intros Hd; eapply Forall_impl; [|exact Hquiet]; intros e He; now apply He|].
  split; [intros Hp; eapply Forall_impl; [|exact Hquiet]; intros e He; now apply He|].
  intros Hd Hp. eapply Forall_impl; [|exact Hquiet]. intros e He. now apply He.
Qed.
(** *** A path in the environment that names no file *)

(** The push certificate. *)
Lemma askForPushCerts_path_not_a_file
      (W : World) (metadata : obj) (h : Hist) (path : string) :
  env W "EXP_PUSH_CERTIFICATE_PATH" = JStr path ->
  truthy (JStr path) = true ->
  (forall h', reply_stat_isFile W h' path <> inr true) ->
  exists typed,
    question_names (snd (Legacy.askForPushCerts W metadata h))
    = "pathToP12" :: (if truthy (env W "EXP_PUSH_CERTIFICATE_PASSWORD")
                      then [] else ["certPassword"])
    /\ In (EvLog LLog (Text "EXP_PUSH_CERTIFICATE_PATH is set in the environment to an invalid value."))
          (snd (Legacy.askForPushCerts W metadata h))
    /\ In (EvAsk "pathToP12" (JStr typed)) (snd (Legacy.askForPushCerts W metadata h))
    /\ hd_error (calls (snd (Legacy.askForPushCerts W metadata h))) = Some (fs_stat (JStr path))
    /\ filter is_file_read (snd (Legacy.askForPushCerts W metadata h))
       = [EvCall (fs_readFile (JStr typed))]
    /\ Forall (fun e => is_managed_generation e = false) (snd (Legacy.askForPushCerts W metadata h)).
Proof.
  intros Hpath T1 Hstat. unfold Legacy.askForPushCerts. rewrite Hpath.
  generalize dependent (env W "EXP_PUSH_CERTIFICATE_PASSWORD"). intros v2.
  destruct path as [|c path]; [discriminate T1|]. clear T1 Hpath.
  run_quick.
  match goal with
  | |- context [reply_stat_isFile W ?hh ?p] =>
      specialize (Hstat hh); destruct (reply_stat_isFile W hh p) as [e|[|]]
  end; [|congruence|].
  all: run_quick.
  all: match goal with
       | |- context [answer_input ?w ?hh "pathToP12"] =>
           generalize (answer_input w hh "pathToP12"); intros typed
       end.
  all: destruct (truthy v2) eqn:T2.
  all: run_quick.
  all: try match goal with
           | |- context [answer_input ?w ?hh "certPassword"] =>
               generalize (answer_input w hh "certPassword"); intros password
           end.
  all: match goal with
       | |- context [reply_readFile ?w ?hh ?t] =>
           destruct (reply_readFile w hh t) as [e'|data]
       end.
  all: run_quick.
  all: try solve [cbn; eexists; repeat split; auto 8; repeat constructor].
  all: match goal with
       | |- context [reply_validateCredentialsForPlatform ?w ?hh ?a ?b ?c ?d] =>
           destruct (reply_validateCredentialsForPlatform w hh a b c d) as [e'|[]]
       end.
  all: run_quick.
  all: try solve [cbn; eexists; repeat split; auto 8; repeat constructor].
  all: match goal with
       | |- context [reply_updateCredentialsForPlatform ?w ?hh ?a ?b ?c] =>
           destruct (reply_updateCredentialsForPlatform w hh a b c) as [e'|[]]
       end.
  all: run_quick.
  all: try solve [cbn; eexists; repeat split; auto 8; repeat constructor].
Qed.

(** The distribution certificate. *)
Lemma askForCerts_path_not_a_file
      (W : World) (metadata : obj) (h : Hist) (path : string) :
  env W "EXP_DIST_CERTIFICATE_PATH" = JStr path ->
  truthy (JStr path) = true ->
  (forall h', reply_stat_isFile W h' path <> inr true) ->
  exists typed,
    question_names (snd (Legacy.askForCerts W metadata h))
    = "pathToP12" :: (if truthy (env W "EXP_DIST_CERTIFICATE_PASSWORD")
                      then [] else ["certPassword"])
    /\ In (EvLog LLog (Text "EXP_DIST_CERTIFICATE_PATH is set in the environment to an invalid value."))
          (snd (Legacy.askForCerts W metadata h))
    /\ In (EvAsk "pathToP12" (JStr typed)) (snd (Legacy.askForCerts W metadata h))
    /\ hd_error (calls (snd (Legacy.askForCerts W metadata h))) = Some (fs_stat (JStr path))
    /\ filter is_file_read (snd (Legacy.askForCerts W metadata h))
       = [EvCall (fs_readFile (JStr typed))]
    /\ Forall (fun e => is_managed_generation e = false) (snd (Legacy.askForCerts W metadata h)).
Proof.
  intros Hpath T1 Hstat. unfold Legacy.askForCerts. rewrite Hpath.
  generalize dependent (env W "EXP_DIST_CERTIFICATE_PASSWORD"). intros v2.
  destruct path as [|c path]; [discriminate T1|]. clear T1 Hpath.
  run_quick.
  match goal with
  | |- context [reply_stat_isFile W ?hh ?p] =>
      specialize (Hstat hh); destruct (reply_stat_isFile W hh p) as [e|[|]]
  end; [|congruence|].
  all: run_quick.
  all: match goal with
       | |- context [answer_input ?w ?hh "pathToP12"] =>
           generalize (answer_input w hh "pathToP12"); intros typed
       end.
  all: destruct (truthy v2) eqn:T2.
  all: run_quick.
  all: try match goal with
           | |- context [answer_input ?w ?hh "certPassword"] =>
               generalize (answer_input w hh "certPassword"); intros password
           end.
  all: match goal with
       | |- context [reply_readFile ?w ?hh ?t] =>
           destruct (reply_readFile w hh t) as [e'|data]
       end.
  all: run_quick.
  all: try solve [cbn; eexists; repeat split; auto 8; repeat constructor].
  all: match goal with
       | |- context [reply_validateCredentialsForPlatform ?w ?hh ?a ?b ?c ?d] =>
           destruct (reply_validateCredentialsForPlatform w hh a b c d) as [e'|[]]
       end.
  all: run_quick.
  all: try solve [cbn; eexists; repeat split; auto 8; repeat constructor].
  all: match goal with
       | |- context [reply_updateCredentialsForPlatform ?w ?hh ?a ?b ?c] =>
           destruct (reply_updateCredentialsForPlatform w hh a b c) as [e'|[]]
       end.
  all: run_quick.
  all: try solve [cbn; eexists; repeat split; auto 8; repeat constructor].
Qed.

(** X19.  [askForCerts] checks the path in EXP_DIST_CERTIFICATE_PATH before
    it uses it: the stat of that path is its first call.  When the path
    names no file (the stat fails, or finds something that is no file) the
    builder says so and asks for the path after all: the strategy is still
    not asked, the password is asked only when its variable is unset, the
    one file that is read is the one at the typed path, and nothing is
    generated. *)
Theorem askForCerts_invalid_environment_path
        (W : World) (metadata : obj) (h : Hist) (path : string) :
  env W "EXP_DIST_CERTIFICATE_PATH" = JStr path ->
  truthy (JStr path) = true ->
  (forall h', reply_stat_isFile W h' path <> inr true) ->
  exists typed,
    question_names (snd (Legacy.askForCerts W metadata h))
    = "pathToP12" :: (if truthy (env W "EXP_DIST_CERTIFICATE_PASSWORD")
                      then [] else ["certPassword"])
    /\ In (EvLog LLog (Text "EXP_DIST_CERTIFICATE_PATH is set in the environment to an invalid value."))
          (snd (Legacy.askForCerts W metadata h))
    /\ In (EvAsk "pathToP12" (JStr typed)) (snd (Legacy.askForCerts W metadata h))
    /\ hd_error (calls (snd (Legacy.askForCerts W metadata h))) = Some (fs_stat (JStr path))
    /\ filter is_file_read (snd (Legacy.askForCerts W metadata h))
       = [EvCall (fs_readFile (JStr typed))]
    /\ Forall (fun e => is_managed_generation e = false) (snd (Legacy.askForCerts W metadata h)).
Proof. apply askForCerts_path_not_a_file. Qed.

Lemma askForCerts_invalid_environment_path_witness :
  exists typed,
    question_names (snd (Legacy.askForCerts legacy_no_file_world ios_metadata []))
    = "pathToP12" :: (if truthy (env legacy_no_file_world "EXP_DIST_CERTIFICATE_PASSWORD")
                      then [] else ["certPassword"])
    /\ In (EvLog LLog (Text "EXP_DIST_CERTIFICATE_PATH is set in the environment to an invalid value."))
          (snd (Legacy.askForCerts legacy_no_file_world ios_metadata []))
    /\ In (EvAsk "pathToP12" (JStr typed))
          (snd (Legacy.askForCerts legacy_no_file_world ios_metadata []))
    /\ hd_error (calls (snd (Legacy.askForCerts legacy_no_file_world ios_metadata [])))
       = Some (fs_stat (JStr "dist.p12"))
    /\ filter is_file_read (snd (Legacy.askForCerts legacy_no_file_world ios_metadata []))
       = [EvCall (fs_readFile (JStr typed))]
    /\ Forall (fun e => is_managed_generation e = false)
              (snd (Legacy.askForCerts legacy_no_file_world ios_metadata [])).
Proof.
  apply (askForCerts_invalid_environment_path legacy_no_file_world ios_metadata [] "dist.p12").
  - reflexivity.
  - reflexivity.
  - intros h' H. discriminate H.
Defined.

(** ** When the batch builder resolves credentials *)

Lemma areCredsMissing_flag creds h :
  IOS._areCredsMissing creds (Some (fun _ : bool => false)) true h
  = (inr (forallb (has creds) IOS.OBLIGATORY_CREDS_KEYS), missing_warning creds).
Proof.
  unfold IOS._areCredsMissing, missing_warning. rewrite fold_action_false.
  destruct (forallb (has creds) IOS.OBLIGATORY_CREDS_KEYS) eqn:F.
  - apply credsMissing_nil_iff in F. rewrite F. reflexivity.
  - destruct (IOS.credsMissing creds) as [|k ks] eqn:E; [|reflexivity].
    apply credsMissing_nil_iff in E. congruence.
Qed.

Lemma missing_warning_complete creds :
  forallb (has creds) IOS.OBLIGATORY_CREDS_KEYS = true -> missing_warning creds = [].
Proof.
  intros F. apply credsMissing_nil_iff in F. unfold missing_warning. now rewrite F.
Qed.

Lemma prompt_strategy W h :
  exists v,
    prompt W [IOS.runAsExpertQuestion] h
    = (inr [("isExpoManaged", v)], [EvAsk "isExpoManaged" v]).
Proof. eexists. reflexivity. Qed.

(** X20.  Outside CI mode [runLocalAuth] goes by the keys of the stored
    bundle alone.  A stored bundle that has all six obligatory keys is used
    as it is: after the fetch the builder only logs that it uses the
    existing credentials; it asks nothing, validates nothing and stores
    nothing.  With a key absent it warns about the absent keys, and then, as
    when nothing is stored, its first question is the one about the mode. *)
Theorem runLocalAuth_reuses_complete_bundle
        (W : World) (options : Options) (metadata : obj) (h : Hist) :
  useCi options = false ->
  match reply_credentialsExistForPlatformAsync W h metadata with
  | inl x =>
      IOS.runLocalAuth W options metadata h
      = (inl x, [EvCall (Credentials_credentialsExistForPlatformAsync metadata)])
  | inr (Some stored) =>
      if forallb (has stored) IOS.OBLIGATORY_CREDS_KEYS
      then IOS.runLocalAuth W options metadata h
           = (inr tt,
              [EvCall (Credentials_credentialsExistForPlatformAsync metadata);
               EvLog LLog (Text "Using existing credentials for this build")])
      else exists v rest,
          snd (IOS.runLocalAuth W options metadata h)
          = (EvCall (Credentials_credentialsExistForPlatformAsync metadata)
               :: missing_warning stored ++ EvAsk "isExpoManaged" v :: rest)%list
  | inr None =>
      exists v rest,
        snd (IOS.runLocalAuth W options metadata h)
        = EvCall (Credentials_credentialsExistForPlatformAsync metadata)
            :: EvAsk "isExpoManaged" v :: rest
  end.
Proof.
  intros Hci. unfold IOS.runLocalAuth. rewrite Hci, bind_call.
  destruct (reply_credentialsExistForPlatformAsync W h metadata) as [x|[stored|]];
    [reflexivity| |].
  - erewrite bind_inr;
      [|erewrite bind_inr; [reflexivity | apply areCredsMissing_flag]].
    cbn [fst snd].
    destruct (forallb (has stored) IOS.OBLIGATORY_CREDS_KEYS) eqn:F; cbn [Bool.eqb].
    + rewrite (missing_warning_complete _ F). reflexivity.
    + match goal with
      | |- context [bind (prompt W [IOS.runAsExpertQuestion]) ?K ?hh] =>
          destruct (prompt_strategy W hh) as (v & Hprompt);
          rewrite (bind_inr _ K hh _ _ Hprompt)
      end.
      exists v. eexists. cbn [fst snd app]. rewrite app_nil_r, <- app_assoc. reflexivity.
  - erewrite bind_inr; [|reflexivity]. cbn [fst snd Bool.eqb app].
    match goal with
    | |- context [bind (prompt W [IOS.runAsExpertQuestion]) ?K ?hh] =>
        destruct (prompt_strategy W hh) as (v & Hprompt);
        rewrite (bind_inr _ K hh _ _ Hprompt)
    end.
    exists v. eexists. cbn [fst snd app]. reflexivity.
Qed.

Lemma runLocalAuth_reuses_complete_bundle_witness :
  IOS.runLocalAuth stored_world default_options ios_metadata []
  = (inr tt,
     [EvCall (Credentials_credentialsExistForPlatformAsync ios_metadata);
      EvLog LLog (Text "Using existing credentials for this build")]).
Proof.
  exact (runLocalAuth_reuses_complete_bundle stored_world default_options ios_metadata []
                                             eq_refl).
Defined.

(** *** Slot by slot *)

Ltac slot_done :=
  cbn;
  first
    [ left; reflexivity
    | right; exists "appleId"; split; [cbn; tauto | assumption]
    | right; exists "certP12"; split; [cbn; tauto | assumption]
    | right; exists "pushP12"; split; [cbn; tauto | assumption]
    | repeat split; auto; assumption ].

Ltac slot_ok :=
  first
    [ (* the questions of a step *)
      let name := fresh "name" in
      let v := fresh "v" in
      let Hin := fresh "Hin" in
      intros name v Hin; cbn in Hin;
      repeat (destruct Hin as [<-|Hin]); try contradiction; slot_done
    | (* the upsert of a step *)
      let c := fresh "c" in
      let Hkeys := fresh "Hkeys" in
      intros c Hkeys; unfold by_slot, resolution_slots;
      rewrite !has_existsb_keys, Hkeys; slot_done
    | (* the file system *)
      let p := fresh "p" in
      intros p; split; slot_done
    | intros; slot_done ].

(** Every event of the credential step respects the slots that are kept. *)
Lemma legacy_collect_by_slot W options username experienceName bundleIdentifier h :
  Forall (by_slot
            (literal [("username", username); ("experienceName", experienceName);
                      ("bundleIdentifier", bundleIdentifier); ("platform", JStr "ios")])
            (slot_is_kept
               options
               (reply_credentialsExistForPlatformAsync
                  W (h ++ [EvLog LLog (Text "Checking for existing Apple credentials...")])%list
                  (literal [("username", username); ("experienceName", experienceName);
                            ("bundleIdentifier", bundleIdentifier);
                            ("platform", JStr "ios")]))))
         (snd (Legacy.collectAndValidateCredentials W options username experienceName
                                                    bundleIdentifier h)).
Proof.
  unfold Legacy.collectAndValidateCredentials. cbv zeta.
  unfold log at 1. rewrite bind_emit. cbn [snd].
  constructor; [left; reflexivity|]. rewrite snd_bind_call.
  match goal with
  | |- context [reply_credentialsExistForPlatformAsync W ?hh ?mm] =>
      destruct (reply_credentialsExistForPlatformAsync W hh mm) as [x|existing]
  end.
  { constructor; [left; reflexivity | constructor]. }
  constructor; [left; reflexivity|].
  match goal with
  | |- context [match ?flags with pair _ _ => _ end] =>
      destruct flags as [[hasAppleId hasCert] hasPushCert] eqn:Eflags
  end.
  set (kept := slot_is_kept options (inr existing)).
  assert (Hkept : kept "appleId" = hasAppleId /\ kept "certP12" = hasCert
                  /\ kept "pushP12" = hasPushCert).
  { subst kept. unfold slot_is_kept.
    destruct existing as [existing|]; [destruct (clearCredentials options)|];
      injection Eflags as <- <- <-; repeat split; reflexivity. }
  destruct Hkept as (Ha & Hb & Hc). clearbody kept. clear Eflags.
  match goal with |- Forall ?Q (snd (?m ?hh)) => generalize hh; change (quiet Q m) end.
  apply quiet_bind;
    [destruct hasAppleId; cbn [negb];
     [apply validate_stored_events | apply askForAppleId_events]; slot_ok
    | intros _].
  apply quiet_bind; [apply quiet_emit; left; reflexivity | intros _].
  apply quiet_bind;
    [destruct hasCert; cbn [negb];
     [apply validate_stored_events | apply askForCerts_events]; slot_ok
    | intros _].
  apply quiet_bind.
  { apply quiet_try_catch; [|intros; apply quiet_throw].
    apply quiet_bind; [apply quiet_emit; left; reflexivity | intros _].
    apply quiet_call. left. reflexivity. }
  intros _.
  destruct hasPushCert; cbn [negb];
    [apply validate_stored_events | apply askForPushCerts_events]; slot_ok.
Qed.

(** *** A step that returns has done its work *)

Lemma fst_bind_inr {A B} (m : M A) (f : A -> M B) h b :
  fst (bind m f h) = inr b ->
  exists a, fst (m h) = inr a /\ fst (f a (h ++ snd (m h))%list) = inr b.
Proof.
  unfold bind. destruct (m h) as [[e|a] es]; simpl; [discriminate|].
  destruct (f a (h ++ es)%list) as [r es'] eqn:E. simpl. intros ->.
  exists a. split; [reflexivity|]. now rewrite E.
Qed.

Lemma fst_bind_ok {A B} (m : M A) (f : A -> M B) h a :
  fst (m h) = inr a -> fst (bind m f h) = fst (f a (h ++ snd (m h))%list).
Proof.
  unfold bind. destruct (m h) as [[e|a'] es]; simpl; [discriminate|].
  intros H. injection H as ->. now destruct (f a (h ++ es)%list).
Qed.

Lemma exists_bind_left {A B} (P : Event -> Prop) (m : M A) (f : A -> M B) h :
  Exists P (snd (m h)) -> Exists P (snd (bind m f h)).
Proof. intros H. rewrite snd_bind. apply Exists_app. now left. Qed.

Lemma exists_bind_right {A B} (P : Event -> Prop) (m : M A) (f : A -> M B) h a :
  fst (m h) = inr a ->
  Exists P (snd (f a (h ++ snd (m h))%list)) -> Exists P (snd (bind m f h)).
Proof. intros Hm H. rewrite snd_bind, Hm. apply Exists_app. now right. Qed.

(** From [H], which says that a sequence has returned, to an event of the
    sequence that satisfies the goal. *)
Ltac ok_exists H :=
  cbv beta in H |- *;
  lazymatch type of H with
  | fst (bind (emit ?ev) ?f ?h) = _ =>
      rewrite bind_emit in H |- *; cbn [fst snd] in H |- *;
      apply Exists_cons_tl; ok_exists H
  | fst (bind (call ?c ?r) ?f ?h) = _ =>
      rewrite bind_call in H |- *; destruct (r h); cbn [fst snd] in H |- *;
      [discriminate H|];
      first [ solve [apply Exists_cons_hd; cbn; auto]
            | apply Exists_cons_tl; ok_exists H ]
  | fst (bind ?m ?f ?h) = _ =>
      let H1 := fresh "Hstep" in
      let a := fresh "a" in
      apply fst_bind_inr in H as (a & H1 & H);
      first [ solve [apply exists_bind_left; ok_exists H1]
            | apply (exists_bind_right _ _ _ _ _ H1); ok_exists H ]
  | fst ((if ?c then _ else _) ?h) = _ => destruct c; ok_exists H
  | fst ((match ?x with pair _ _ => _ end) ?h) = _ => destruct x; ok_exists H
  | fst (call ?c ?r ?h) = _ => apply Exists_cons_hd; cbn; auto
  end.

Lemma askForAppleId_resolves W metadata h :
  fst (Legacy.askForAppleId W metadata h) = inr tt ->
  Exists (resolves metadata "appleId") (snd (Legacy.askForAppleId W metadata h)).
Proof.
  unfold Legacy.askForAppleId, console_log, log. cbv zeta. intros H. ok_exists H.
Qed.

Lemma askForCerts_resolves W metadata h :
  fst (Legacy.askForCerts W metadata h) = inr tt ->
  Exists (resolves metadata "certP12") (snd (Legacy.askForCerts W metadata h)).
Proof.
  unfold Legacy.askForCerts, console_log, log, readFile. cbv zeta. intros H. ok_exists H.
Qed.

Lemma askForPushCerts_resolves W metadata h :
  fst (Legacy.askForPushCerts W metadata h) = inr tt ->
  Exists (resolves metadata "pushP12") (snd (Legacy.askForPushCerts W metadata h)).
Proof.
  unfold Legacy.askForPushCerts, console_log, log, readFile. cbv zeta. intros H. ok_exists H.
Qed.

(** Looking for an event through the parts of a trace. *)
Ltac find_event leaf :=
  first
    [ solve [leaf]
    | apply in_cons; find_event leaf
    | apply Exists_cons_tl; find_event leaf
    | apply in_or_app; first [left; find_event leaf | right; find_event leaf]
    | apply Exists_app; first [left; find_event leaf | right; find_event leaf] ].

Lemma validate_stored_in W line kind metadata h :
  In (EvCall (Credentials_validateCredentialsForPlatform "ios" kind None metadata))
     (snd ((log line ;; Legacy.validate_existing W kind metadata) h)).
Proof. unfold log. rewrite bind_emit. right. left. reflexivity. Qed.

(** When the credential step returns, every slot has been dealt with: a
    kept slot was validated as it is stored, any other slot was resolved. *)
Lemma legacy_collect_resolves W options username experienceName bundleIdentifier h :
  let metadata :=
    literal [("username", username); ("experienceName", experienceName);
             ("bundleIdentifier", bundleIdentifier); ("platform", JStr "ios")] in
  let kept :=
    slot_is_kept
      options
      (reply_credentialsExistForPlatformAsync
         W (h ++ [EvLog LLog (Text "Checking for existing Apple credentials...")])%list
         metadata) in
  let es := snd (Legacy.collectAndValidateCredentials W options username experienceName
                                                      bundleIdentifier h) in
  fst (Legacy.collectAndValidateCredentials W options username experienceName
                                            bundleIdentifier h) = inr tt ->
  forall kind, In kind ["appleId"; "cert"; "push"] ->
    if kept (slot_of_kind kind)
    then In (EvCall (Credentials_validateCredentialsForPlatform "ios" kind None metadata)) es
    else Exists (resolves metadata (slot_of_kind kind)) es.
Proof.
  cbv zeta.
  remember (reply_credentialsExistForPlatformAsync W _ _) as stored eqn:Hstored.
  destruct (Legacy.collectAndValidateCredentials W options username experienceName
                                                 bundleIdentifier h) as [r es] eqn:E.
  cbn [fst snd]. intros ->.
  unfold Legacy.collectAndValidateCredentials in E. cbv zeta in E.
  unfold log at 1 in E. rewrite bind_emit, bind_call, <- Hstored in E. clear Hstored.
  destruct stored as [x|existing]; [discriminate E|].
  match type of E with
  | context [match ?flags with pair _ _ => _ end] =>
      destruct flags as [[hasAppleId hasCert] hasPushCert] eqn:Eflags
  end.
  set (kept := slot_is_kept options (inr existing)).
  assert (Hkept : kept "appleId" = hasAppleId /\ kept "certP12" = hasCert
                  /\ kept "pushP12" = hasPushCert).
  { subst kept. unfold slot_is_kept.
    destruct existing as [existing|]; [destruct (clearCredentials options)|];
      injection Eflags as <- <- <-; repeat split; reflexivity. }
  destruct Hkept as (Ha & Hb & Hc). clearbody kept. clear Eflags.
  cbn [fst snd] in E. injection E as H <-.
  apply fst_bind_inr in H as ([] & H1 & H). rewrite snd_bind, H1.
  change (log "Credentials valid.") with (emit (EvLog LLog (Text "Credentials valid.")))
    in H |- *.
  rewrite bind_emit in H |- *. cbn [fst snd] in H |- *.
  apply fst_bind_inr in H as ([] & H2 & H). rewrite snd_bind, H2.
  apply fst_bind_inr in H as ([] & Htry & H3). rewrite snd_bind, Htry.
  intros kind [<-|[<-|[<-|[]]]]; cbn [slot_of_kind String.eqb Ascii.eqb Bool.eqb].
  - rewrite Ha. destruct hasAppleId; cbn [negb] in H1 |- *.
    + find_event ltac:(apply validate_stored_in).
    + find_event ltac:(apply askForAppleId_resolves; exact H1).
  - rewrite Hb. destruct hasCert; cbn [negb] in H2 |- *.
    + find_event ltac:(apply validate_stored_in).
    + find_event ltac:(apply askForCerts_resolves; exact H2).
  - rewrite Hc. destruct hasPushCert; cbn [negb] in H3 |- *.
    + find_event ltac:(apply validate_stored_in).
    + find_event ltac:(apply askForPushCerts_resolves; exact H3).
Qed.

(** X21.  The per-field iOS builder decides slot by slot, the slots being
    appleId, certP12 and pushP12.  A slot is kept when credentials are
    stored, [clearCredentials] is not set and the stored bundle holds a
    value at the key of the slot.  Every event of the credential step
    respects that: a validation without credentials is for platform ios,
    for the project's metadata and for a kept slot, and whatever resolves
    (a question, a file access, a validation with credentials, a certificate
    fetch, an upsert) belongs to a slot that is not kept.  When the step
    returns normally, every kept slot has been validated as it is stored,
    and every other slot has been resolved: a bundle with the key of the
    slot was upserted, or the service was asked to generate the
    certificate. *)
Theorem legacy_slots_are_resolved_one_by_one
        (W : World) (options : Options) (username experienceName bundleIdentifier : jsval)
        (h : Hist) :
  let metadata :=
    literal [("username", username); ("experienceName", experienceName);
             ("bundleIdentifier", bundleIdentifier); ("platform", JStr "ios")] in
  let kept :=
    slot_is_kept
      options
      (reply_credentialsExistForPlatformAsync
         W (h ++ [EvLog LLog (Text "Checking for existing Apple credentials...")])%list
         metadata) in
  let es := snd (Legacy.collectAndValidateCredentials W options username experienceName
                                                      bundleIdentifier h) in
  Forall (by_slot metadata kept) es
  /\ (fst (Legacy.collectAndValidateCredentials W options username experienceName
                                                bundleIdentifier h) = inr tt ->
      forall kind, In kind ["appleId"; "cert"; "push"] ->
        if kept (slot_of_kind kind)
        then In (EvCall (Credentials_validateCredentialsForPlatform "ios" kind None metadata))
                es
        else Exists (resolves metadata (slot_of_kind kind)) es).
Proof.
  cbv zeta. split.
  - apply legacy_collect_by_slot.
  - apply legacy_collect_resolves.
Qed.

Lemma legacy_slots_are_resolved_one_by_one_witness :
  In (EvCall (Credentials_validateCredentialsForPlatform "ios" "cert" None ios_metadata))
     (snd (Legacy.collectAndValidateCredentials
             legacy_partial_world default_options (JStr "alice") (JStr "@alice/app")
             (JStr "com.alice.app") []))
  /\ Exists (resolves ios_metadata "pushP12")
            (snd (Legacy.collectAndValidateCredentials
                    legacy_partial_world default_options (JStr "alice") (JStr "@alice/app")
                    (JStr "com.alice.app") [])).
Proof.
  split.
  - exact (proj2 (legacy_slots_are_resolved_one_by_one
                    legacy_partial_world default_options (JStr "alice") (JStr "@alice/app")
                    (JStr "com.alice.app") [])
                 eq_refl "cert" (or_intror (or_introl eq_refl))).
  - exact (proj2 (legacy_slots_are_resolved_one_by_one
                    legacy_partial_world default_options (JStr "alice") (JStr "@alice/app")
                    (JStr "com.alice.app") [])
                 eq_refl "push" (or_intror (or_intror (or_introl eq_refl)))).
Defined.

(** ** An override that is used is committed *)

Lemma env_truthy_string W name :
  truthy (env W name) = true -> exists c p, env W name = JStr (String c p).
Proof.
  unfold env. destruct (process_env W name) as [[|c p]|]; simpl; try discriminate.
  intros _. eauto.
Qed.

Ltac in_trace := repeat first [left; reflexivity | right].

(** What is left of a run once every reply has been looked at: when the
    run has returned the upsert is in its trace, and a world that never
    refuses has not made it fail. *)
Ltac refused :=
  match goal with
  | Hacc : forall h p k c m, reply_validateCredentialsForPlatform ?W h p k c m = inr tt,
    Heq : reply_validateCredentialsForPlatform ?W _ _ _ _ _ = inl _ |- _ =>
      rewrite Hacc in Heq; discriminate Heq
  | Hacc : forall h p c m, reply_updateCredentialsForPlatform ?W h p c m = inr tt,
    Heq : reply_updateCredentialsForPlatform ?W _ _ _ _ = inl _ |- _ =>
      rewrite Hacc in Heq; discriminate Heq
  | Hacc : files_readable ?W, Heq : reply_readFile ?W ?hh ?p = inl _ |- _ =>
      destruct (Hacc hh p) as [? Hd]; rewrite Hd in Heq; discriminate Heq
  end.

Ltac commit_leaf :=
  cbn; split;
  [ let Hok := fresh "Hok" in
    intros Hok;
    first [ discriminate Hok
          | solve [in_trace]
          | solve [do 2 eexists; split; [eassumption | in_trace]]
          | solve [do 3 eexists; split; [reflexivity | split; [eassumption | in_trace]]] ]
  | intros; repeat match goal with H : service_accepts _ |- _ => destruct H end;
    first [reflexivity | refused] ].

Lemma askForAppleId_override_commits W metadata :
  truthy (env W "EXP_APPLE_ID") = true ->
  truthy (env W "EXP_APPLE_PASSWORD") = true ->
  truthy (env W "EXP_APPLE_TEAM_ID") = true ->
  forall h,
    (fst (Legacy.askForAppleId W metadata h) = inr tt ->
     In (EvCall (Credentials_updateCredentialsForPlatform
                   "ios"
                   [("appleId", env W "EXP_APPLE_ID");
                    ("password", env W "EXP_APPLE_PASSWORD");
                    ("teamId", env W "EXP_APPLE_TEAM_ID")]
                   metadata))
        (snd (Legacy.askForAppleId W metadata h)))
    /\ (service_accepts W -> fst (Legacy.askForAppleId W metadata h) = inr tt).
Proof.
  intros T1 T2 T3 h. unfold Legacy.askForAppleId.
  generalize dependent (env W "EXP_APPLE_ID"). intros v1 T1.
  generalize dependent (env W "EXP_APPLE_PASSWORD"). intros v2 T2.
  generalize dependent (env W "EXP_APPLE_TEAM_ID"). intros v3 T3.
  run_quick.
  match goal with
  | |- context [reply_validateCredentialsForPlatform ?w ?hh ?a ?b ?c ?d] =>
      destruct (reply_validateCredentialsForPlatform w hh a b c d) as [e'|[]] eqn:Hv
  end; run_quick; [commit_leaf|].
  match goal with
  | |- context [reply_updateCredentialsForPlatform ?w ?hh ?a ?b ?c] =>
      destruct (reply_updateCredentialsForPlatform w hh a b c) as [e'|[]] eqn:Hu
  end; run_quick; commit_leaf.
Qed.

Ltac certs_override_commits W password_variable :=
  generalize dependent (env W password_variable); intros v2 T2;
  run_quick;
  match goal with
  | |- context [reply_readFile ?w ?hh ?t] =>
      destruct (reply_readFile w hh t) as [e'|data] eqn:Hread
  end; run_quick; [commit_leaf|];
  match goal with
  | |- context [reply_validateCredentialsForPlatform ?w ?hh ?a ?b ?c ?d] =>
      destruct (reply_validateCredentialsForPlatform w hh a b c d) as [e'|[]] eqn:Hv
  end; run_quick; [commit_leaf|];
  match goal with
  | |- context [reply_updateCredentialsForPlatform ?w ?hh ?a ?b ?c] =>
      destruct (reply_updateCredentialsForPlatform w hh a b c) as [e'|[]] eqn:Hu
  end; run_quick; commit_leaf.

Lemma askForCerts_override_commits W metadata p :
  env W "EXP_DIST_CERTIFICATE_PATH" = JStr p ->
  p <> "" ->
  truthy (env W "EXP_DIST_CERTIFICATE_PASSWORD") = true ->
  (forall h, reply_stat_isFile W h p = inr true) ->
  forall h,
    (fst (Legacy.askForCerts W metadata h) = inr tt ->
     exists h' data,
       reply_readFile W h' p = inr data
       /\ In (EvCall (Credentials_updateCredentialsForPlatform
                        "ios"
                        [("certP12", JStr (base64 data));
                         ("certPassword", env W "EXP_DIST_CERTIFICATE_PASSWORD")]
                        metadata))
             (snd (Legacy.askForCerts W metadata h)))
    /\ (files_readable W -> service_accepts W ->
        fst (Legacy.askForCerts W metadata h) = inr tt).
Proof.
  intros Hp Np T2 Hstat h. unfold Legacy.askForCerts. rewrite Hp.
  destruct p as [|c p]; [congruence|]. clear Np Hp.
  certs_override_commits W "EXP_DIST_CERTIFICATE_PASSWORD".
Qed.

Lemma askForPushCerts_override_commits W metadata p :
  env W "EXP_PUSH_CERTIFICATE_PATH" = JStr p ->
  p <> "" ->
  truthy (env W "EXP_PUSH_CERTIFICATE_PASSWORD") = true ->
  (forall h, reply_stat_isFile W h p = inr true) ->
  forall h,
    (fst (Legacy.askForPushCerts W metadata h) = inr tt ->
     exists h' data,
       reply_readFile W h' p = inr data
       /\ In (EvCall (Credentials_updateCredentialsForPlatform
                        "ios"
                        [("pushP12", JStr (base64 data));
                         ("pushPassword", env W "EXP_PUSH_CERTIFICATE_PASSWORD")]
                        metadata))
             (snd (Legacy.askForPushCerts W metadata h)))
    /\ (files_readable W -> service_accepts W ->
        fst (Legacy.askForPushCerts W metadata h) = inr tt).
Proof.
  intros Hp Np T2 Hstat h. unfold Legacy.askForPushCerts. rewrite Hp.
  destruct p as [|c p]; [congruence|]. clear Np Hp.
  certs_override_commits W "EXP_PUSH_CERTIFICATE_PASSWORD".
Qed.

Lemma android_override_commits W projectDir options :
  truthy (env W "EXP_ANDROID_KEYSTORE_PATH") = true ->
  truthy (env W "EXP_ANDROID_KEYSTORE_ALIAS") = true ->
  truthy (env W "EXP_ANDROID_STORE_PASSWORD") = true ->
  truthy (env W "EXP_ANDROID_KEY_PASSWORD") = true ->
  forall h args stored,
    reply_getPublishInfoAsync W h projectDir = inr args ->
    reply_credentialsExistForPlatformAsync
      W (h ++ [EvCall (Exp_getPublishInfoAsync projectDir)])%list (android_metadata args)
    = inr stored ->
    clearCredentials options = true \/ stored = None ->
    (fst (Android.collectAndValidateCredentials W projectDir options h) = inr tt ->
     exists h' path data,
       env W "EXP_ANDROID_KEYSTORE_PATH" = JStr path
       /\ reply_readFile W h' path = inr data
       /\ In (EvCall (Credentials_updateCredentialsForPlatform
                        "android"
                        [("keystore", JStr (base64 data));
                         ("keystoreAlias", env W "EXP_ANDROID_KEYSTORE_ALIAS");
                         ("keystorePassword", env W "EXP_ANDROID_STORE_PASSWORD");
                         ("keyPassword", env W "EXP_ANDROID_KEY_PASSWORD")]
                        (android_metadata args)))
             (snd (Android.collectAndValidateCredentials W projectDir options h)))
    /\ (files_readable W -> service_accepts W ->
        fst (Android.collectAndValidateCredentials W projectDir options h) = inr tt).
Proof.
  intros T1 T2 T3 T4 h args stored Hargs Hstored Hfresh.
  destruct (env_truthy_string _ _ T1) as (c & p & Hp). rewrite Hp. clear T1.
  assert (Hcond : clearCredentials options
                  || match stored with Some _ => false | None => true end = true).
  { destruct Hfresh as [-> | ->]; [reflexivity | apply orb_true_r]. }
  unfold Android.collectAndValidateCredentials, Android.questions.
  rewrite bind_call, Hargs. cbv beta iota zeta.
  unfold android_metadata in Hstored |- *.
  rewrite bind_call, Hstored. cbv beta iota zeta. rewrite Hcond, Hp.
  generalize dependent (env W "EXP_ANDROID_KEYSTORE_ALIAS"). intros v2 T2.
  generalize dependent (env W "EXP_ANDROID_STORE_PASSWORD"). intros v3 T3.
  generalize dependent (env W "EXP_ANDROID_KEY_PASSWORD"). intros v4 T4.
  run_quick.
  match goal with
  | |- context [reply_readFile ?w ?hh ?t] =>
      destruct (reply_readFile w hh t) as [e'|data] eqn:Hread
  end; run_quick; [commit_leaf|].
  match goal with
  | |- context [reply_updateCredentialsForPlatform ?w ?hh ?a ?b ?c] =>
      destruct (reply_updateCredentialsForPlatform w hh a b c) as [e'|[]] eqn:Hu
  end; run_quick; commit_leaf.
Qed.

(** *** The batch builder in CI mode *)

Lemma returns_ret {A} (a : A) : returns (ret a).
Proof. intros h. exists a. reflexivity. Qed.

Lemma returns_emit (ev : Event) : returns (emit ev).
Proof. intros h. exists tt. reflexivity. Qed.

Lemma returns_call {A} c (reply : Hist -> Exn + A) :
  (forall h, exists a, reply h = inr a) -> returns (call c reply).
Proof. intros H h. destruct (H h) as [a Ha]. exists a. exact Ha. Qed.

Lemma returns_bind {A B} (m : M A) (f : A -> M B) :
  returns m -> (forall a, returns (f a)) -> returns (bind m f).
Proof.
  intros Hm Hf h. destruct (Hm h) as [a Ha].
  destruct (Hf a (h ++ snd (m h))%list) as [b Hb].
  exists b. now rewrite (fst_bind_ok _ _ _ _ Ha).
Qed.

Lemma areCredsMissing_returns {S} (creds : obj) (action : option (S -> S)) (s : S) :
  returns (IOS._areCredsMissing creds action s).
Proof.
  unfold IOS._areCredsMissing. apply returns_bind; [|intros; apply returns_ret].
  destruct (negb _); [apply returns_emit | apply returns_ret].
Qed.

Lemma readFile_returns W p :
  files_readable W -> returns (readFile W (JStr p)).
Proof. intros H. apply returns_call. intros h. apply H. Qed.

Lemma runningAsCI_returns W credsStarter metadata :
  files_readable W ->
  (forall name,
      In name ["EXP_DIST_CERTIFICATE_PATH"; "EXP_PUSH_CERTIFICATE_PATH";
               "EXP_PROVIONING_PROFILE_PATH"] ->
      exists p, env W name = JStr p) ->
  returns (IOS.runningAsCI W credsStarter metadata).
Proof.
  intros Hfiles Hpaths.
  destruct (Hpaths "EXP_DIST_CERTIFICATE_PATH") as [p1 H1]; [simpl; auto|].
  destruct (Hpaths "EXP_PUSH_CERTIFICATE_PATH") as [p2 H2]; [simpl; auto|].
  destruct (Hpaths "EXP_PROVIONING_PROFILE_PATH") as [p3 H3]; [simpl; auto|].
  unfold IOS.runningAsCI. cbv zeta.
  cbv beta iota delta [get String.eqb Ascii.eqb Bool.eqb].
  rewrite H1, H2, H3.
  apply returns_bind; [now apply readFile_returns | intros d3].
  apply returns_bind; [now apply readFile_returns | intros d1].
  apply returns_bind; [now apply readFile_returns | intros d2].
  apply returns_ret.
Qed.

(** In CI mode a run that returns has upserted a bundle taken from the
    environment, and a world that never refuses lets it return. *)
Lemma runLocalAuth_ci_commits W options metadata :
  useCi options = true ->
  forall h,
    (fst (IOS.runLocalAuth W options metadata h) = inr tt ->
     exists creds,
       from_ci_environment W creds
       /\ In (EvCall (Credentials_updateCredentialsForPlatform "ios" creds metadata))
             (snd (IOS.runLocalAuth W options metadata h)))
    /\ (store_answers W -> files_readable W -> service_accepts W ->
        (forall name,
            In name ["EXP_DIST_CERTIFICATE_PATH"; "EXP_PUSH_CERTIFICATE_PATH";
                     "EXP_PROVIONING_PROFILE_PATH"] ->
            exists p, env W name = JStr p) ->
        fst (IOS.runLocalAuth W options metadata h) = inr tt).
Proof.
  intros Hci h. split.
  - intros Hok.
    assert (Hex : Exists (is_upsert_for "ios" metadata)
                         (snd (IOS.runLocalAuth W options metadata h))).
    { revert Hok. unfold IOS.runLocalAuth, log_warn. rewrite Hci. cbv iota.
      intros H. ok_exists H. }
    apply Exists_exists in Hex as (e & Hin & He).
    destruct e as [c| | |]; try contradiction.
    destruct c; try contradiction. destruct He as [-> ->].
    exists credentials. split; [|exact Hin].
    eapply commit_shape_in; [|exact Hin].
    apply runLocalAuth_ci_commit_shape; [exact Hci|].
    intros c. apply post_runningAsCI_environment.
  - intros Hstore Hfiles [Hv Hu] Hpaths.
    assert (R : returns (IOS.runLocalAuth W options metadata)).
    { unfold IOS.runLocalAuth. rewrite Hci.
      apply returns_bind; [apply returns_call; intros h'; apply Hstore | intros fetched].
      apply returns_bind.
      { destruct fetched; [|apply returns_ret].
        apply returns_bind; [apply areCredsMissing_returns | intros; apply returns_ret]. }
      intros [credsStarter clientHasAllNeededCreds].
      apply returns_bind; [now apply runningAsCI_returns | intros creds].
      apply returns_bind; [apply areCredsMissing_returns | intros _].
      apply returns_bind; [|intros _; apply returns_emit].
      apply returns_call. intros h'. exists tt. apply Hu. }
    destruct (R h) as [[] HR]. exact HR.
Qed.

(** C3: a fully specified environment override is used, without any
    question for the slot, exactly where the flow resolves the slot from
    the environment; there the values committed are those of the
    environment, the step returns only once it has upserted them, and a
    world in which every file is readable and the service accepts lets it
    return.  In the batch iOS flow that is CI mode, whatever was stored;
    outside CI mode that flow does not look at the environment.  In the
    Android flow it is when nothing is stored or clearCredentials is set;
    with a stored keystore and no clearCredentials the flow stops after the
    fetch.  In the per-field iOS flow it is, slot by slot, when the slot is
    not kept (nothing stored at the key of the slot, or clearCredentials
    set), and for a certificate when the path in the environment names a
    file; a kept slot is validated as it is stored and nothing is resolved
    for it, and a path that names no file is asked for again. *)
Theorem C3_environment_override_used_when_slot_is_resolved
        (W : World) (projectDir : string) (options : Options) (metadata : obj) :
  (useCi options = true ->
   quiet (fun e => is_prompt e = false) (IOS.runLocalAuth W options metadata)
   /\ (forall h creds m,
          In (EvCall (Credentials_updateCredentialsForPlatform "ios" creds m))
             (snd (IOS.runLocalAuth W options metadata h)) ->
          from_ci_environment W creds)
   /\ forall h,
       (fst (IOS.runLocalAuth W options metadata h) = inr tt ->
        exists creds,
          from_ci_environment W creds
          /\ In (EvCall (Credentials_updateCredentialsForPlatform "ios" creds metadata))
                (snd (IOS.runLocalAuth W options metadata h)))
       /\ (store_answers W -> files_readable W -> service_accepts W ->
           (forall name,
               In name ["EXP_DIST_CERTIFICATE_PATH"; "EXP_PUSH_CERTIFICATE_PATH";
                        "EXP_PROVIONING_PROFILE_PATH"] ->
               exists p, env W name = JStr p) ->
           fst (IOS.runLocalAuth W options metadata h) = inr tt))
  /\ (useCi options = false ->
      forall environment,
        IOS.runLocalAuth (with_env W environment) options metadata
        = IOS.runLocalAuth W options metadata)
  /\ (truthy (env W "EXP_ANDROID_KEYSTORE_PATH") = true ->
      truthy (env W "EXP_ANDROID_KEYSTORE_ALIAS") = true ->
      truthy (env W "EXP_ANDROID_STORE_PASSWORD") = true ->
      truthy (env W "EXP_ANDROID_KEY_PASSWORD") = true ->
      forall h,
        let es := snd (Android.collectAndValidateCredentials W projectDir options h) in
        (Forall (fun e => is_prompt e = false) es
         /\ forall creds m,
             In (EvCall (Credentials_updateCredentialsForPlatform "android" creds m)) es ->
             exists h' path data,
               env W "EXP_ANDROID_KEYSTORE_PATH" = JStr path
               /\ reply_readFile W h' path = inr data
               /\ creds = [("keystore", JStr (base64 data));
                           ("keystoreAlias", env W "EXP_ANDROID_KEYSTORE_ALIAS");
                           ("keystorePassword", env W "EXP_ANDROID_STORE_PASSWORD");
                           ("keyPassword", env W "EXP_ANDROID_KEY_PASSWORD")])
        /\ forall args stored,
            reply_getPublishInfoAsync W h projectDir = inr args ->
            reply_credentialsExistForPlatformAsync
              W (h ++ [EvCall (Exp_getPublishInfoAsync projectDir)])%list
              (android_metadata args)
            = inr stored ->
            clearCredentials options = true \/ stored = None ->
            (fst (Android.collectAndValidateCredentials W projectDir options h) = inr tt ->
             exists h' path data,
               env W "EXP_ANDROID_KEYSTORE_PATH" = JStr path
               /\ reply_readFile W h' path = inr data
               /\ In (EvCall (Credentials_updateCredentialsForPlatform
                                "android"
                                [("keystore", JStr (base64 data));
                                 ("keystoreAlias", env W "EXP_ANDROID_KEYSTORE_ALIAS");
                                 ("keystorePassword", env W "EXP_ANDROID_STORE_PASSWORD");
                                 ("keyPassword", env W "EXP_ANDROID_KEY_PASSWORD")]
                                (android_metadata args)))
                     es)
            /\ (files_readable W -> service_accepts W ->
                fst (Android.collectAndValidateCredentials W projectDir options h)
                = inr tt))
  /\ (clearCredentials options = false ->
      forall h args existing,
        reply_getPublishInfoAsync W h projectDir = inr args ->
        reply_credentialsExistForPlatformAsync
          W (h ++ [EvCall (Exp_getPublishInfoAsync projectDir)])%list (android_metadata args)
        = inr (Some existing) ->
        Android.collectAndValidateCredentials W projectDir options h
        = (inr tt,
           [EvCall (Exp_getPublishInfoAsync projectDir);
            EvCall (Credentials_credentialsExistForPlatformAsync (android_metadata args))]))
  /\ (truthy (env W "EXP_APPLE_ID") = true ->
      truthy (env W "EXP_APPLE_PASSWORD") = true ->
      truthy (env W "EXP_APPLE_TEAM_ID") = true ->
      forall h,
        let es := snd (Legacy.askForAppleId W metadata h) in
        Forall (fun e => is_prompt e = false) es
        /\ (forall creds m,
               In (EvCall (Credentials_updateCredentialsForPlatform "ios" creds m)) es ->
               creds = [("appleId", env W "EXP_APPLE_ID");
                        ("password", env W "EXP_APPLE_PASSWORD");
                        ("teamId", env W "EXP_APPLE_TEAM_ID")])
        /\ (fst (Legacy.askForAppleId W metadata h) = inr tt ->
            In (EvCall (Credentials_updateCredentialsForPlatform
                          "ios"
                          [("appleId", env W "EXP_APPLE_ID");
                           ("password", env W "EXP_APPLE_PASSWORD");
                           ("teamId", env W "EXP_APPLE_TEAM_ID")]
                          metadata))
               es)
        /\ (service_accepts W -> fst (Legacy.askForAppleId W metadata h) = inr tt))
  /\ (forall p,
        env W "EXP_DIST_CERTIFICATE_PATH" = JStr p ->
        p <> "" ->
        truthy (env W "EXP_DIST_CERTIFICATE_PASSWORD") = true ->
        (forall h, reply_stat_isFile W h p = inr true) ->
        forall h,
          let es := snd (Legacy.askForCerts W metadata h) in
          Forall (fun e => is_prompt e = false) es
          /\ (forall creds m,
                 In (EvCall (Credentials_updateCredentialsForPlatform "ios" creds m)) es ->
                 exists h' data,
                   reply_readFile W h' p = inr data
                   /\ creds = [("certP12", JStr (base64 data));
                               ("certPassword", env W "EXP_DIST_CERTIFICATE_PASSWORD")])
          /\ (fst (Legacy.askForCerts W metadata h) = inr tt ->
              exists h' data,
                reply_readFile W h' p = inr data
                /\ In (EvCall (Credentials_updateCredentialsForPlatform
                                 "ios"
                                 [("certP12", JStr (base64 data));
                                  ("certPassword", env W "EXP_DIST_CERTIFICATE_PASSWORD")]
                                 metadata))
                      es)
          /\ (files_readable W -> service_accepts W ->
              fst (Legacy.askForCerts W metadata h) = inr tt))
  /\ (forall p,
        env W "EXP_PUSH_CERTIFICATE_PATH" = JStr p ->
        p <> "" ->
        truthy (env W "EXP_PUSH_CERTIFICATE_PASSWORD") = true ->
        (forall h, reply_stat_isFile W h p = inr true) ->
        forall h,
          let es := snd (Legacy.askForPushCerts W metadata h) in
          Forall (fun e => is_prompt e = false) es
          /\ (forall creds m,
                 In (EvCall (Credentials_updateCredentialsForPlatform "ios" creds m)) es ->
                 exists h' data,
                   reply_readFile W h' p = inr data
                   /\ creds = [("pushP12", JStr (base64 data));
                               ("pushPassword", env W "EXP_PUSH_CERTIFICATE_PASSWORD")])
          /\ (fst (Legacy.askForPushCerts W metadata h) = inr tt ->
              exists h' data,
                reply_readFile W h' p = inr data
                /\ In (EvCall (Credentials_updateCredentialsForPlatform
                                 "ios"
                                 [("pushP12", JStr (base64 data));
                                  ("pushPassword", env W "EXP_PUSH_CERTIFICATE_PASSWORD")]
                                 metadata))
                      es)
          /\ (files_readable W -> service_accepts W ->
              fst (Legacy.askForPushCerts W metadata h) = inr tt))
  /\ (clearCredentials options = false ->
      (forall h m stored,
          reply_credentialsExistForPlatformAsync W h m = inr stored ->
          exists existing, stored = Some existing /\ holds_all_slots existing) ->
      forall username experienceName bundleIdentifier,
        quiet (fun e => is_resolution e = false)
              (Legacy.collectAndValidateCredentials W options username experienceName
                                                    bundleIdentifier))
  /\ (forall username experienceName bundleIdentifier h,
        let project :=
          literal [("username", username); ("experienceName", experienceName);
                   ("bundleIdentifier", bundleIdentifier); ("platform", JStr "ios")] in
        let kept :=
          slot_is_kept
            options
            (reply_credentialsExistForPlatformAsync
               W (h ++ [EvLog LLog (Text "Checking for existing Apple credentials...")])%list
               project) in
        let es := snd (Legacy.collectAndValidateCredentials
                         W options username experienceName bundleIdentifier h) in
        Forall (by_slot project kept) es
        /\ (fst (Legacy.collectAndValidateCredentials
                   W options username experienceName bundleIdentifier h) = inr tt ->
            forall kind, In kind ["appleId"; "cert"; "push"] ->
              if kept (slot_of_kind kind)
              then In (EvCall (Credentials_validateCredentialsForPlatform
                                 "ios" kind None project)) es
              else Exists (resolves project (slot_of_kind kind)) es))
  /\ (forall h path,
        env W "EXP_DIST_CERTIFICATE_PATH" = JStr path ->
        truthy (JStr path) = true ->
        (forall h', reply_stat_isFile W h' path <> inr true) ->
        let es := snd (Legacy.askForCerts W metadata h) in
        exists typed,
          question_names es
          = "pathToP12" :: (if truthy (env W "EXP_DIST_CERTIFICATE_PASSWORD")
                            then [] else ["certPassword"])
          /\ In (EvLog LLog (Text "EXP_DIST_CERTIFICATE_PATH is set in the environment to an invalid value."))
                es
          /\ In (EvAsk "pathToP12" (JStr typed)) es
          /\ hd_error (calls es) = Some (fs_stat (JStr path))
          /\ filter is_file_read es = [EvCall (fs_readFile (JStr typed))]
          /\ Forall (fun e => is_managed_generation e = false) es)
  /\ (forall h path,
        env W "EXP_PUSH_CERTIFICATE_PATH" = JStr path ->
        truthy (JStr path) = true ->
        (forall h', reply_stat_isFile W h' path <> inr true) ->
        let es := snd (Legacy.askForPushCerts W metadata h) in
        exists typed,
          question_names es
          = "pathToP12" :: (if truthy (env W "EXP_PUSH_CERTIFICATE_PASSWORD")
                            then [] else ["certPassword"])
          /\ In (EvLog LLog (Text "EXP_PUSH_CERTIFICATE_PATH is set in the environment to an invalid value."))
                es
          /\ In (EvAsk "pathToP12" (JStr typed)) es
          /\ hd_error (calls es) = Some (fs_stat (JStr path))
          /\ filter is_file_read es = [EvCall (fs_readFile (JStr typed))]
          /\ Forall (fun e => is_managed_generation e = false) es).
Proof.
  split; [|split; [|split; [|split; [|split; [|split; [|split; [|split; [|split;
    [|split]]]]]]]]].
  - intros Hci. split; [|split].
    + eapply quiet_weaken; [|apply runLocalAuth_ci_quiet; exact Hci].
      intros e [He _]. exact He.
    + intros h creds m Hin.
      eapply commit_shape_in; [|exact Hin].
      apply runLocalAuth_ci_commit_shape; [exact Hci|].
      intros c. apply post_runningAsCI_environment.
    + intros h. now apply runLocalAuth_ci_commits.
  - intros Hci environment. now apply runLocalAuth_ignores_environment_outside_ci.
  - intros T1 T2 T3 T4 h. cbv zeta. split.
    + now apply android_environment_override.
    + intros args stored Hargs Hstored Hfresh.
      now apply (android_override_commits W projectDir options T1 T2 T3 T4 h args stored).
  - intros Hclear h args existing Hargs Hstored.
    eapply android_cached_ignores_environment; eassumption.
  - intros T1 T2 T3 h. cbv zeta.
    destruct (askForAppleId_environment_override W metadata T1 T2 T3 h) as [A B].
    destruct (askForAppleId_override_commits W metadata T1 T2 T3 h) as [C D].
    auto.
  - intros p Hp Np T2 Hstat h. cbv zeta.
    destruct (askForCerts_environment_override W metadata p Hp Np T2 Hstat h) as [A B].
    destruct (askForCerts_override_commits W metadata p Hp Np T2 Hstat h) as [C D].
    auto.
  - intros p Hp Np T2 Hstat h. cbv zeta.
    destruct (askForPushCerts_environment_override W metadata p Hp Np T2 Hstat h) as [A B].
    destruct (askForPushCerts_override_commits W metadata p Hp Np T2 Hstat h) as [C D].
    auto.
  - intros. now apply legacy_cached_is_validated.
  - intros username experienceName bundleIdentifier h. cbv zeta. split.
    + apply legacy_collect_by_slot.
    + apply legacy_collect_resolves.
  - intros h path Hpath T1 Hstat. cbv zeta. now apply askForCerts_path_not_a_file.
  - intros h path Hpath T1 Hstat. cbv zeta. now apply askForPushCerts_path_not_a_file.
Qed.

Lemma C3_witness :
  from_ci_environment ci_world
    [("certP12", JStr "TWFu"); ("certPassword", JStr "dist-pw");
     ("pushP12", JStr "TWFu"); ("pushPassword", JStr "push-pw");
     ("provisioningProfile", JStr "TWFu"); ("teamId", JStr "TEAM")]
  /\ Android.collectAndValidateCredentials android_stored_world "." default_options []
     = (inr tt,
        [EvCall (Exp_getPublishInfoAsync ".");
         EvCall (Credentials_credentialsExistForPlatformAsync
                   (android_metadata example_args))])
  /\ In (EvCall (Credentials_updateCredentialsForPlatform
                   "ios"
                   [("appleId", env legacy_fresh_world "EXP_APPLE_ID");
                    ("password", env legacy_fresh_world "EXP_APPLE_PASSWORD");
                    ("teamId", env legacy_fresh_world "EXP_APPLE_TEAM_ID")]
                   ios_metadata))
        (snd (Legacy.askForAppleId legacy_fresh_world ios_metadata []))
  /\ Exists (resolves ios_metadata "pushP12")
            (snd (Legacy.collectAndValidateCredentials
                    legacy_partial_world default_options (JStr "alice") (JStr "@alice/app")
                    (JStr "com.alice.app") [])).
Proof.
  destruct (C3_environment_override_used_when_slot_is_resolved
              ci_world "." ci_options ios_metadata) as ((_ & Hci & _) & _); [reflexivity|].
  destruct (C3_environment_override_used_when_slot_is_resolved
              android_stored_world "." default_options ios_metadata)
    as (_ & _ & _ & Hstored & _).
  destruct (C3_environment_override_used_when_slot_is_resolved
              legacy_fresh_world "." default_options ios_metadata)
    as (_ & _ & _ & _ & Hid & _).
  destruct (C3_environment_override_used_when_slot_is_resolved
              legacy_partial_world "." default_options ios_metadata)
    as (_ & _ & _ & _ & _ & _ & _ & _ & Hslots & _).
  split; [|split; [|split]].
  - apply (Hci [] _ ios_metadata). vm_compute. do 4 right. left. reflexivity.
  - exact (Hstored eq_refl [] example_args stored_android_credentials eq_refl eq_refl).
  - destruct (Hid eq_refl eq_refl eq_refl []) as (_ & _ & Hin & Hok).
    apply Hin, Hok. split; intros; reflexivity.
  - exact (proj2 (Hslots (JStr "alice") (JStr "@alice/app") (JStr "com.alice.app") [])
                 eq_refl "push" (or_intror (or_intror (or_introl eq_refl)))).
Defined.

(** An override does not always win.  With the four Android variables set
    and a keystore stored, the flow stops after the fetch: the override is
    not used and the stored keystore stays.  With the six iOS variables set
    outside CI mode, the batch flow questions the operator all the same. *)
Lemma C3_counterexample :
  truthy (env android_stored_world "EXP_ANDROID_KEYSTORE_PATH") = true
  /\ truthy (env android_stored_world "EXP_ANDROID_KEYSTORE_ALIAS") = true
  /\ truthy (env android_stored_world "EXP_ANDROID_STORE_PASSWORD") = true
  /\ truthy (env android_stored_world "EXP_ANDROID_KEY_PASSWORD") = true
  /\ calls (snd (Android.run android_stored_world "." default_options []))
     = [this_checkStatus;
        Exp_getPublishInfoAsync ".";
        Credentials_credentialsExistForPlatformAsync (android_metadata example_args);
        this_publish;
        this_build (JArr [JStr "exp-id"]) "android"]
  /\ questions_shown
       (snd (IOS.run interactive_world_with_environment "." default_options []))
     = [EvAsk "isExpoManaged" (JBool true);
        EvAsk "appleId" (JStr "typed appleId");
        EvAsk "password" (JStr "typed password");
        EvAsk "distCert" (JBool true);
        EvAsk "pushCert" (JBool true)].
Proof. repeat split; vm_compute; reflexivity. Qed.

